(** * auto_cell.cpp: the cell grid engine (classes [Cell] and [CellGrand])

    A shallow embedding of [src/auto_cell.cpp] and what holds of it.

    Conventions of the embedding:

    - C++ [int] is [Z]; the embedding covers executions without signed
      overflow.  Integer division is truncating ([Z.quot]).
    - [float] values (render scale, pointer position) are rationals [Q];
      the jitter [SDL_FPoint] only ever holds integers cast to float and
      is a pair of [Z].
    - [cells_] is a C array of [MAX_CELL_COUNT] cells: a list of that
      length.  An access outside the array, a division by zero and a
      conversion of a non-finite float are undefined behaviour in C++;
      the embedding makes them the outcome [Undefined].
    - A failing [assert] is the outcome [Abort].
    - SDL is the environment: what the code reads from it (render scale,
      window size, pointer position, the event) is an argument of the
      operation that reads it.  [std::mt19937] is a stream of raw draws.
    - A cell of the grid is addressed by the grid loops of [ai_] and
      [init_cells_] as [cells_[i * w_ + j]] and by the loops of
      [handle_input], the commit pass and [draw_cells_] as [cells_[n]]
      for [n] below [cell_count_ = w_ * h_]; the two agree on square
      grids only, and the statements say which one they mean.

    The file has the embedding first, then the vocabulary of the
    statements and the objects the examples run on, then the lemmas
    (loops, array, each operation's effect, invariants of the objects
    the host can hold), then the claims C1 to C10, and last further
    properties of the input handler, the step, the frame, the drawing,
    the layout and the constructor (X1 to X20). *)

From Stdlib Require Import ZArith QArith Qabs Lia Bool List.
From stdpp Require Import base list.
Import ListNotations.

Local Open Scope Z_scope.

(** ** Outcomes of a run *)

Inductive Fatal : Type :=
| side_too_small          (* assert(side_>=3 && "error: side must be >= 3 pixels") *)
| cell_count_over_limit.  (* assert(cell_count_ <= MAX_CELL_COUNT && "cell_count_ > max limit") *)

Inductive Run (A : Type) : Type :=
| Done (a : A)
| Abort (f : Fatal)
| Undefined.

Arguments Done {A} a.
Arguments Abort {A} f.
Arguments Undefined {A}.

Definition run_bind {A B : Type} (m : Run A) (k : A -> Run B) : Run B :=
  match m with
  | Done a => k a
  | Abort f => Abort f
  | Undefined => Undefined
  end.

Notation "'let*' x ':=' m 'in' k" := (run_bind m (fun x => k))
  (at level 10, x name, m at level 100, k at level 200).
Notation "'let*' ' p ':=' m 'in' k" := (run_bind m (fun x => let 'p := x in k))
  (at level 10, p pattern, m at level 100, k at level 200).

Definition assert (b : bool) (f : Fatal) : Run unit :=
  if b then Done tt else Abort f.

(** [for (int i = 0; i < bound; ++i) body], the bound not written by
    the body. *)
Fixpoint for_from {S : Type} (n : nat) (i : Z) (body : Z -> S -> Run S) (s : S)
  : Run S :=
  match n with
  | O => Done s
  | Datatypes.S n' => let* s' := body i s in for_from n' (i + 1) body s'
  end.

Definition for_lt {S : Type} (bound : Z) (body : Z -> S -> Run S) (s : S) : Run S :=
  for_from (Z.to_nat bound) 0 body s.

(** ** Arithmetic at the int/float boundary *)

Definition Qltb (a b : Q) : bool := negb (Qle_bool b a).

(** [(int)(float)]: truncation toward zero. *)
Definition Qtrunc (q : Q) : Z := Z.quot (Qnum q) (Zpos (Qden q)).

(** [n /= s] for [int n] and [float s]. *)
Definition int_div_float (n : Z) (s : Q) : Run Z :=
  if Qeq_bool s 0 then Undefined else Done (Qtrunc (inject_Z n / s)).

(** [a / b] on [int]. *)
Definition int_div (a b : Z) : Run Z :=
  if b =? 0 then Undefined else Done (Z.quot a b).

(** std::numeric_limits<float>::epsilon() *)
Definition float_epsilon : Q := (1 # 8388608)%Q.

(** ** Random *)

(** [Random::get(min, max)]: [std::uniform_int_distribution{min, max}]
    applied to the next raw draw of the generator; the distribution's
    contract is a value in [[min, max]]. *)
Definition Random_get (min max : Z) (raw : Z) : Z :=
  min + raw mod (max - min + 1).

(** ** Cell *)

Record CellShape : Type := mkShape     (* SDL_Rect *)
  { rect_x : Z; rect_y : Z; rect_w : Z; rect_h : Z }.

Record CellShake : Type := mkShake     (* SDL_FPoint *)
  { shake_x : Z; shake_y : Z }.

Record Cell : Type := mkCell
  { is_active_ : bool;
    wait_for_select_ : bool;
    active_change : bool;
    shape_ : CellShape;
    shake_ : CellShake }.

Definition get_active_state (c : Cell) : bool := is_active_ c.
Definition get_wait_state (c : Cell) : bool := wait_for_select_ c.
Definition get_shape (c : Cell) : CellShape := shape_ c.
Definition get_shake (c : Cell) : CellShake := shake_ c.
Definition get_active_change (c : Cell) : bool := active_change c.

Definition set_active_state (s : bool) (c : Cell) : Cell :=
  mkCell s (wait_for_select_ c) (active_change c) (shape_ c) (shake_ c).
Definition set_wait_state (s : bool) (c : Cell) : Cell :=
  mkCell (is_active_ c) s (active_change c) (shape_ c) (shake_ c).
Definition set_shape (shape : CellShape) (c : Cell) : Cell :=
  mkCell (is_active_ c) (wait_for_select_ c) (active_change c) shape (shake_ c).
Definition set_shake (s : CellShake) (c : Cell) : Cell :=
  mkCell (is_active_ c) (wait_for_select_ c) (active_change c) (shape_ c) s.
Definition set_active_change (s : bool) (c : Cell) : Cell :=
  mkCell (is_active_ c) (wait_for_select_ c) s (shape_ c) (shake_ c).

(** [Cell() = default]: the flags and the jitter have default member
    initialisers, [shape_] has none and holds whatever the memory held. *)
Definition Cell_default (garbage : CellShape) : Cell :=
  mkCell false false false garbage (mkShake 0 0).

(** ** CellGrand *)

Definition MAX_CELL_COUNT : Z := 16384.

Record CellGrand : Type := mkCellGrand
  { side_ : Z;
    w_ : Z;
    h_ : Z;
    cells_ : list Cell;
    cell_count_ : Z;
    scale_x_ : Q;
    scale_y_ : Q;
    ready_ : Z;
    start_ : bool }.

Definition with_cells (cs : list Cell) (g : CellGrand) : CellGrand :=
  mkCellGrand (side_ g) (w_ g) (h_ g) cs (cell_count_ g)
              (scale_x_ g) (scale_y_ g) (ready_ g) (start_ g).
Definition with_ready (r : Z) (g : CellGrand) : CellGrand :=
  mkCellGrand (side_ g) (w_ g) (h_ g) (cells_ g) (cell_count_ g)
              (scale_x_ g) (scale_y_ g) r (start_ g).
Definition with_start (b : bool) (g : CellGrand) : CellGrand :=
  mkCellGrand (side_ g) (w_ g) (h_ g) (cells_ g) (cell_count_ g)
              (scale_x_ g) (scale_y_ g) (ready_ g) b.
Definition with_scale (sx sy : Q) (g : CellGrand) : CellGrand :=
  mkCellGrand (side_ g) (w_ g) (h_ g) (cells_ g) (cell_count_ g)
              sx sy (ready_ g) (start_ g).
Definition with_grid (w h count : Z) (g : CellGrand) : CellGrand :=
  mkCellGrand (side_ g) w h (cells_ g) count
              (scale_x_ g) (scale_y_ g) (ready_ g) (start_ g).

(** [cells_[k]] read: inside the array or undefined. *)
Definition cell_at (k : Z) (g : CellGrand) : Run Cell :=
  if (0 <=? k) && (k <? MAX_CELL_COUNT) then
    match cells_ g !! Z.to_nat k with
    | Some c => Done c
    | None => Undefined
    end
  else Undefined.

(** [cells_[k].set_...(...)]: the cell at [k] replaced by [f] of it. *)
Definition cell_upd (k : Z) (f : Cell -> Cell) (g : CellGrand) : Run CellGrand :=
  let* c := cell_at k g in
  Done (with_cells (<[Z.to_nat k := f c]> (cells_ g)) g).

(** What the engine reads from SDL in the constructor and in [update_]
    and [init_cells_]: [SDL_GetRenderScale] and [SDL_GetWindowSize]. *)
Record Display : Type := mkDisplay
  { render_scale_x : Q;
    render_scale_y : Q;
    window_size_w : Z;
    window_size_h : Z }.

Definition kGap : Z := 2.

(** One axis of [init_cells_] (lines 271-278 for x, 280-287 for y, the
    same text with [w_]/[h_] and [window_w]/[window_h]): the start
    position and the new count. *)
Definition init_axis (side n window : Z) : Run (Z * Z) :=
  let width := side * n + kGap * (n - 1) in
  if width >? window - (4 * kGap + 2 * side) then
    let* n' := int_div (window - 2) (2 + side) in
    Done (2 * kGap, n')
  else
    let* n' := int_div (width + 2) (side + 2) in
    Done ((window - width) ÷ 2, n').

(** The chain of setters of lines 295-298 on the cell of [(i, j)]. *)
Definition laid_out (start_pos_x start_pos_y side i j : Z) (c : Cell) : Cell :=
  set_active_change false
    (set_active_state false
       (set_wait_state false
          (set_shape (mkShape (start_pos_x + i * (side + kGap))
                              (start_pos_y + j * (side + kGap))
                              side side) c))).

Definition init_cells_ (d : Display) (g : CellGrand) : Run CellGrand :=
  let* window_w := int_div_float (window_size_w d) (scale_x_ g) in
  let* window_h := int_div_float (window_size_h d) (scale_y_ g) in
  let* '(start_pos_x, w') := init_axis (side_ g) (w_ g) window_w in
  let* '(start_pos_y, h') := init_axis (side_ g) (h_ g) window_h in
  let g := with_grid w' h' (w' * h') g in
  let* ok := assert (cell_count_ g <=? MAX_CELL_COUNT) cell_count_over_limit in
  for_lt (w_ g) (fun i g =>
    for_lt (h_ g) (fun j g =>
      cell_upd (i * w_ g + j)
               (laid_out start_pos_x start_pos_y (side_ g) i j) g) g) g.

Definition check_valid (side : Z) : Run unit :=
  assert (3 <=? side) side_too_small.

(** The array as the constructor finds it: [MAX_CELL_COUNT] default
    cells, the shape of the [k]-th being [garbage k]. *)
Definition fresh_cells (garbage : nat -> CellShape) : list Cell :=
  (fun k => Cell_default (garbage k)) <$> seq 0 (Z.to_nat MAX_CELL_COUNT).

(** [CellGrand(int side, int w, int h)].  [cell_count_] has no
    initialiser; [init_cells_] writes it before anything reads it. *)
Definition CellGrand_new (d : Display) (garbage : nat -> CellShape)
           (side w h : Z) : Run CellGrand :=
  let* ok := check_valid side in
  init_cells_ d
    (mkCellGrand side w h (fresh_cells garbage) 0
                 (render_scale_x d) (render_scale_y d) 0 false).

(** ** Input *)

Inductive Button : Type := SDL_BUTTON_LEFT | SDL_BUTTON_MIDDLE | SDL_BUTTON_RIGHT.

Inductive Scancode : Type :=
  SDL_SCANCODE_RETURN | SDL_SCANCODE_ESCAPE | SDL_SCANCODE_SPACE.

(** The events [handle_input] tells apart; every other event type is
    [SDL_EVENT_MOUSE_MOTION] to it. *)
Inductive SDL_Event : Type :=
| SDL_EVENT_MOUSE_BUTTON_DOWN (button : Button)
| SDL_EVENT_KEY_DOWN (scancode : Scancode)
| SDL_EVENT_MOUSE_MOTION.

(** [event->type == SDL_EVENT_MOUSE_BUTTON_DOWN &&
     event->button.button == SDL_BUTTON_LEFT] *)
Definition left_button_down (event : SDL_Event) : bool :=
  match event with
  | SDL_EVENT_MOUSE_BUTTON_DOWN SDL_BUTTON_LEFT => true
  | _ => false
  end.

(** [event->type == SDL_EVENT_KEY_DOWN] and, inside it,
    [event->key.scancode == SDL_SCANCODE_RETURN] *)
Definition return_key_down (event : SDL_Event) : bool :=
  match event with
  | SDL_EVENT_KEY_DOWN SDL_SCANCODE_RETURN => true
  | _ => false
  end.

(** The pointer test of lines 109-110 on one cell. *)
Definition pointer_over (mouse_x mouse_y : Q) (side : Z) (c : Cell) : bool :=
  Qle_bool (inject_Z (rect_x (get_shape c))) mouse_x
  && Qle_bool mouse_x (inject_Z (rect_x (get_shape c) + side))
  && Qle_bool (inject_Z (rect_y (get_shape c))) mouse_y
  && Qle_bool mouse_y (inject_Z (rect_y (get_shape c) + side)).

(** The body of the loop of [handle_input] (lines 109-127) for cell [i]. *)
Definition handle_input_cell (mouse_x mouse_y : Q) (event : SDL_Event)
           (i : Z) (g : CellGrand) : Run CellGrand :=
  let* c := cell_at i g in
  let* g := cell_upd i (set_wait_state (pointer_over mouse_x mouse_y (side_ g) c)) g in
  let* c := cell_at i g in
  if negb (start_ g) && get_wait_state c && left_button_down event then
    if negb (get_active_state c) then
      let* g := cell_upd i (set_active_state true) g in
      Done (with_ready (ready_ g + 1) g)
    else
      let* g := cell_upd i (set_active_state false) g in
      Done (with_ready (ready_ g - 1) g)
  else Done g.

(** [handle_input(SDL_Event *event)]; [mouse] is what
    [SDL_GetMouseState] returns. *)
Definition handle_input (mouse : Q * Q) (event : SDL_Event) (g : CellGrand)
  : Run CellGrand :=
  let mouse_x := (fst mouse / scale_x_ g)%Q in
  let mouse_y := (snd mouse / scale_y_ g)%Q in
  let* g := for_lt (cell_count_ g) (handle_input_cell mouse_x mouse_y event) g in
  let g :=
    if (0 <? ready_ g) && return_key_down event
    then with_start (negb (start_ g)) g else g in
  let g :=
    if start_ g && (ready_ g <=? 0)
    then with_ready 0 (with_start false g) else g in
  Done g.

(** ** The step *)

(** The eight guarded reads of lines 180-187 for the cell at [(i, j)],
    in source order: the guard and the index read when it holds. *)
Definition neighbour_reads (w h i j : Z) : list (bool * Z) :=
  [ ((0 <? i) && (0 <? j), (i - 1) * w + (j - 1));
    ((0 <? j),             i * w + (j - 1));
    ((i <? w) && (0 <? j), (i + 1) * w + (j - 1));
    ((i <? w),             (i + 1) * w + j);
    ((i <? w) && (j <? h), (i + 1) * w + (j + 1));
    ((j <? h),             i * w + (j + 1));
    ((0 <? i) && (j <? h), (i - 1) * w + (j + 1));
    ((0 <? i),             (i - 1) * w + j) ].

(** The indices those lines read: the ones whose guard holds. *)
Definition neighbour_indices (w h i j : Z) : list Z :=
  map snd (List.filter (fun r => fst r) (neighbour_reads w h i j)).

(** [if (guard && cells_[k].get_active_state()) { check_around++; }] *)
Definition count_read (g : CellGrand) (check_around : Z) (r : bool * Z) : Run Z :=
  if fst r then
    let* c := cell_at (snd r) g in
    Done (if get_active_state c then check_around + 1 else check_around)
  else Done check_around.

Fixpoint count_reads (g : CellGrand) (check_around : Z) (rs : list (bool * Z))
  : Run Z :=
  match rs with
  | [] => Done check_around
  | r :: rs' =>
      let* check_around := count_read g check_around r in
      count_reads g check_around rs'
  end.

(** The locals of [ai_] that live across the loops: the object,
    [check_around] (declared before the loops, line 167) and the number
    of draws taken from [Random::mt] so far. *)
Record AiFrame : Type := mkAiFrame
  { this : CellGrand; check_around : Z; drawn : nat }.

(** The body of the nested loops of [ai_] (lines 172-201) at [(i, j)]. *)
Definition ai_cell (mt : nat -> Z) (i j : Z) (f : AiFrame) : Run AiFrame :=
  let g := this f in
  let k := i * w_ g + j in
  let* c := cell_at k g in
  let* '(g, n) :=
    if negb (start_ g) && get_active_state c then
      let sx := Random_get (-1) 1 (mt (drawn f)) in
      let sy := Random_get (-1) 1 (mt (Datatypes.S (drawn f))) in
      let* g := cell_upd k (set_shake (mkShake sx sy)) g in
      Done (g, Datatypes.S (Datatypes.S (drawn f)))
    else
      let* g := cell_upd k (set_shake (mkShake 0 0)) g in
      Done (g, drawn f) in
  if start_ g then
    let* around := count_reads g (check_around f) (neighbour_reads (w_ g) (h_ g) i j) in
    let* c := cell_at k g in
    if negb (get_active_state c) then
      if around =? 3 then
        let* g := cell_upd k (set_active_change true) g in
        Done (mkAiFrame (with_ready (ready_ g + 1) g) around n)
      else Done (mkAiFrame g around n)
    else
      if (around <? 2) || (3 <? around) then
        let* g := cell_upd k (set_active_change true) g in
        Done (mkAiFrame (with_ready (ready_ g - 1) g) around n)
      else Done (mkAiFrame g around n)
  else Done (mkAiFrame g (check_around f) n).

(** Lines 167-204: the evaluation pass. *)
Definition ai_evaluate (mt : nat -> Z) (g : CellGrand) : Run CellGrand :=
  let* f :=
    for_lt (w_ g) (fun i f =>
      for_lt (h_ (this f)) (fun j f => ai_cell mt i j f) f)
      (mkAiFrame g 0 O) in
  Done (this f).

(** The body of the loop of lines 208-213 for cell [i]. *)
Definition ai_commit_cell (i : Z) (g : CellGrand) : Run CellGrand :=
  let* c := cell_at i g in
  if get_active_change c then
    let* g := cell_upd i (set_active_state (negb (get_active_state c))) g in
    cell_upd i (set_active_change false) g
  else Done g.

(** Lines 208-213: the commit pass. *)
Definition ai_commit (g : CellGrand) : Run CellGrand :=
  for_lt (cell_count_ g) ai_commit_cell g.

(** [ai_()]; [mt] is the raw output of [Random::mt] from this call on. *)
Definition ai_ (mt : nat -> Z) (g : CellGrand) : Run CellGrand :=
  let* g := ai_evaluate mt g in
  ai_commit g.

(** ** Drawing *)

(** What [draw_cells_] sends to the renderer for one cell: the fill, if
    any, and the rectangle filled and outlined. *)
Inductive Fill : Type := kActiveColor | kWaitColor | no_fill.

Record Drawn : Type := mkDrawn { fill : Fill; frect_x : Z; frect_y : Z; frect_side : Z * Z }.

Definition draw_cell (c : Cell) : Drawn :=
  let r := get_shape c in
  if get_active_state c then
    mkDrawn kActiveColor (rect_x r + shake_x (get_shake c))
            (rect_y r + shake_y (get_shake c)) (rect_w r, rect_h r)
  else if get_wait_state c then
    mkDrawn kWaitColor (rect_x r) (rect_y r) (rect_w r, rect_h r)
  else mkDrawn no_fill (rect_x r) (rect_y r) (rect_w r, rect_h r).

(** [draw_cells_()]: reads the cells, writes nothing of the object. *)
Definition draw_cells_ (g : CellGrand) : Run (list Drawn) :=
  for_lt (cell_count_ g) (fun i out =>
    let* c := cell_at i g in Done (out ++ [draw_cell c])) [].

(** ** The frame *)

(** [update_()]: [d] carries what [SDL_GetRenderScale] returns. *)
Definition update_ (d : Display) (g : CellGrand) : Run CellGrand :=
  if Qltb (Qabs (scale_x_ g - render_scale_x d)) float_epsilon
     && Qltb (Qabs (scale_y_ g - render_scale_y d)) float_epsilon
  then Done g
  else init_cells_ d (with_scale (render_scale_x d) (render_scale_y d) g).

(** [play()]: the object after the frame, what was drawn, and the
    value returned. *)
Definition play (d : Display) (mt : nat -> Z) (g : CellGrand)
  : Run (CellGrand * list Drawn * bool) :=
  let* g := update_ d g in
  let* g := ai_ mt g in
  let* out := draw_cells_ g in
  Done (g, out, start_ g).

(** * Vocabulary of the statements *)

(** ** What an operation leaves alone *)

(** Everything but the cells' contents and [ready_]. *)
Definition same_frame (g g' : CellGrand) : Prop :=
  side_ g' = side_ g /\ w_ g' = w_ g /\ h_ g' = h_ g /\
  cell_count_ g' = cell_count_ g /\
  scale_x_ g' = scale_x_ g /\ scale_y_ g' = scale_y_ g /\
  start_ g' = start_ g /\ length (cells_ g') = length (cells_ g).

(** The object is as large as the class declares it. *)
Definition well_formed (g : CellGrand) : Prop :=
  cell_count_ g <= MAX_CELL_COUNT /\
  length (cells_ g) = Z.to_nat MAX_CELL_COUNT.

(** The active flags of the whole array are the same in [g] and [g']. *)
Definition same_active (g g' : CellGrand) : Prop :=
  forall n : nat, is_active_ <$> cells_ g' !! n = is_active_ <$> cells_ g !! n.

(** ** The input handler *)

(** What lines 109-127 make of one cell and of [ready_]. *)
Definition cell_toggles (mouse_x mouse_y : Q) (event : SDL_Event)
           (g : CellGrand) (c : Cell) : bool :=
  negb (start_ g) && pointer_over mouse_x mouse_y (side_ g) c
  && left_button_down event.

Definition cell_after_input (mouse_x mouse_y : Q) (event : SDL_Event)
           (g : CellGrand) (c : Cell) : Cell :=
  let c1 := set_wait_state (pointer_over mouse_x mouse_y (side_ g) c) c in
  if cell_toggles mouse_x mouse_y event g c
  then set_active_state (negb (is_active_ c)) c1 else c1.

Definition ready_step (mouse_x mouse_y : Q) (event : SDL_Event)
           (g : CellGrand) (c : Cell) : Z :=
  if cell_toggles mouse_x mouse_y event g c
  then (if is_active_ c then -1 else 1) else 0.

(** Lines 130-139: the state machine's part of [handle_input]. *)
Definition after_keys (event : SDL_Event) (g : CellGrand) : CellGrand :=
  let g :=
    if (0 <? ready_ g) && return_key_down event
    then with_start (negb (start_ g)) g else g in
  if start_ g && (ready_ g <=? 0)
  then with_ready 0 (with_start false g) else g.

(** The number of active cells of the array. *)
Fixpoint count_active (cs : list Cell) : Z :=
  match cs with
  | [] => 0
  | c :: cs' => (if is_active_ c then 1 else 0) + count_active cs'
  end.

(** A run of [handle_input] over a list of events, each with the
    pointer position [SDL_GetMouseState] returns at it. *)
Fixpoint handle_inputs (events : list ((Q * Q) * SDL_Event)) (g : CellGrand)
  : Run CellGrand :=
  match events with
  | [] => Done g
  | (mouse, event) :: events' =>
      let* g := handle_input mouse event g in
      handle_inputs events' g
  end.

(** Events that are presses of the left pointer button. *)
Definition left_presses (events : list ((Q * Q) * SDL_Event)) : Prop :=
  Forall (fun e => left_button_down (snd e) = true) events.

(** ** Layout *)

(** What lines 265-287 derive from the display and the object: the
    start position and the new count on each axis. *)
Definition layout_derives (d : Display) (g : CellGrand)
           (start_pos_x w' start_pos_y h' : Z) : Prop :=
  exists window_w window_h,
    int_div_float (window_size_w d) (scale_x_ g) = Done window_w /\
    int_div_float (window_size_h d) (scale_y_ g) = Done window_h /\
    init_axis (side_ g) (w_ g) window_w = Done (start_pos_x, w') /\
    init_axis (side_ g) (h_ g) window_h = Done (start_pos_y, h').

(** The pixels [n] cells of side [side] take with their gaps, and the
    margin line 272 keeps free ([4 * kGap + 2 * side_]). *)
Definition footprint (side n : Z) : Z := side * n + kGap * (n - 1).

Definition margin (side : Z) : Z := 4 * kGap + 2 * side.

(** What lines 271-278 derive on one axis from the requested count [n]
    and the logical window size: the start position and the count. *)
Definition axis_fit (side n window start n' : Z) : Prop :=
  (footprint side n <= window - margin side ->
   n' = n /\ start = (window - footprint side n) ÷ 2 /\
   footprint side n' <= window - margin side)
  /\
  (window - margin side < footprint side n ->
   start = 2 * kGap /\ n' = (window - 2) ÷ (2 + side) /\
   (2 <= window ->
    footprint side n' <= window - 2 * kGap /\
    forall m, footprint side m <= window - 2 * kGap -> m <= n')).

(** What a layout pass may do to a cell: nothing, or clear its three
    flags and move it; the jitter is not written. *)
Definition relaid (c c' : Cell) : Prop :=
  c' = c \/
  (is_active_ c' = false /\ wait_for_select_ c' = false /\
   active_change c' = false /\ shake_ c' = shake_ c).

(** The position line 295 gives the cell of [(i, j)]. *)
Definition position_of (start_pos_x start_pos_y : Z) (g0 : CellGrand) (i j : Z) : CellShape :=
  mkShape (start_pos_x + i * (side_ g0 + kGap))
          (start_pos_y + j * (side_ g0 + kGap))
          (side_ g0) (side_ g0).

Definition laid_at (start_pos_x start_pos_y : Z) (g0 : CellGrand) (i j : Z) (t : CellGrand) : Prop :=
  0 <= i -> 0 <= j ->
  exists c, cells_ t !! Z.to_nat (i * w_ g0 + j) = Some c /\
            is_active_ c = false /\ wait_for_select_ c = false /\
            active_change c = false /\
            exists i' j', 0 <= i' < w_ g0 /\ 0 <= j' < h_ g0 /\
                          i' * w_ g0 + j' = i * w_ g0 + j /\
                          shape_ c = position_of start_pos_x start_pos_y g0 i' j'.

Definition layout_keeps (g0 t : CellGrand) : Prop :=
  same_frame g0 t /\ ready_ t = ready_ g0 /\
  forall n c', cells_ t !! n = Some c' ->
               exists c, cells_ g0 !! n = Some c /\ relaid c c'.

(** The grid loops of a [w] by [h] grid stay inside the array. *)
Definition stride_safe (w h : Z) : Prop :=
  w <= 0 \/ h <= 0 \/ (w - 1) * w + h <= MAX_CELL_COUNT.

(** ** The step *)

Definition jitter_ok (s : CellShake) : Prop :=
  -1 <= shake_x s <= 1 /\ -1 <= shake_y s <= 1.

(** What the evaluation pass may do to a cell: write its jitter and,
    while Running, set its pending flag. *)
Definition evaluated (running : bool) (c c' : Cell) : Prop :=
  is_active_ c' = is_active_ c /\
  wait_for_select_ c' = wait_for_select_ c /\
  shape_ c' = shape_ c /\
  (running = false -> active_change c' = active_change c).

(** The jitter of a cell the pass has visited. *)
Definition jitter_settled (running : bool) (c : Cell) : Prop :=
  jitter_ok (shake_ c) /\
  (shake_ c = mkShake 0 0 \/ (running = false /\ is_active_ c = true)).

(** The indices the grid loops address: [i * w_ + j] for [(i, j)] in
    [0, w_) x [0, h_). *)
Definition grid_index (g : CellGrand) (n : nat) : Prop :=
  exists i j, 0 <= i < w_ g /\ 0 <= j < h_ g /\ n = Z.to_nat (i * w_ g + j).

Definition evaluation_keeps (g : CellGrand) (f : AiFrame) : Prop :=
  same_frame g (this f) /\
  (start_ g = false -> ready_ (this f) = ready_ g) /\
  (forall n c', cells_ (this f) !! n = Some c' ->
                exists c, cells_ g !! n = Some c /\ evaluated (start_ g) c c') /\
  (forall n, ~ grid_index g n -> cells_ (this f) !! n = cells_ g !! n).

Definition visited (g : CellGrand) (i j : Z) (f : AiFrame) : Prop :=
  0 <= i -> 0 <= j ->
  exists c, cells_ (this f) !! Z.to_nat (i * w_ g + j) = Some c /\
            jitter_settled (start_ g) c.

(** What lines 209-212 make of one cell. *)
Definition committed (c : Cell) : Cell :=
  if get_active_change c
  then set_active_change false (set_active_state (negb (get_active_state c)) c)
  else c.

(** No pending flag is set anywhere in the array. *)
Definition pending_all_clear (g : CellGrand) : Prop :=
  forall n c, cells_ g !! n = Some c -> active_change c = false.

(** Every index the step of a [w] by [h] grid touches, the guarded
    reads of lines 180-187 included, is inside the array. *)
Definition scan_safe (w h : Z) : Prop :=
  w <= 0 \/ h <= 0 \/ w * w + h < MAX_CELL_COUNT.

(** ** The objects the host can hold *)

(** The objects the host can hold: a constructed one, and what
    [handle_input] and [play] make of one. *)
Inductive reachable : CellGrand -> Prop :=
| reachable_new d garbage side w h g :
    CellGrand_new d garbage side w h = Done g -> reachable g
| reachable_input mouse event g g' :
    reachable g -> handle_input mouse event g = Done g' -> reachable g'
| reachable_play d mt g g' out b :
    reachable g -> play d mt g = Done (g', out, b) -> reachable g'.

(** No cell the commit pass will visit has its pending flag set, among
    the cells the grid loops address ([cells_[i * w_ + j]]). *)
Definition grid_pending_clear (g : CellGrand) : Prop :=
  forall i j c,
    0 <= i < w_ g -> 0 <= j < h_ g -> i * w_ g + j < cell_count_ g ->
    cells_ g !! Z.to_nat (i * w_ g + j) = Some c ->
    active_change c = false.

(** Jitter containment on one cell of the object. *)
Definition cell_contained (g : CellGrand) (c : Cell) : Prop :=
  (start_ g = true -> shake_ c = mkShake 0 0) /\
  (start_ g = false -> is_active_ c = false -> shake_ c = mkShake 0 0) /\
  (shake_ c <> mkShake 0 0 -> start_ g = false /\ is_active_ c = true) /\
  jitter_ok (shake_ c).

(** Jitter containment on the cells of the grid, as the grid loops
    address them ([cells_[i * w_ + j]]). *)
Definition jitter_contained (g : CellGrand) : Prop :=
  forall i j,
    0 <= i < w_ g -> 0 <= j < h_ g ->
    exists c, cells_ g !! Z.to_nat (i * w_ g + j) = Some c /\ cell_contained g c.

(** The same on the cells below [cell_count_], as the other loops
    address them. *)
Definition jitter_contained_linear (g : CellGrand) : Prop :=
  forall n : nat,
    Z.of_nat n < cell_count_ g ->
    exists c, cells_ g !! n = Some c /\ cell_contained g c.

(** ** The neighbour count as the specification words it *)

(** Follows the spec's words (4.4, step 1), for comparison with the
    count [ai_] computes: the positions among the 8 surrounding
    [(i, j)] that lie in [0, columns) x [0, rows). *)
Definition moore_positions (columns rows i j : Z) : list (Z * Z) :=
  List.filter
    (fun p => (0 <=? fst p) && (fst p <? columns) && (0 <=? snd p) && (snd p <? rows))
    [ (i - 1, j - 1); (i, j - 1); (i + 1, j - 1); (i + 1, j);
      (i + 1, j + 1); (i, j + 1); (i - 1, j + 1); (i - 1, j) ].

(** The number of those positions whose cell is active in [g], the cell
    of [(i, j)] being [cells_[i * w_ + j]]. *)
Definition moore_count (g : CellGrand) (i j : Z) : Z :=
  Z.of_nat
    (length
       (List.filter
          (fun p =>
             match cells_ g !! Z.to_nat (fst p * w_ g + snd p) with
             | Some c => is_active_ c
             | None => false
             end)
          (moore_positions (w_ g) (h_ g) i j))).

(** ** Inputs the examples run on *)

(** The host's window, 800 by 600, at render scale 1. *)
Definition host_window : Display := mkDisplay 1 1 800 600.

(** The same window once the host has set render scale 2. *)
Definition host_window_scaled : Display := mkDisplay 2 2 800 600.

(** The host's window 200 pixels wide. *)
Definition narrow_window : Display := mkDisplay 1 1 200 600.

(** Memory in which every unwritten [shape_] is the zero rectangle. *)
Definition zeroed : nat -> CellShape := fun _ => mkShape 0 0 0 0.

(** The raw draws 0, 1, 2, ... of the generator. *)
Definition counting : nat -> Z := Z.of_nat.

Definition left_press (x y : Z) : (Q * Q) * SDL_Event :=
  ((inject_Z x, inject_Z y), SDL_EVENT_MOUSE_BUTTON_DOWN SDL_BUTTON_LEFT).

Definition return_press (x y : Z) : (Q * Q) * SDL_Event :=
  ((inject_Z x, inject_Z y), SDL_EVENT_KEY_DOWN SDL_SCANCODE_RETURN).

(** Whether a run ended with a result. *)
Definition is_done {A : Type} (r : Run A) : bool :=
  match r with
  | Done _ => true
  | _ => false
  end.

(** The object a run ended with, for runs that are known to end. *)
Definition result_of (r : Run CellGrand) : CellGrand :=
  match r with
  | Done g => g
  | _ => mkCellGrand 0 0 0 [] 0 0 0 0 false
  end.

(** The object a frame ended with, for frames that are known to end. *)
Definition object_of (r : Run (CellGrand * list Drawn * bool)) : CellGrand :=
  match r with
  | Done (g, _, _) => g
  | _ => mkCellGrand 0 0 0 [] 0 0 0 0 false
  end.

(** [CellGrand(8, 3, 3)] in the host's window: a 3 by 3 grid whose
    cell [(i, j)] is at [(386 + 10 i, 286 + 10 j)], index [3 i + j]. *)
Definition grid3 : CellGrand :=
  result_of (CellGrand_new host_window zeroed 8 3 3).

(** [grid3] after a click on cell [(0, 0)]. *)
Definition grid3_one : CellGrand :=
  result_of (handle_inputs [left_press 387 287] grid3).

(** [grid3_one] after the Return key: Running, one active cell. *)
Definition grid3_running : CellGrand :=
  result_of (handle_inputs [return_press 387 287] grid3_one).

(** [CellGrand(8, 1, 1)] in the host's window: one cell, at
    [(396, 296)], clicked active and started with the Return key. *)
Definition grid1_running : CellGrand :=
  result_of (handle_inputs [left_press 397 297; return_press 397 297]
               (result_of (CellGrand_new host_window zeroed 8 1 1))).

(** [CellGrand(8, 3, 2)] in the host's window: three columns of two
    rows, cell [(i, j)] at [(386 + 10 i, 291 + 10 j)]; cell [(0, 0)]
    clicked active and the run started with the Return key. *)
Definition grid32_running : CellGrand :=
  result_of (handle_inputs [left_press 387 292; return_press 387 292]
               (result_of (CellGrand_new host_window zeroed 8 3 2))).

(** [grid3_running] once the host has set render scale 2 and a frame
    has re-laid it out: Running, with [ready_] still 1 and no active
    cell. *)
Definition grid3_rescaled : CellGrand :=
  object_of (play host_window_scaled counting grid3_running).

(** ** A session at one scale *)

(** The objects the host can hold while the display [d] does not
    change: one constructed at [d] whose grid came out square, and what
    [handle_input] and the frames at [d] make of it. *)
Inductive session (d : Display) : CellGrand -> Prop :=
| session_new garbage side w h g :
    CellGrand_new d garbage side w h = Done g -> w_ g = h_ g -> session d g
| session_input mouse event g g' :
    session d g -> handle_input mouse event g = Done g' -> session d g'
| session_play mt g g' out b :
    session d g -> play d mt g = Done (g', out, b) -> session d g'.

(** What a frame that is known to end drew, and what it returned. *)
Definition drawn_of (r : Run (CellGrand * list Drawn * bool)) : list Drawn :=
  match r with
  | Done (_, out, _) => out
  | _ => []
  end.

Definition returned_of (r : Run (CellGrand * list Drawn * bool)) : bool :=
  match r with
  | Done (_, _, b) => b
  | _ => false
  end.

(** The host's window at render scale 30 by 1: 26 logical pixels wide,
    room for two columns of side 8. *)
Definition stretched_window : Display := mkDisplay 30 1 800 600.

(** [grid3] after a click on cell [(1, 2)], index 5, and one frame:
    Editing, the cell active and displaced by the jitter [(-1, 0)]. *)
Definition grid3_jittered : CellGrand :=
  object_of (play host_window counting
               (result_of (handle_inputs [left_press 397 307] grid3))).

(** [grid3_jittered] after a frame at render scale 30 by 1 and the
    Return key: the frame re-laid the grid out as 2 columns of 3 rows,
    [cell_count_] 6, writing [cells_[0]] to [cells_[4]]; Running. *)
Definition grid23_running : CellGrand :=
  result_of (handle_inputs [return_press 0 0]
               (object_of (play stretched_window counting grid3_jittered))).

(** * Reasoning about runs *)

Lemma run_bind_Done {A B : Type} (m : Run A) (k : A -> Run B) (b : B) :
  run_bind m k = Done b -> exists a, m = Done a /\ k a = Done b.
Proof.
  destruct m as [a | f | ]; simpl; intros H; try discriminate.
  exists a; split; [reflexivity | exact H].
Qed.

(** Peels one layer off a hypothesis [H : ... = Done _]. *)
Ltac run_step H :=
  match type of H with
  | run_bind _ _ = Done _ =>
      let a := fresh "a" in
      let Ha := fresh "Ha" in
      apply run_bind_Done in H; destruct H as (a & Ha & H)
  | (if ?b then _ else _) = Done _ =>
      let E := fresh "E" in destruct b eqn:E
  | (let '(_, _) := ?p in _) = Done _ => destruct p
  | Done _ = Done _ => injection H as H
  | Undefined = Done _ => discriminate H
  | Abort _ = Done _ => discriminate H
  end.

Section Loops.
Context {S : Type}.
Variable body : Z -> S -> Run S.

(** The loop rule: an invariant indexed by the loop counter. *)
Lemma for_from_inv (Inv : Z -> S -> Prop) (n : nat) :
  forall (i : Z) (s s' : S),
    Inv i s ->
    (forall j t t', i <= j < i + Z.of_nat n ->
                    Inv j t -> body j t = Done t' -> Inv (j + 1) t') ->
    for_from n i body s = Done s' ->
    Inv (i + Z.of_nat n) s'.
Proof.
  induction n as [| n IH]; intros i s s' Hi Hstep Hrun.
  - simpl in Hrun. injection Hrun as <-. now replace (i + Z.of_nat 0) with i by lia.
  - simpl in Hrun. run_step Hrun.
    replace (i + Z.of_nat (Datatypes.S n)) with ((i + 1) + Z.of_nat n) by lia.
    apply (IH (i + 1) a s'); [ | | exact Hrun].
    + apply (Hstep i s a); [lia | exact Hi | exact Ha].
    + intros j t t' Hj. apply Hstep. lia.
Qed.

Lemma for_lt_inv (Inv : Z -> S -> Prop) (bound : Z) (s s' : S) :
  Inv 0 s ->
  (forall j t t', 0 <= j < bound ->
                  Inv j t -> body j t = Done t' -> Inv (j + 1) t') ->
  for_lt bound body s = Done s' ->
  Inv (Z.max 0 bound) s'.
Proof.
  intros H0 Hstep Hrun. unfold for_lt in Hrun.
  replace (Z.max 0 bound) with (0 + Z.of_nat (Z.to_nat bound)) by lia.
  apply (for_from_inv Inv _ 0 s s' H0); [ | exact Hrun].
  intros j t t' Hj. apply Hstep. lia.
Qed.

(** A loop whose body is defined wherever the invariant holds is
    defined. *)
Lemma for_from_total (Inv : Z -> S -> Prop) (n : nat) :
  forall (i : Z) (s : S),
    Inv i s ->
    (forall j t, i <= j < i + Z.of_nat n -> Inv j t ->
                 exists t', body j t = Done t' /\ Inv (j + 1) t') ->
    exists s', for_from n i body s = Done s' /\ Inv (i + Z.of_nat n) s'.
Proof.
  induction n as [| n IH]; intros i s Hi Hstep.
  - exists s. split; [reflexivity | now replace (i + Z.of_nat 0) with i by lia].
  - destruct (Hstep i s) as (t' & Hb & Ht'); [lia | exact Hi | ].
    destruct (IH (i + 1) t' Ht') as (s' & Hrun & Hs').
    + intros j t Hj. apply Hstep. lia.
    + exists s'. simpl. rewrite Hb. simpl. split; [exact Hrun | ].
      now replace (i + Z.of_nat (Datatypes.S n)) with ((i + 1) + Z.of_nat n) by lia.
Qed.

Lemma for_lt_total (Inv : Z -> S -> Prop) (bound : Z) (s : S) :
  Inv 0 s ->
  (forall j t, 0 <= j < bound -> Inv j t ->
               exists t', body j t = Done t' /\ Inv (j + 1) t') ->
  exists s', for_lt bound body s = Done s' /\ Inv (Z.max 0 bound) s'.
Proof.
  intros H0 Hstep. unfold for_lt.
  replace (Z.max 0 bound) with (0 + Z.of_nat (Z.to_nat bound)) by lia.
  apply for_from_total; [exact H0 | ].
  intros j t Hj. apply Hstep. lia.
Qed.
End Loops.

(** Two nested loops, the inner bound read from the state: [B] is kept
    by every step, [P i j] is established by the step at [(i, j)] and
    kept by every later step. *)
Lemma for_grid_inv {S : Type} (body : Z -> Z -> S -> Run S) (hb : S -> Z)
      (B : S -> Prop) (P : Z -> Z -> S -> Prop) (w h : Z) (s s' : S) :
  B s ->
  (forall t, B t -> hb t = h) ->
  (forall i j t t', 0 <= i < w -> 0 <= j < h -> B t -> body i j t = Done t' ->
                    B t' /\ P i j t' /\ (forall i' j', P i' j' t -> P i' j' t')) ->
  for_lt w (fun i t => for_lt (hb t) (fun j t => body i j t) t) s = Done s' ->
  B s' /\ (forall i j, 0 <= i < w -> 0 <= j < h -> P i j s').
Proof.
  intros HB Hhb Hstep Hrun.
  pose (Outer := fun (i : Z) (t : S) =>
    B t /\ forall i' j', 0 <= i' < i -> 0 <= j' < h -> P i' j' t).
  assert (Outer (Z.max 0 w) s') as [HB' HP'].
  { eapply for_lt_inv with (Inv := Outer); [ | | exact Hrun].
    - split; [exact HB | intros; lia].
    - intros i t t' Hi [HBt HPt] Hin. cbv beta in Hin.
      rewrite (Hhb t HBt) in Hin.
      pose (Inner := fun (j : Z) (u : S) =>
        B u /\ (forall i' j', 0 <= i' < i -> 0 <= j' < h -> P i' j' u)
        /\ (forall j', 0 <= j' < j -> P i j' u)).
      assert (Inner (Z.max 0 h) t') as (HBt' & Hold & Hnew).
      { eapply for_lt_inv with (Inv := Inner); [ | | exact Hin].
        - split; [exact HBt | ]. split; [exact HPt | intros; lia].
        - intros j u u' Hj (HBu & Hold & Hnew) Hb.
          destruct (Hstep i j u u' Hi Hj HBu Hb) as (HBu' & Hij & Hkeep).
          split; [exact HBu' | ]. split.
          + intros i' j' Hi' Hj'. apply Hkeep, Hold; assumption.
          + intros j' Hj'. destruct (Z.eq_dec j' j) as [-> | Hne].
            * exact Hij.
            * apply Hkeep, Hnew. lia. }
      split; [exact HBt' | ].
      intros i' j' Hi' Hj'. destruct (Z.eq_dec i' i) as [-> | Hne].
      + apply Hnew. lia.
      + apply Hold; lia. }
  split; [exact HB' | ]. intros i j Hi Hj. apply HP'; lia.
Qed.

(** Two nested loops whose body has a result wherever [B] holds have
    one. *)
Lemma for_grid_total {S : Type} (body : Z -> Z -> S -> Run S) (hb : S -> Z)
      (B : S -> Prop) (w h : Z) (s : S) :
  B s ->
  (forall t, B t -> hb t = h) ->
  (forall i j t, 0 <= i < w -> 0 <= j < h -> B t ->
                 exists t', body i j t = Done t' /\ B t') ->
  exists s', for_lt w (fun i t => for_lt (hb t) (fun j t => body i j t) t) s = Done s'
             /\ B s'.
Proof.
  intros HB Hhb Hstep.
  destruct (for_lt_total (fun i t => for_lt (hb t) (fun j t => body i j t) t)
                         (fun _ => B) w s HB) as (s' & Hrun & HB').
  - intros i t Hi HBt. cbv beta. rewrite (Hhb t HBt).
    destruct (for_lt_total (fun j t => body i j t) (fun _ => B) h t HBt)
      as (t' & Hin & HBt').
    + intros j u Hj HBu. exact (Hstep i j u Hi Hj HBu).
    + exists t'. split; [exact Hin | exact HBt'].
  - exists s'. split; [exact Hrun | exact HB'].
Qed.

(** A loop aborts only where its body does. *)
Lemma for_from_Abort {S : Type} (body : Z -> S -> Run S) (f : Fatal) (n : nat) :
  forall (i : Z) (s : S),
    for_from n i body s = Abort f -> exists j t, body j t = Abort f.
Proof.
  induction n as [| n IH]; intros i s H; simpl in H; [discriminate | ].
  destruct (body i s) as [s' | f' |] eqn:E; simpl in H.
  - exact (IH (i + 1) s' H).
  - injection H as ->. eauto.
  - discriminate.
Qed.

(** ** The array *)

Lemma cell_at_Done (k : Z) (g : CellGrand) (c : Cell) :
  cell_at k g = Done c ->
  0 <= k < MAX_CELL_COUNT /\ cells_ g !! Z.to_nat k = Some c.
Proof.
  unfold cell_at. intros H.
  destruct ((0 <=? k) && (k <? MAX_CELL_COUNT)) eqn:E; [ | discriminate].
  apply andb_true_iff in E as [E1 E2].
  destruct (cells_ g !! Z.to_nat k) as [c0 |]; [ | discriminate].
  injection H as <-. split; [lia | reflexivity].
Qed.

Lemma cell_at_lookup (k : Z) (g : CellGrand) (c : Cell) :
  0 <= k < MAX_CELL_COUNT -> cells_ g !! Z.to_nat k = Some c ->
  cell_at k g = Done c.
Proof.
  intros Hk Hc. unfold cell_at.
  replace ((0 <=? k) && (k <? MAX_CELL_COUNT)) with true
    by (symmetry; apply andb_true_iff; split; lia).
  now rewrite Hc.
Qed.

Lemma cell_upd_Done (k : Z) (f : Cell -> Cell) (g g' : CellGrand) :
  cell_upd k f g = Done g' ->
  exists c, 0 <= k < MAX_CELL_COUNT /\ cells_ g !! Z.to_nat k = Some c /\
            g' = with_cells (<[Z.to_nat k := f c]> (cells_ g)) g.
Proof.
  unfold cell_upd. intros H. run_step H. run_step H.
  apply cell_at_Done in Ha as [Hk Hc]. exists a. now rewrite H.
Qed.

(** Reading back after a write. *)
Lemma lookup_with_cells_insert (g : CellGrand) (k n : nat) (c c' : Cell) :
  cells_ g !! k = Some c ->
  cells_ (with_cells (<[k := c']> (cells_ g)) g) !! n
  = if decide (k = n) then Some c' else cells_ g !! n.
Proof.
  intros Hc. simpl. destruct (decide (k = n)) as [<- | Hne].
  - apply list_lookup_insert_eq. now apply lookup_lt_Some in Hc.
  - now apply list_lookup_insert_ne.
Qed.

(** ** What an operation leaves alone *)

Lemma same_frame_refl (g : CellGrand) : same_frame g g.
Proof. unfold same_frame. tauto. Qed.

Lemma same_frame_trans (g1 g2 g3 : CellGrand) :
  same_frame g1 g2 -> same_frame g2 g3 -> same_frame g1 g3.
Proof. unfold same_frame. intuition congruence. Qed.

Lemma cell_upd_frame (k : Z) (f : Cell -> Cell) (g g' : CellGrand) :
  cell_upd k f g = Done g' -> same_frame g g' /\ ready_ g' = ready_ g.
Proof.
  intros H. apply cell_upd_Done in H as (c & _ & _ & ->).
  unfold same_frame. simpl. rewrite length_insert. tauto.
Qed.

(** * The input handler, cell by cell *)

Lemma handle_input_cell_effect mouse_x mouse_y event i g g' :
  handle_input_cell mouse_x mouse_y event i g = Done g' ->
  exists c,
    0 <= i < MAX_CELL_COUNT /\ cells_ g !! Z.to_nat i = Some c /\
    cells_ g' = <[Z.to_nat i := cell_after_input mouse_x mouse_y event g c]> (cells_ g) /\
    ready_ g' = ready_ g + ready_step mouse_x mouse_y event g c /\
    same_frame g g'.
Proof.
  unfold handle_input_cell. intros H.
  apply run_bind_Done in H as (c & Hat & H). apply cell_at_Done in Hat as [Hi Hc].
  apply run_bind_Done in H as (g1 & Hup & H).
  apply cell_upd_Done in Hup as (c0 & _ & Hc0 & ->).
  assert (c0 = c) as -> by congruence.
  apply run_bind_Done in H as (c1 & Hat & H). apply cell_at_Done in Hat as [_ Hc1].
  rewrite (lookup_with_cells_insert g _ _ c) in Hc1 by exact Hc.
  destruct (decide (Z.to_nat i = Z.to_nat i)) as [_ | []]; [ | reflexivity].
  injection Hc1 as <-.
  exists c. split; [exact Hi | ]. split; [exact Hc | ].
  unfold cell_after_input, ready_step, cell_toggles.
  simpl in H.
  destruct (negb (start_ g) && pointer_over mouse_x mouse_y (side_ g) c
            && left_button_down event) eqn:E.
  - destruct (is_active_ c) eqn:Ea; simpl in H;
      apply run_bind_Done in H as (g2 & Hup & H);
      apply cell_upd_Done in Hup as (c1 & _ & Hc1 & ->);
      injection H as <-; simpl in *;
      rewrite list_insert_insert_eq;
      rewrite list_lookup_insert_eq in Hc1 by (now apply lookup_lt_Some in Hc);
      injection Hc1 as <-;
      (split; [reflexivity | ]); (split; [reflexivity | ]);
      unfold same_frame; simpl; rewrite length_insert; tauto.
  - injection H as <-. simpl.
    split; [reflexivity | ]. split; [lia | ].
    unfold same_frame; simpl; rewrite length_insert; tauto.
Qed.

Lemma cell_after_input_frame mouse_x mouse_y event g t c :
  same_frame g t ->
  cell_after_input mouse_x mouse_y event t c = cell_after_input mouse_x mouse_y event g c
  /\ ready_step mouse_x mouse_y event t c = ready_step mouse_x mouse_y event g c.
Proof.
  intros (Hs & _ & _ & _ & _ & _ & Hst & _).
  unfold cell_after_input, ready_step, cell_toggles. now rewrite Hs, Hst.
Qed.

Lemma count_active_insert (cs : list Cell) :
  forall (k : nat) (c c' : Cell),
    cs !! k = Some c ->
    count_active (<[k := c']> cs)
    = count_active cs - (if is_active_ c then 1 else 0)
      + (if is_active_ c' then 1 else 0).
Proof.
  induction cs as [| c0 cs IH]; intros k c c' Hk.
  - destruct k; discriminate.
  - destruct k as [| k]; simpl in *.
    + injection Hk as ->. lia.
    + rewrite (IH k c c' Hk). lia.
Qed.

Lemma count_active_zero (cs : list Cell) :
  (forall n c, cs !! n = Some c -> is_active_ c = false) -> count_active cs = 0.
Proof.
  induction cs as [| c cs IH]; intros H; simpl; [reflexivity | ].
  rewrite (H O c eq_refl). rewrite IH; [reflexivity | ].
  intros n c' Hn. exact (H (Datatypes.S n) c' Hn).
Qed.

Lemma ready_step_counts mouse_x mouse_y event g c :
  ready_step mouse_x mouse_y event g c
  = (if is_active_ (cell_after_input mouse_x mouse_y event g c) then 1 else 0)
    - (if is_active_ c then 1 else 0).
Proof.
  unfold ready_step, cell_after_input.
  destruct (cell_toggles mouse_x mouse_y event g c); simpl;
    destruct (is_active_ c); simpl; lia.
Qed.

(** The loop of [handle_input] visits the cells below [cell_count_]
    once each, in order. *)
Lemma handle_input_loop mouse_x mouse_y event g g' :
  for_lt (cell_count_ g) (handle_input_cell mouse_x mouse_y event) g = Done g' ->
  same_frame g g' /\
  (forall n : nat,
      cells_ g' !! n =
      if decide (Z.of_nat n < cell_count_ g)
      then cell_after_input mouse_x mouse_y event g <$> cells_ g !! n
      else cells_ g !! n) /\
  ready_ g' - count_active (cells_ g') = ready_ g - count_active (cells_ g).
Proof.
  intros Hrun.
  pose (Inv := fun (i : Z) (t : CellGrand) =>
    same_frame g t /\
    (forall n : nat,
        cells_ t !! n =
        if decide (Z.of_nat n < i)
        then cell_after_input mouse_x mouse_y event g <$> cells_ g !! n
        else cells_ g !! n) /\
    ready_ t - count_active (cells_ t) = ready_ g - count_active (cells_ g)).
  assert (Inv (Z.max 0 (cell_count_ g)) g') as (Hf & Hc & Hr).
  { eapply for_lt_inv with (Inv := Inv); [ | | exact Hrun].
    - split; [apply same_frame_refl | ]. split; [ | reflexivity].
      intros n. destruct (decide (Z.of_nat n < 0)); [lia | reflexivity].
    - intros j t t' Hj (Hf & Hc & Hr) Hbody.
      apply handle_input_cell_effect in Hbody as (c & _ & Hjc & Hcs & Hrd & Hf').
      destruct (cell_after_input_frame mouse_x mouse_y event g t c Hf) as [Ec Er].
      rewrite Ec in Hcs. rewrite Er in Hrd.
      split; [exact (same_frame_trans _ _ _ Hf Hf') | ]. split.
      + intros n. rewrite Hcs.
        assert (cells_ g !! Z.to_nat j = Some c) as Hg.
        { rewrite <- Hjc, Hc. destruct (decide (Z.of_nat (Z.to_nat j) < j)); [lia | reflexivity]. }
        destruct (decide (Z.to_nat j = n)) as [<- | Hne].
        * rewrite list_lookup_insert_eq by (now apply lookup_lt_Some in Hjc).
          destruct (decide (Z.of_nat (Z.to_nat j) < j + 1)); [ | lia].
          now rewrite Hg.
        * rewrite list_lookup_insert_ne by exact Hne. rewrite Hc.
          destruct (decide (Z.of_nat n < j)), (decide (Z.of_nat n < j + 1));
            try reflexivity; lia.
      + rewrite Hcs, (count_active_insert _ _ c _ Hjc), Hrd, ready_step_counts. lia. }
  split; [exact Hf | ]. split; [ | exact Hr].
  intros n. rewrite Hc.
  destruct (decide (Z.of_nat n < Z.max 0 (cell_count_ g))),
           (decide (Z.of_nat n < cell_count_ g)); try reflexivity; lia.
Qed.

Lemma handle_input_Done mouse event g g' :
  handle_input mouse event g = Done g' ->
  exists g1,
    for_lt (cell_count_ g)
           (handle_input_cell (fst mouse / scale_x_ g)%Q (snd mouse / scale_y_ g)%Q event)
           g = Done g1
    /\ g' = after_keys event g1.
Proof.
  unfold handle_input. intros H.
  apply run_bind_Done in H as (g1 & Hloop & H). injection H as <-.
  exists g1. split; [exact Hloop | reflexivity].
Qed.

Lemma after_keys_cells event g : cells_ (after_keys event g) = cells_ g.
Proof.
  unfold after_keys.
  destruct ((0 <? ready_ g) && return_key_down event); simpl;
    match goal with |- context [if ?b then _ else _] => destruct b end; reflexivity.
Qed.

(** * Layout *)

Lemma init_cells_Done d g g' :
  init_cells_ d g = Done g' ->
  exists window_w window_h start_pos_x w' start_pos_y h',
    int_div_float (window_size_w d) (scale_x_ g) = Done window_w /\
    int_div_float (window_size_h d) (scale_y_ g) = Done window_h /\
    init_axis (side_ g) (w_ g) window_w = Done (start_pos_x, w') /\
    init_axis (side_ g) (h_ g) window_h = Done (start_pos_y, h') /\
    w' * h' <= MAX_CELL_COUNT /\
    for_lt w' (fun i t =>
      for_lt (h_ t) (fun j t =>
        cell_upd (i * w_ t + j)
                 (laid_out start_pos_x start_pos_y (side_ t) i j) t) t)
      (with_grid w' h' (w' * h') g) = Done g'.
Proof.
  unfold init_cells_. intros H.
  apply run_bind_Done in H as (window_w & Hw & H).
  apply run_bind_Done in H as (window_h & Hh & H).
  apply run_bind_Done in H as ([sx w'] & Hx & H).
  apply run_bind_Done in H as ([sy h'] & Hy & H).
  apply run_bind_Done in H as (ok & Hassert & H).
  exists window_w, window_h, sx, w', sy, h'.
  repeat (split; [assumption | ]). split; [ | exact H].
  unfold assert in Hassert. simpl in Hassert.
  destruct (w' * h' <=? MAX_CELL_COUNT) eqn:E; [lia | discriminate].
Qed.

(** The two coordinates of a grid with no more rows than columns are
    read back from the index. *)
Lemma index_injective (w i j i' j' : Z) :
  0 <= j < w -> 0 <= j' < w -> i * w + j = i' * w + j' -> i = i' /\ j = j'.
Proof.
  intros Hj Hj' E.
  assert (i = i') as -> by nia. split; [reflexivity | lia].
Qed.

Lemma layout_loop start_pos_x start_pos_y g0 g' :
  for_lt (w_ g0) (fun i t =>
    for_lt (h_ t) (fun j t =>
      cell_upd (i * w_ t + j)
               (laid_out start_pos_x start_pos_y (side_ t) i j) t) t) g0 = Done g' ->
  layout_keeps g0 g' /\
  forall i j, 0 <= i < w_ g0 -> 0 <= j < h_ g0 ->
              laid_at start_pos_x start_pos_y g0 i j g'.
Proof.
  intros Hrun.
  eapply for_grid_inv
    with (body := fun i j t =>
            cell_upd (i * w_ t + j)
                     (laid_out start_pos_x start_pos_y (side_ t) i j) t)
         (B := layout_keeps g0) (P := laid_at start_pos_x start_pos_y g0)
         (h := h_ g0);
    [ | | | exact Hrun].
  - split; [apply same_frame_refl | ]. split; [reflexivity | ].
    intros n c' Hn. exists c'. split; [exact Hn | now left].
  - intros t (Hf & _). unfold same_frame in Hf. tauto.
  - intros i j t t' Hi Hj (Hf & Hr & Hrel) Hb. cbv beta in Hb.
    pose proof Hf as (Hside & Hw & _).
    rewrite Hw, Hside in Hb.
    pose proof (cell_upd_frame _ _ _ _ Hb) as [Hf' Hr'].
    apply cell_upd_Done in Hb as (c & Hk & Hc & ->).
    split; [ | split].
    + split; [exact (same_frame_trans _ _ _ Hf Hf') | ].
      split; [simpl; exact Hr | ].
      intros n c' Hn. rewrite (lookup_with_cells_insert t _ _ c _ Hc) in Hn.
      destruct (decide (Z.to_nat (i * w_ g0 + j) = n)) as [<- | Hne].
      * injection Hn as <-. destruct (Hrel _ _ Hc) as (c0 & Hc0 & Hrel0).
        exists c0. split; [exact Hc0 | ]. right. simpl.
        destruct Hrel0 as [-> | (_ & _ & _ & Hs)]; auto.
      * exact (Hrel n c' Hn).
    + intros _ _. exists (laid_out start_pos_x start_pos_y (side_ g0) i j c).
      rewrite (lookup_with_cells_insert t _ _ c _ Hc).
      destruct (decide (Z.to_nat (i * w_ g0 + j) = Z.to_nat (i * w_ g0 + j)));
        [ | congruence].
      split; [reflexivity | ]. simpl. repeat (split; [reflexivity | ]).
      exists i, j. repeat (split; [lia | ]). reflexivity.
    + intros i' j' Hlaid Hi' Hj'.
      destruct (Hlaid Hi' Hj') as (c1 & Hc1 & Ha & Hwt & Hch & Hpos).
      rewrite (lookup_with_cells_insert t _ _ c _ Hc).
      destruct (decide (Z.to_nat (i * w_ g0 + j) = Z.to_nat (i' * w_ g0 + j')))
        as [E | Hne].
      * exists (laid_out start_pos_x start_pos_y (side_ g0) i j c).
        split; [reflexivity | ]. simpl. repeat (split; [reflexivity | ]).
        exists i, j. repeat (split; [lia | ]). split; [ | reflexivity].
        assert (0 <= i' * w_ g0 + j') by nia. lia.
      * exists c1. tauto.
Qed.
Lemma laid_at_ext sx sy (a b : CellGrand) i j t :
  w_ a = w_ b -> h_ a = h_ b -> side_ a = side_ b ->
  laid_at sx sy a i j t -> laid_at sx sy b i j t.
Proof.
  unfold laid_at, position_of. intros -> -> ->. exact id.
Qed.

(** A layout pass as a whole. *)
Lemma init_cells_effect d g g' :
  init_cells_ d g = Done g' ->
  exists window_w window_h start_pos_x start_pos_y,
    int_div_float (window_size_w d) (scale_x_ g) = Done window_w /\
    int_div_float (window_size_h d) (scale_y_ g) = Done window_h /\
    init_axis (side_ g) (w_ g) window_w = Done (start_pos_x, w_ g') /\
    init_axis (side_ g) (h_ g) window_h = Done (start_pos_y, h_ g') /\
    cell_count_ g' = w_ g' * h_ g' /\ cell_count_ g' <= MAX_CELL_COUNT /\
    side_ g' = side_ g /\ scale_x_ g' = scale_x_ g /\ scale_y_ g' = scale_y_ g /\
    ready_ g' = ready_ g /\ start_ g' = start_ g /\
    length (cells_ g') = length (cells_ g) /\
    (forall n c', cells_ g' !! n = Some c' ->
                  exists c, cells_ g !! n = Some c /\ relaid c c') /\
    (forall i j, 0 <= i < w_ g' -> 0 <= j < h_ g' ->
                 laid_at start_pos_x start_pos_y g' i j g').
Proof.
  intros H.
  apply init_cells_Done in H as (ww & wh & sx & w' & sy & h' & Hww & Hwh & Hx & Hy & Hcap & Hloop).
  apply (layout_loop sx sy (with_grid w' h' (w' * h') g)) in Hloop
    as ((Hf & Hr & Hrel) & Hlaid).
  destruct Hf as (Hside & Hw & Hh & Hcnt & Hsx & Hsy & Hst & Hlen).
  simpl in *.
  exists ww, wh, sx, sy. rewrite Hw, Hh, Hcnt.
  repeat (split; [assumption || reflexivity | ]).
  intros i j Hi Hj.
  apply (laid_at_ext sx sy (with_grid w' h' (w' * h') g) g'); simpl; auto.
Qed.

Lemma update_Done d g g' :
  update_ d g = Done g' ->
  g' = g \/ init_cells_ d (with_scale (render_scale_x d) (render_scale_y d) g) = Done g'.
Proof.
  unfold update_. intros H.
  destruct (Qltb (Qabs (scale_x_ g - render_scale_x d)) float_epsilon
            && Qltb (Qabs (scale_y_ g - render_scale_y d)) float_epsilon).
  - left. now injection H.
  - now right.
Qed.

Lemma update_keeps_mode d g g' :
  update_ d g = Done g' ->
  start_ g' = start_ g /\ ready_ g' = ready_ g /\ side_ g' = side_ g.
Proof.
  intros H. apply update_Done in H as [-> | H]; [tauto | ].
  apply init_cells_effect in H
    as (ww & wh & sx & sy & _ & _ & _ & _ & _ & _ & Hs & _ & _ & Hr & Hst & _).
  simpl in *. tauto.
Qed.

(** * The step, cell by cell *)

Lemma Random_get_range (raw : Z) : -1 <= Random_get (-1) 1 raw <= 1.
Proof.
  unfold Random_get. pose proof (Z.mod_pos_bound raw (1 - -1 + 1)). lia.
Qed.

Lemma count_reads_state g rs : forall n around,
  count_reads g n rs = Done around -> n <= around.
Proof.
  induction rs as [| r rs IH]; intros n around H; simpl in H.
  - injection H as <-. lia.
  - apply run_bind_Done in H as (m & Hm & H). apply IH in H.
    unfold count_read in Hm. destruct (fst r).
    + apply run_bind_Done in Hm as (c & _ & Hm). injection Hm as <-.
      destruct (get_active_state c); lia.
    + injection Hm as <-. lia.
Qed.

(** What lines 172-201 make of the cell they visit. *)
Lemma ai_cell_effect mt i j f f' :
  ai_cell mt i j f = Done f' ->
  same_frame (this f) (this f') /\
  exists c c',
    0 <= i * w_ (this f) + j < MAX_CELL_COUNT /\
    cells_ (this f) !! Z.to_nat (i * w_ (this f) + j) = Some c /\
    cells_ (this f') = <[Z.to_nat (i * w_ (this f) + j) := c']> (cells_ (this f)) /\
    is_active_ c' = is_active_ c /\
    wait_for_select_ c' = wait_for_select_ c /\
    shape_ c' = shape_ c /\
    jitter_ok (shake_ c') /\
    (shake_ c' = mkShake 0 0 \/ (start_ (this f) = false /\ is_active_ c = true)) /\
    (start_ (this f) = false ->
     active_change c' = active_change c /\ ready_ (this f') = ready_ (this f)) /\
    (active_change c = true -> active_change c' = true).
Proof.
  unfold ai_cell. destruct f as [g around0 n0]. simpl. intros H.
  apply run_bind_Done in H as (c & Hat & H). apply cell_at_Done in Hat as [Hk Hc].
  apply run_bind_Done in H as ([g1 n1] & Hshake & H).
  assert (exists s, g1 = with_cells (<[Z.to_nat (i * w_ g + j) := set_shake s c]> (cells_ g)) g
                    /\ jitter_ok s
                    /\ (s = mkShake 0 0 \/ (start_ g = false /\ is_active_ c = true)))
    as (s & -> & Hs & Hs0).
  { destruct (negb (start_ g) && get_active_state c) eqn:E;
      apply run_bind_Done in Hshake as (g2 & Hup & Hshake);
      apply cell_upd_Done in Hup as (c0 & _ & Hc0 & ->);
      assert (c0 = c) as -> by congruence;
      injection Hshake as <- _; eexists; (split; [reflexivity | ]).
    - apply andb_true_iff in E as [E1 E2]. apply negb_true_iff in E1.
      split; [split; apply Random_get_range | right; tauto].
    - split; [unfold jitter_ok; simpl; lia | now left]. }
  assert (Hlen : (Z.to_nat (i * w_ g + j) < length (cells_ g))%nat)
    by (now apply lookup_lt_Some in Hc).
  simpl in H. destruct (start_ g) eqn:Est.
  - apply run_bind_Done in H as (around & _ & H).
    apply run_bind_Done in H as (c1 & Hat1 & H).
    apply cell_at_Done in Hat1 as [_ Hc1]. simpl in Hc1.
    rewrite list_lookup_insert_eq in Hc1 by exact Hlen. injection Hc1 as <-.
    assert (this f' = with_cells (<[Z.to_nat (i * w_ g + j) := set_shake s c]> (cells_ g)) g
            \/ exists r, this f' = with_ready r
                 (with_cells (<[Z.to_nat (i * w_ g + j) :=
                                  set_active_change true (set_shake s c)]> (cells_ g)) g))
      as Hf'.
    { simpl in H.
      destruct (negb (is_active_ c));
        match type of H with (if ?b then _ else _) = _ => destruct b end;
        try (injection H as <-; now left);
        apply run_bind_Done in H as (g2 & Hup & H);
        apply cell_upd_Done in Hup as (c2 & _ & Hc2 & ->);
        simpl in Hc2; rewrite list_lookup_insert_eq in Hc2 by exact Hlen;
        injection Hc2 as <-; injection H as <-; right; eexists; simpl;
        rewrite list_insert_insert_eq; reflexivity. }
    destruct Hf' as [-> | (r & ->)].
    + split; [unfold same_frame; simpl; rewrite length_insert; tauto | ].
      exists c, (set_shake s c). simpl.
      do 6 (split; [assumption || reflexivity | ]).
      split; [exact Hs | ]. split; [exact Hs0 | ].
      split; [intros; discriminate | exact id].
    + split; [unfold same_frame; simpl; rewrite length_insert; tauto | ].
      exists c, (set_active_change true (set_shake s c)). simpl.
      do 6 (split; [assumption || reflexivity | ]).
      split; [exact Hs | ]. split; [exact Hs0 | ].
      split; [intros; discriminate | reflexivity].
  - injection H as <-. simpl.
    split; [unfold same_frame; simpl; rewrite length_insert; tauto | ].
    exists c, (set_shake s c). simpl.
    do 6 (split; [assumption || reflexivity | ]).
    split; [exact Hs | ]. split; [exact Hs0 | ].
    split; [intros _; split; reflexivity | exact id].
Qed.

(** [check_around] is handed from cell to cell and never decreases:
    while Running each cell adds its own count to it, while Editing it
    is left alone. *)
Lemma ai_cell_check_around mt i j f f' :
  ai_cell mt i j f = Done f' ->
  check_around f <= check_around f' /\
  (start_ (this f) = false -> check_around f' = check_around f).
Proof.
  unfold ai_cell. destruct f as [g around0 n0]. cbn [this check_around drawn].
  intros H.
  apply run_bind_Done in H as (c & _ & H).
  apply run_bind_Done in H as ([g1 n1] & Hshake & H).
  assert (start_ g1 = start_ g) as Hs.
  { destruct (negb (start_ g) && get_active_state c);
      apply run_bind_Done in Hshake as (g2 & Hup & Hshake);
      apply cell_upd_frame in Hup as [(_ & _ & _ & _ & _ & _ & Hs & _) _];
      injection Hshake as <- _; exact Hs. }
  cbv beta iota in H. rewrite Hs in H. destruct (start_ g).
  - apply run_bind_Done in H as (around & Hcount & H).
    apply count_reads_state in Hcount.
    apply run_bind_Done in H as (c1 & _ & H).
    assert (check_around f' = around) as ->.
    { destruct (negb (get_active_state c1));
        match type of H with (if ?b then _ else _) = _ => destruct b end;
        try (apply run_bind_Done in H as (g2 & _ & H));
        injection H as <-; reflexivity. }
    split; [exact Hcount | discriminate].
  - injection H as <-. simpl. split; [lia | reflexivity].
Qed.

Lemma evaluation_loop mt g f0 f' :
  this f0 = g ->
  for_lt (w_ g) (fun i f => for_lt (h_ (this f)) (fun j f => ai_cell mt i j f) f) f0
  = Done f' ->
  evaluation_keeps g f' /\
  forall i j, 0 <= i < w_ g -> 0 <= j < h_ g -> visited g i j f'.
Proof.
  intros Hf0 Hrun.
  eapply for_grid_inv
    with (body := ai_cell mt) (B := evaluation_keeps g) (P := visited g) (h := h_ g);
    [ | | | exact Hrun].
  - unfold evaluation_keeps. rewrite Hf0.
    split; [apply same_frame_refl | ]. split; [reflexivity | ].
    split; [ | reflexivity].
    intros n c' Hn. exists c'. split; [exact Hn | ].
    unfold evaluated. tauto.
  - intros t (Hf & _). unfold same_frame in Hf. tauto.
  - intros i j t t' Hi Hj (Hf & Hr & Hrel & Hout) Hb.
    apply ai_cell_effect in Hb
      as (Hf' & c & c' & Hk & Hc & Hcs & Ha & Hwt & Hsh & Hjit & Hz & Hed & _).
    pose proof Hf as (_ & Hw & _ & _ & _ & _ & Hst & _).
    rewrite Hw in *. rewrite Hst in *.
    assert (Hlen : (Z.to_nat (i * w_ g + j) < length (cells_ (this t)))%nat)
      by (now apply lookup_lt_Some in Hc).
    split; [ | split].
    + split; [exact (same_frame_trans _ _ _ Hf Hf') | ]. split; [ | split].
      * intros E. destruct (Hed E) as [_ ->]. auto.
      * intros n c1 Hn. rewrite Hcs in Hn.
        destruct (decide (Z.to_nat (i * w_ g + j) = n)) as [<- | Hne].
        -- rewrite list_lookup_insert_eq in Hn by exact Hlen. injection Hn as <-.
           destruct (Hrel _ _ Hc) as (c0 & Hc0 & E1 & E2 & E3 & E4).
           exists c0. split; [exact Hc0 | ]. unfold evaluated.
           rewrite Ha, Hwt, Hsh. repeat (split; [assumption | ]).
           intros E. destruct (Hed E) as [-> _]. auto.
        -- rewrite list_lookup_insert_ne in Hn by exact Hne. exact (Hrel n c1 Hn).
      * intros n Hn. rewrite Hcs, list_lookup_insert_ne; [exact (Hout n Hn) | ].
        intros <-. apply Hn. exists i, j. tauto.
    + intros _ _. exists c'. rewrite Hcs, list_lookup_insert_eq by exact Hlen.
      split; [reflexivity | ]. split; [exact Hjit | ].
      destruct Hz as [Hz | [Hz1 Hz2]]; [now left | right].
      split; [exact Hz1 | congruence].
    + intros i' j' Hvis Hi' Hj'. destruct (Hvis Hi' Hj') as (c1 & Hc1 & Hset).
      rewrite Hcs.
      destruct (decide (Z.to_nat (i * w_ g + j) = Z.to_nat (i' * w_ g + j')))
        as [E | Hne].
      * rewrite <- E, list_lookup_insert_eq by exact Hlen.
        exists c'. split; [reflexivity | ]. split; [exact Hjit | ].
        destruct Hz as [Hz | [Hz1 Hz2]]; [now left | right].
        split; [exact Hz1 | congruence].
      * rewrite list_lookup_insert_ne by exact Hne. exists c1. tauto.
Qed.
Lemma ai_evaluate_effect mt g g' :
  ai_evaluate mt g = Done g' ->
  same_frame g g' /\
  (start_ g = false -> ready_ g' = ready_ g) /\
  (forall n c', cells_ g' !! n = Some c' ->
                exists c, cells_ g !! n = Some c /\ evaluated (start_ g) c c') /\
  (forall i j, 0 <= i < w_ g -> 0 <= j < h_ g ->
               exists c, cells_ g' !! Z.to_nat (i * w_ g + j) = Some c /\
                         jitter_settled (start_ g) c) /\
  (forall n, ~ grid_index g n -> cells_ g' !! n = cells_ g !! n).
Proof.
  unfold ai_evaluate. intros H.
  apply run_bind_Done in H as (f & Hloop & H). injection H as <-.
  apply (evaluation_loop mt g) in Hloop as ((Hf & Hr & Hrel & Hout) & Hvis);
    [ | reflexivity].
  repeat (split; [assumption | ]). split; [ | exact Hout].
  intros i j Hi Hj. apply Hvis; lia.
Qed.

(** * The commit pass *)

Lemma ai_commit_cell_effect i g g' :
  ai_commit_cell i g = Done g' ->
  same_frame g g' /\ ready_ g' = ready_ g /\
  exists c, cells_ g !! Z.to_nat i = Some c /\
            cells_ g' = <[Z.to_nat i := committed c]> (cells_ g).
Proof.
  unfold ai_commit_cell. intros H.
  apply run_bind_Done in H as (c & Hat & H). apply cell_at_Done in Hat as [Hi Hc].
  assert (Hlen : (Z.to_nat i < length (cells_ g))%nat) by (now apply lookup_lt_Some in Hc).
  destruct (get_active_change c) eqn:E; unfold committed.
  - apply run_bind_Done in H as (g1 & Hup & H).
    apply cell_upd_Done in Hup as (c0 & _ & Hc0 & ->).
    assert (c0 = c) as -> by congruence.
    apply cell_upd_Done in H as (c1 & _ & Hc1 & ->).
    simpl in Hc1. rewrite list_lookup_insert_eq in Hc1 by exact Hlen.
    injection Hc1 as <-. simpl. rewrite list_insert_insert_eq.
    split; [unfold same_frame; simpl; rewrite length_insert; tauto | ].
    split; [reflexivity | ]. exists c. rewrite E. split; [exact Hc | reflexivity].
  - injection H as <-.
    split; [apply same_frame_refl | ]. split; [reflexivity | ].
    exists c. rewrite E. split; [exact Hc | ]. symmetry. now apply list_insert_id.
Qed.

Lemma ai_commit_effect g g' :
  ai_commit g = Done g' ->
  same_frame g g' /\ ready_ g' = ready_ g /\
  forall n : nat,
    cells_ g' !! n =
    if decide (Z.of_nat n < cell_count_ g)
    then committed <$> cells_ g !! n else cells_ g !! n.
Proof.
  unfold ai_commit. intros Hrun.
  pose (Inv := fun (i : Z) (t : CellGrand) =>
    same_frame g t /\ ready_ t = ready_ g /\
    forall n : nat,
      cells_ t !! n =
      if decide (Z.of_nat n < i) then committed <$> cells_ g !! n else cells_ g !! n).
  assert (Inv (Z.max 0 (cell_count_ g)) g') as (Hf & Hr & Hc).
  { eapply for_lt_inv with (Inv := Inv); [ | | exact Hrun].
    - split; [apply same_frame_refl | ]. split; [reflexivity | ].
      intros n. destruct (decide (Z.of_nat n < 0)); [lia | reflexivity].
    - intros j t t' Hj (Hf & Hr & Hc) Hbody.
      apply ai_commit_cell_effect in Hbody as (Hf' & Hr' & c & Hjc & Hcs).
      split; [exact (same_frame_trans _ _ _ Hf Hf') | ]. split; [congruence | ].
      intros n. rewrite Hcs.
      assert (cells_ g !! Z.to_nat j = Some c) as Hg.
      { rewrite <- Hjc, Hc. destruct (decide (Z.of_nat (Z.to_nat j) < j)); [lia | reflexivity]. }
      destruct (decide (Z.to_nat j = n)) as [<- | Hne].
      + rewrite list_lookup_insert_eq by (now apply lookup_lt_Some in Hjc).
        destruct (decide (Z.of_nat (Z.to_nat j) < j + 1)); [ | lia].
        now rewrite Hg.
      + rewrite list_lookup_insert_ne by exact Hne. rewrite Hc.
        destruct (decide (Z.of_nat n < j)), (decide (Z.of_nat n < j + 1));
          try reflexivity; lia. }
  split; [exact Hf | ]. split; [exact Hr | ].
  intros n. rewrite Hc.
  destruct (decide (Z.of_nat n < Z.max 0 (cell_count_ g))),
           (decide (Z.of_nat n < cell_count_ g)); try reflexivity; lia.
Qed.

Lemma ai_Done mt g g' :
  ai_ mt g = Done g' ->
  exists g1, ai_evaluate mt g = Done g1 /\ ai_commit g1 = Done g'.
Proof. unfold ai_. intros H. now apply run_bind_Done in H. Qed.

Lemma ai_keeps_mode mt g g' :
  ai_ mt g = Done g' -> same_frame g g'.
Proof.
  intros H. apply ai_Done in H as (g1 & He & Hc).
  apply ai_evaluate_effect in He as (Hf1 & _).
  apply ai_commit_effect in Hc as (Hf2 & _).
  exact (same_frame_trans _ _ _ Hf1 Hf2).
Qed.

Lemma play_Done d mt g g' out b :
  play d mt g = Done (g', out, b) ->
  exists g1, update_ d g = Done g1 /\ ai_ mt g1 = Done g' /\
             draw_cells_ g' = Done out /\ b = start_ g'.
Proof.
  unfold play. intros H.
  apply run_bind_Done in H as (g1 & Hu & H).
  apply run_bind_Done in H as (g2 & Ha & H).
  apply run_bind_Done in H as (o & Hd & H).
  injection H as -> -> <-. exists g1. tauto.
Qed.

Lemma play_keeps_mode d mt g g' out b :
  play d mt g = Done (g', out, b) -> start_ g' = start_ g.
Proof.
  intros H. apply play_Done in H as (g1 & Hu & Ha & _).
  apply update_keeps_mode in Hu as (Hs & _).
  apply ai_keeps_mode in Ha as (_ & _ & _ & _ & _ & _ & Hs' & _).
  congruence.
Qed.

(** * The input handler as a whole *)

Lemma fresh_cells_length garbage :
  length (fresh_cells garbage) = Z.to_nat MAX_CELL_COUNT.
Proof.
  unfold fresh_cells. generalize (Z.to_nat MAX_CELL_COUNT). intros m.
  now rewrite length_fmap, length_seq.
Qed.

Lemma fresh_cells_lookup garbage n c :
  fresh_cells garbage !! n = Some c -> c = Cell_default (garbage n).
Proof.
  unfold fresh_cells. generalize (Z.to_nat MAX_CELL_COUNT). intros m H.
  rewrite list_lookup_fmap in H.
  destruct (seq 0 m !! n) as [k |] eqn:E; [ | discriminate].
  apply lookup_seq in E as [-> _]. simpl in H. now injection H as <-.
Qed.

Lemma CellGrand_new_Done d garbage side w h g :
  CellGrand_new d garbage side w h = Done g ->
  3 <= side /\
  init_cells_ d (mkCellGrand side w h (fresh_cells garbage) 0
                             (render_scale_x d) (render_scale_y d) 0 false) = Done g.
Proof.
  unfold CellGrand_new, check_valid, assert. intros H.
  destruct (3 <=? side) eqn:E; [ | discriminate]. simpl in H. split; [lia | exact H].
Qed.

(** A constructed object: nothing active, nothing pending, no jitter,
    Editing, [ready_] zero. *)
Lemma CellGrand_new_effect d garbage side w h g :
  CellGrand_new d garbage side w h = Done g ->
  well_formed g /\ 3 <= side_ g /\ start_ g = false /\ ready_ g = 0 /\
  forall n c, cells_ g !! n = Some c ->
              is_active_ c = false /\ active_change c = false /\
              wait_for_select_ c = false /\ shake_ c = mkShake 0 0.
Proof.
  intros H. apply CellGrand_new_Done in H as [Hside H].
  pose proof (fresh_cells_length garbage) as Hfl.
  pose proof (fresh_cells_lookup garbage) as Hfc.
  revert H Hfl Hfc. generalize (fresh_cells garbage). intros cs H Hfl Hfc.
  apply init_cells_effect in H
    as (ww & wh & sx & sy & _ & _ & _ & _ & _ & Hcap & Hs & _ & _ & Hr & Hst & Hlen & Hrel & _).
  cbn [cells_ side_ ready_ start_] in *. rewrite Hfl in Hlen.
  split; [split; assumption | ]. split; [lia | ]. split; [exact Hst | ].
  split; [exact Hr | ].
  intros n c Hn. destruct (Hrel n c Hn) as (c0 & Hc0 & Hre).
  apply Hfc in Hc0 as ->.
  destruct Hre as [-> | (Ha & Hw & Hc & Hsh)]; simpl in *; auto.
Qed.

Lemma handle_input_cell_total mouse_x mouse_y event i g :
  0 <= i < MAX_CELL_COUNT ->
  length (cells_ g) = Z.to_nat MAX_CELL_COUNT ->
  exists g', handle_input_cell mouse_x mouse_y event i g = Done g'.
Proof.
  intros Hi Hlen.
  destruct (lookup_lt_is_Some_2 (cells_ g) (Z.to_nat i)) as [c Hc]; [lia | ].
  unfold handle_input_cell, cell_upd.
  rewrite (cell_at_lookup i g c Hi Hc). simpl.
  set (c1 := set_wait_state _ c).
  assert (Hc1 : <[Z.to_nat i := c1]> (cells_ g) !! Z.to_nat i = Some c1)
    by (apply list_lookup_insert_eq; lia).
  rewrite (cell_at_lookup i (with_cells _ g) c1 Hi Hc1). simpl.
  repeat match goal with
         | |- context [if ?b then _ else _] => destruct b; simpl
         end; eauto.
Qed.

(** [handle_input] has a result on every well-formed object. *)
Lemma handle_input_total mouse event g :
  well_formed g ->
  exists g', handle_input mouse event g = Done g' /\ well_formed g'.
Proof.
  intros [Hcap Hlen]. unfold handle_input.
  destruct (for_lt_total
              (handle_input_cell (fst mouse / scale_x_ g)%Q (snd mouse / scale_y_ g)%Q event)
              (fun _ t => same_frame g t) (cell_count_ g) g) as (g1 & Hrun & Hf).
  - apply same_frame_refl.
  - intros j t Hj Hf.
    destruct (handle_input_cell_total (fst mouse / scale_x_ g)%Q
                (snd mouse / scale_y_ g)%Q event j t) as [t' Ht'].
    + lia.
    + destruct Hf as (_ & _ & _ & _ & _ & _ & _ & Hl). congruence.
    + exists t'. split; [exact Ht' | ].
      apply handle_input_cell_effect in Ht' as (_ & _ & _ & _ & _ & Hf').
      exact (same_frame_trans _ _ _ Hf Hf').
  - rewrite Hrun. simpl. eexists. split; [reflexivity | ].
    destruct Hf as (_ & _ & _ & Hc & _ & _ & _ & Hl).
    unfold well_formed.
    destruct ((0 <? ready_ g1) && return_key_down event); simpl;
      match goal with |- context [if ?b then _ else _] => destruct b end;
      simpl; split; congruence.
Qed.

Lemma handle_input_effect mouse event g g' :
  handle_input mouse event g = Done g' ->
  exists g1,
    g' = after_keys event g1 /\ same_frame g g1 /\
    (forall n : nat,
        cells_ g' !! n =
        if decide (Z.of_nat n < cell_count_ g)
        then cell_after_input (fst mouse / scale_x_ g)%Q (snd mouse / scale_y_ g)%Q
                              event g <$> cells_ g !! n
        else cells_ g !! n) /\
    ready_ g1 - count_active (cells_ g') = ready_ g - count_active (cells_ g).
Proof.
  intros H. apply handle_input_Done in H as (g1 & Hloop & ->).
  apply handle_input_loop in Hloop as (Hf & Hc & Hr).
  exists g1. rewrite after_keys_cells. tauto.
Qed.

Lemma cell_after_input_running mouse_x mouse_y event g c :
  start_ g = true ->
  is_active_ (cell_after_input mouse_x mouse_y event g c) = is_active_ c.
Proof.
  intros E. unfold cell_after_input, cell_toggles. now rewrite E.
Qed.

Lemma cell_after_input_not_left mouse_x mouse_y event g c :
  left_button_down event = false ->
  is_active_ (cell_after_input mouse_x mouse_y event g c) = is_active_ c.
Proof.
  intros E. unfold cell_after_input, cell_toggles. rewrite E.
  now rewrite andb_false_r.
Qed.

Lemma cell_after_input_pending mouse_x mouse_y event g c :
  active_change (cell_after_input mouse_x mouse_y event g c) = active_change c
  /\ shake_ (cell_after_input mouse_x mouse_y event g c) = shake_ c.
Proof.
  unfold cell_after_input. now destruct (cell_toggles mouse_x mouse_y event g c).
Qed.

(** Where no cell toggles, no active flag changes. *)
Lemma handle_input_same_active mouse event g g' :
  handle_input mouse event g = Done g' ->
  start_ g = true \/ left_button_down event = false ->
  same_active g g'.
Proof.
  intros H Hno. apply handle_input_effect in H as (g1 & _ & _ & Hc & _).
  intros n. rewrite Hc.
  destruct (decide (Z.of_nat n < cell_count_ g)); [ | reflexivity].
  destruct (cells_ g !! n) as [c |]; [ | reflexivity]. simpl. f_equal.
  destruct Hno as [E | E];
    [now apply cell_after_input_running | now apply cell_after_input_not_left].
Qed.

Lemma after_keys_editing event g :
  start_ g = false -> return_key_down event = false \/ ready_ g = 0 ->
  after_keys event g = g.
Proof.
  intros Hs Hno. unfold after_keys.
  assert ((0 <? ready_ g) && return_key_down event = false) as ->.
  { destruct Hno as [-> | ->]; [apply andb_false_r | reflexivity]. }
  now rewrite Hs.
Qed.

Lemma after_keys_ready_zero event g :
  ready_ g = 0 ->
  start_ (after_keys event g) = false /\ ready_ (after_keys event g) = 0.
Proof.
  intros Hr. unfold after_keys. rewrite Hr. simpl.
  destruct (start_ g) eqn:Hs; simpl; rewrite ?Hr, ?Hs; simpl; auto.
Qed.

Lemma left_button_not_return event :
  left_button_down event = true -> return_key_down event = false.
Proof. destruct event as [[] | [] | ]; simpl; congruence. Qed.

Lemma count_active_flags (cs : list Cell) :
  forall cs', is_active_ <$> cs = is_active_ <$> cs' ->
              count_active cs = count_active cs'.
Proof.
  induction cs as [| c cs IH]; intros [| c' cs'] H; simpl in *; try discriminate.
  - reflexivity.
  - injection H as -> H. now rewrite (IH cs' H).
Qed.

Lemma count_active_same g g' :
  same_active g g' -> count_active (cells_ g') = count_active (cells_ g).
Proof.
  intros H. apply count_active_flags, list_eq. intros n.
  rewrite !list_lookup_fmap. apply H.
Qed.

(** The accounting invariant of Editing. *)
Lemma handle_input_left_press mouse event g g' :
  start_ g = false -> left_button_down event = true ->
  handle_input mouse event g = Done g' ->
  start_ g' = false /\
  ready_ g' - count_active (cells_ g') = ready_ g - count_active (cells_ g).
Proof.
  intros Hs Hl H. apply handle_input_effect in H as (g1 & -> & Hf & _ & Hr).
  assert (start_ g1 = false) as Hs1
    by (destruct Hf as (_ & _ & _ & _ & _ & _ & -> & _); exact Hs).
  rewrite after_keys_editing in * by (auto using left_button_not_return).
  split; [exact Hs1 | exact Hr].
Qed.

Lemma handle_inputs_left_presses events :
  forall g,
    well_formed g -> start_ g = false -> ready_ g = count_active (cells_ g) ->
    left_presses events ->
    exists g', handle_inputs events g = Done g' /\ well_formed g' /\
               start_ g' = false /\ ready_ g' = count_active (cells_ g').
Proof.
  induction events as [| [mouse event] events IH]; intros g Hwf Hs Hr Hall.
  - exists g. simpl. tauto.
  - inversion Hall as [| e es Hl Hrest]; subst. simpl in Hl.
    destruct (handle_input_total mouse event g Hwf) as (g1 & H1 & Hwf1).
    destruct (handle_input_left_press mouse event g g1 Hs Hl H1) as [Hs1 Hr1].
    destruct (IH g1 Hwf1 Hs1 ltac:(lia) Hrest) as (g' & Hrun & Hg').
    exists g'. simpl. rewrite H1. simpl. tauto.
Qed.

Lemma done_result (r : Run CellGrand) :
  is_done r = true -> r = Done (result_of r).
Proof. destruct r; simpl; congruence. Qed.

Lemma run_done {A : Type} (r : Run A) : is_done r = true -> exists a, r = Done a.
Proof. destruct r as [a | |]; simpl; [eauto | discriminate | discriminate]. Qed.

(** * Jitter *)

Lemma committed_pending c : active_change (committed c) = false.
Proof.
  unfold committed, get_active_change. now destruct (active_change c) eqn:E.
Qed.

Lemma committed_shake c : shake_ (committed c) = shake_ c.
Proof. unfold committed. now destruct (get_active_change c). Qed.

Lemma committed_settled c : active_change c = false -> committed c = c.
Proof. unfold committed, get_active_change. now intros ->. Qed.

Lemma after_keys_grid event g :
  w_ (after_keys event g) = w_ g /\ h_ (after_keys event g) = h_ g /\
  cell_count_ (after_keys event g) = cell_count_ g.
Proof.
  unfold after_keys.
  destruct ((0 <? ready_ g) && return_key_down event); simpl;
    match goal with |- context [if ?b then _ else _] => destruct b end;
    simpl; tauto.
Qed.

Lemma init_cells_pending_clear d g g' :
  init_cells_ d g = Done g' -> grid_pending_clear g'.
Proof.
  intros H. apply init_cells_effect in H
    as (ww & wh & sx & sy & _ & _ & _ & _ & _ & _ & _ & _ & _ & _ & _ & _ & _ & Hlaid).
  intros i j c Hi Hj _ Hc.
  destruct (Hlaid i j Hi Hj) as (c' & Hc' & _ & _ & Hp & _); [lia | lia | ].
  congruence.
Qed.

Lemma handle_input_pending_clear mouse event g g' :
  grid_pending_clear g -> handle_input mouse event g = Done g' ->
  grid_pending_clear g'.
Proof.
  intros Hclear H.
  apply handle_input_effect in H as (g1 & -> & Hf & Hcs & _).
  destruct (after_keys_grid event g1) as (Hw & Hh & Hn).
  destruct Hf as (_ & Hw1 & Hh1 & Hn1 & _).
  intros i j c. rewrite Hw, Hh, Hn, Hw1, Hh1, Hn1. intros Hi Hj Hlt Hc.
  rewrite Hcs in Hc.
  destruct (decide (Z.of_nat (Z.to_nat (i * w_ g + j)) < cell_count_ g)).
  - destruct (cells_ g !! Z.to_nat (i * w_ g + j)) as [c0 |] eqn:E; [ | discriminate].
    simpl in Hc. injection Hc as <-.
    destruct (cell_after_input_pending (fst mouse / scale_x_ g)%Q
                (snd mouse / scale_y_ g)%Q event g c0) as [-> _].
    exact (Hclear i j c0 Hi Hj Hlt E).
  - exact (Hclear i j c Hi Hj Hlt Hc).
Qed.

Lemma ai_pending_clear mt g g' :
  ai_ mt g = Done g' -> grid_pending_clear g'.
Proof.
  intros H. apply ai_Done in H as (g1 & _ & Hc).
  apply ai_commit_effect in Hc as ((_ & Hw & _ & Hn & _) & _ & Hcs).
  intros i j c. rewrite Hw, Hn. intros Hi Hj Hlt Hc.
  rewrite Hcs in Hc.
  destruct (decide (Z.of_nat (Z.to_nat (i * w_ g1 + j)) < cell_count_ g1)) as [_ | Hge].
  - destruct (cells_ g1 !! Z.to_nat (i * w_ g1 + j)) as [c0 |]; [ | discriminate].
    simpl in Hc. injection Hc as <-. apply committed_pending.
  - exfalso. apply Hge. assert (0 <= i * w_ g1 + j) by nia. lia.
Qed.

Lemma reachable_pending_clear g : reachable g -> grid_pending_clear g.
Proof.
  induction 1 as [d garbage side w h g H | mouse event g g' _ IH H
                  | d mt g g' out b _ IH H].
  - apply CellGrand_new_Done in H as [_ H].
    exact (init_cells_pending_clear _ _ _ H).
  - exact (handle_input_pending_clear _ _ _ _ IH H).
  - apply play_Done in H as (g1 & _ & H & _).
    exact (ai_pending_clear _ _ _ H).
Qed.

Lemma reachable_inputs events :
  forall g g', reachable g -> handle_inputs events g = Done g' -> reachable g'.
Proof.
  induction events as [| [mouse event] events IH]; intros g g' Hg H; simpl in H.
  - now injection H as <-.
  - apply run_bind_Done in H as (g1 & H1 & H).
    exact (IH g1 g' (reachable_input _ _ _ _ Hg H1) H).
Qed.

Lemma update_pending_clear d g g' :
  grid_pending_clear g -> update_ d g = Done g' -> grid_pending_clear g'.
Proof.
  intros Hclear H. apply update_Done in H as [-> | H]; [exact Hclear | ].
  exact (init_cells_pending_clear _ _ _ H).
Qed.

(** The step leaves the jitter contained wherever the commit pass has
    no stale pending flag to apply. *)
Lemma ai_jitter_contained mt g g' :
  grid_pending_clear g -> ai_ mt g = Done g' -> jitter_contained g'.
Proof.
  intros Hclear H. apply ai_Done in H as (g1 & He & Hc).
  apply ai_evaluate_effect in He as (Hf1 & _ & Hrel & Hvis & _).
  apply ai_commit_effect in Hc as (Hf2 & _ & Hcs).
  destruct Hf1 as (_ & Hw1 & Hh1 & Hn1 & _ & _ & Hs1 & _).
  destruct Hf2 as (_ & Hw2 & Hh2 & Hn2 & _ & _ & Hs2 & _).
  intros i j. rewrite Hw2, Hh2, Hw1, Hh1. intros Hi Hj.
  destruct (Hvis i j Hi Hj) as (c1 & Hc1 & Hok & Hz).
  destruct (Hrel _ _ Hc1) as (c0 & Hc0 & _ & _ & _ & Hp).
  assert (exists c, cells_ g' !! Z.to_nat (i * w_ g + j) = Some c /\
                    shake_ c = shake_ c1 /\
                    (start_ g = false -> is_active_ c = is_active_ c1))
    as (c & Hc & Hsh & Hact).
  { rewrite Hcs, Hc1.
    destruct (decide (Z.of_nat (Z.to_nat (i * w_ g + j)) < cell_count_ g1)) as [Hlt | _].
    - exists (committed c1). split; [reflexivity | ].
      split; [apply committed_shake | ]. intros Es.
      rewrite committed_settled; [reflexivity | ].
      rewrite (Hp Es). apply (Hclear i j c0 Hi Hj); [ | exact Hc0].
      rewrite Hn1 in Hlt. assert (0 <= i * w_ g + j) by nia. lia.
    - exists c1. auto. }
  exists c. split; [exact Hc | ]. unfold cell_contained. rewrite Hs2, Hs1, Hsh.
  split; [ | split; [ | split; [ | exact Hok]]].
  - intros Es. destruct Hz as [Hz | [Hz _]]; [exact Hz | congruence].
  - intros Es Ha. destruct Hz as [Hz | [_ Hz]]; [exact Hz | ].
    rewrite (Hact Es) in Ha. congruence.
  - intros Hne. destruct Hz as [Hz | [Hz1 Hz2]]; [contradiction | ].
    split; [exact Hz1 | ]. now rewrite (Hact Hz1).
Qed.

Lemma reachable_cell_count g : reachable g -> cell_count_ g = w_ g * h_ g.
Proof.
  induction 1 as [d garbage side w h g H | mouse event g g' _ IH H
                  | d mt g g' out b _ IH H].
  - apply CellGrand_new_Done in H as [_ H].
    apply init_cells_effect in H as (ww & wh & sx & sy & _ & _ & _ & _ & Hn & _).
    exact Hn.
  - apply handle_input_effect in H as (g1 & -> & Hf & _).
    destruct (after_keys_grid event g1) as (-> & -> & ->).
    destruct Hf as (_ & -> & -> & -> & _). exact IH.
  - apply play_Done in H as (g1 & Hu & Ha & _).
    apply ai_keeps_mode in Ha as (_ & -> & -> & -> & _).
    apply update_Done in Hu as [-> | Hu]; [exact IH | ].
    apply init_cells_effect in Hu as (ww & wh & sx & sy & _ & _ & _ & _ & Hn & _).
    exact Hn.
Qed.

(** On a square grid the two ways of addressing the cells agree. *)
Lemma jitter_contained_square g :
  cell_count_ g = w_ g * h_ g -> 0 <= w_ g /\ w_ g = h_ g ->
  jitter_contained g -> jitter_contained_linear g.
Proof.
  intros Hn [Hpos Hsq] Hcont n Hlt.
  assert (0 < w_ g) as Hw by nia.
  destruct (Hcont (Z.of_nat n / w_ g) (Z.of_nat n mod w_ g)) as (c & Hc & Hok).
  - split; [apply Z.div_pos; lia | ].
    apply Z.div_lt_upper_bound; [lia | ]. rewrite Hn, <- Hsq in Hlt. lia.
  - rewrite <- Hsq. apply Z.mod_pos_bound. lia.
  - exists c. split; [ | exact Hok].
    rewrite <- Hc. f_equal.
    rewrite (Z.mul_comm (Z.of_nat n / w_ g)), <- Z.div_mod by lia.
    now rewrite Nat2Z.id.
Qed.

(** * Layout: fit and reset *)

Lemma init_axis_fit side n window start n' :
  3 <= side ->
  init_axis side n window = Done (start, n') ->
  axis_fit side n window start n'.
Proof.
  intros Hside H. unfold init_axis, int_div in H. unfold axis_fit, footprint, margin.
  replace (2 + side =? 0) with false in H by (symmetry; apply Z.eqb_neq; lia).
  replace (side + 2 =? 0) with false in H by (symmetry; apply Z.eqb_neq; lia).
  simpl in H.
  destruct (side * n + kGap * (n - 1) >? window - (4 * kGap + 2 * side)) eqn:E;
    injection H as <- <-.
  - apply Z.gtb_lt in E. split; [lia | ]. intros _.
    split; [reflexivity | ]. split; [reflexivity | ]. intros Hw.
    rewrite Z.quot_div_nonneg by lia.
    pose proof (Z.mul_div_le (window - 2) (2 + side) ltac:(lia)) as Hle.
    pose proof (Z.mul_succ_div_gt (window - 2) (2 + side) ltac:(lia)) as Hgt.
    unfold kGap in *. split; [lia | ]. intros m Hm. nia.
  - assert (side * n + kGap * (n - 1) <= window - (4 * kGap + 2 * side)) as E'.
    { destruct (Z.le_gt_cases (side * n + kGap * (n - 1))
                              (window - (4 * kGap + 2 * side))) as [C | C]; [exact C | ].
      apply Z.gtb_lt in C. congruence. }
    split; [ | lia]. intros _.
    assert ((side * n + kGap * (n - 1) + 2) ÷ (side + 2) = n) as ->.
    { replace (side * n + kGap * (n - 1) + 2) with (n * (side + 2))
        by (unfold kGap; lia).
      apply Z.quot_mul. lia. }
    split; [reflexivity | ]. split; [reflexivity | lia].
Qed.

(** What a layout pass does reset.  After a layout pass (the
    constructor's or a re-layout's) every cell of the grid, [cells_[i * w_ + j]] for
    [(i, j)] in [0, w_) x [0, h_), is inactive, un-hovered, has no
    pending change and has the position the pass computed for a cell of
    the grid that shares its index, which is [(i, j)] itself when
    [h_ <= w_]; [ready_] and the mode are as they were before the
    pass. *)
Lemma init_cells_resets_cells d g g' :
  init_cells_ d g = Done g' ->
  ready_ g' = ready_ g /\ start_ g' = start_ g /\
  exists start_pos_x start_pos_y,
    forall i j,
      0 <= i < w_ g' -> 0 <= j < h_ g' ->
      exists c,
        cells_ g' !! Z.to_nat (i * w_ g' + j) = Some c /\
        is_active_ c = false /\ wait_for_select_ c = false /\
        active_change c = false /\
        (exists i' j',
            0 <= i' < w_ g' /\ 0 <= j' < h_ g' /\
            i' * w_ g' + j' = i * w_ g' + j /\
            shape_ c = position_of start_pos_x start_pos_y g' i' j') /\
        (h_ g' <= w_ g' -> shape_ c = position_of start_pos_x start_pos_y g' i j).
Proof.
  intros H. apply init_cells_effect in H
    as (ww & wh & sx & sy & _ & _ & _ & _ & _ & _ & _ & _ & _ & Hr & Hs & _ & _ & Hlaid).
  split; [exact Hr | ]. split; [exact Hs | ]. exists sx, sy.
  intros i j Hi Hj.
  destruct (Hlaid i j Hi Hj) as (c & Hc & Ha & Hw & Hp & i' & j' & Hi' & Hj' & E & Hsh);
    [lia | lia | ].
  exists c. repeat (split; [assumption | ]). split.
  - exists i', j'. tauto.
  - intros Hle.
    destruct (index_injective (w_ g') i' j' i j) as [-> ->]; [lia | lia | exact E | ].
    exact Hsh.
Qed.

(** * The guarded reads *)

(** The count of lines 180-187 reads every index of
    [neighbour_indices]: where it has a result, each of them is inside
    the array. *)
Lemma count_reads_indices g rs :
  forall n around,
    count_reads g n rs = Done around ->
    Forall (fun k => 0 <= k < MAX_CELL_COUNT)
           (map snd (List.filter (fun r => fst r) rs)).
Proof.
  induction rs as [| r rs IH]; intros n around H; simpl in *.
  - apply Forall_nil. exact I.
  - apply run_bind_Done in H as (m & Hm & H). apply IH in H.
    unfold count_read in Hm. destruct (fst r); [ | exact H].
    apply run_bind_Done in Hm as (c & Hc & _). apply cell_at_Done in Hc as [Hk _].
    apply Forall_cons. split; [exact Hk | exact H].
Qed.

(** The guards [i < w_] and [j < h_] of lines 182-186 hold for every
    cell of the loops: the scan of cell [(i, j)] reads index
    [(i + 1) * w_ + (j + 1)] whatever the cell. *)
Lemma neighbour_scan_reads_next_column w h i j :
  0 <= i < w -> 0 <= j < h ->
  In ((i + 1) * w + (j + 1)) (neighbour_indices w h i j).
Proof.
  intros Hi Hj. unfold neighbour_indices.
  apply in_map_iff. exists (true, (i + 1) * w + (j + 1)).
  split; [reflexivity | ]. apply filter_In. split; [ | reflexivity].
  unfold neighbour_reads.
  replace ((i <? w) && (j <? h)) with true
    by (symmetry; apply andb_true_iff; split; apply Z.ltb_lt; lia).
  simpl. tauto.
Qed.

(** For the last cell of a grid with [h_ <= w_] that index is outside
    [0, w_ * h_). *)
Lemma neighbour_scan_past_last_cell w h :
  0 < h <= w ->
  exists k, In k (neighbour_indices w h (w - 1) (h - 1)) /\ w * h <= k.
Proof.
  intros Hwh. exists ((w - 1 + 1) * w + (h - 1 + 1)).
  split; [apply neighbour_scan_reads_next_column; lia | nia].
Qed.

(** * Where the stride is harmless *)

(** In a grid with no more columns than rows every index the grid
    loops address is below [cell_count_]. *)
Lemma grid_index_below_count g n :
  w_ g <= h_ g -> cell_count_ g = w_ g * h_ g ->
  grid_index g n -> Z.of_nat n < cell_count_ g.
Proof.
  intros Hwh Hn (i & j & Hi & Hj & ->).
  rewrite Z2Nat.id by nia. nia.
Qed.

(** There the commit pass consumes every pending flag the evaluation
    pass sets: an array with no pending flag at the start of the step
    has none at its end. *)
Lemma ai_consumes_pending mt g g' :
  w_ g <= h_ g -> cell_count_ g = w_ g * h_ g ->
  pending_all_clear g -> ai_ mt g = Done g' -> pending_all_clear g'.
Proof.
  intros Hwh Hn Hclear H. apply ai_Done in H as (g1 & He & Hc).
  apply ai_evaluate_effect in He as (Hf1 & _ & _ & _ & Hout).
  apply ai_commit_effect in Hc as (_ & _ & Hcs).
  destruct Hf1 as (_ & _ & _ & Hn1 & _).
  intros n c Hc. rewrite Hcs, Hn1 in Hc.
  destruct (decide (Z.of_nat n < cell_count_ g)) as [_ | Hge].
  - destruct (cells_ g1 !! n) as [c1 |]; [ | discriminate].
    simpl in Hc. injection Hc as <-. apply committed_pending.
  - rewrite Hout in Hc; [exact (Hclear n c Hc) | ].
    intros Hgrid. apply Hge. exact (grid_index_below_count g n Hwh Hn Hgrid).
Qed.

(** * The outcomes of construction *)

Lemma cell_at_total k g :
  0 <= k < MAX_CELL_COUNT -> length (cells_ g) = Z.to_nat MAX_CELL_COUNT ->
  exists c, cell_at k g = Done c /\ cells_ g !! Z.to_nat k = Some c.
Proof.
  intros Hk Hlen.
  destruct (lookup_lt_is_Some_2 (cells_ g) (Z.to_nat k)) as [c Hc]; [lia | ].
  exists c. split; [exact (cell_at_lookup k g c Hk Hc) | exact Hc].
Qed.

Lemma cell_upd_total k f g :
  0 <= k < MAX_CELL_COUNT -> length (cells_ g) = Z.to_nat MAX_CELL_COUNT ->
  exists g', cell_upd k f g = Done g'.
Proof.
  intros Hk Hlen. destruct (cell_at_total k g Hk Hlen) as (c & Hc & _).
  unfold cell_upd. rewrite Hc. simpl. eauto.
Qed.

Lemma cell_upd_not_Abort k f g e : cell_upd k f g <> Abort e.
Proof.
  unfold cell_upd, cell_at.
  destruct ((0 <=? k) && (k <? MAX_CELL_COUNT)); [ | discriminate].
  destruct (cells_ g !! Z.to_nat k); discriminate.
Qed.

Lemma init_axis_not_Abort side n window e : init_axis side n window <> Abort e.
Proof.
  unfold init_axis, int_div.
  destruct (_ >? _); [destruct (2 + side =? 0) | destruct (side + 2 =? 0)];
    discriminate.
Qed.

Lemma int_div_float_not_Abort n s e : int_div_float n s <> Abort e.
Proof. unfold int_div_float. destruct (Qeq_bool s 0); discriminate. Qed.

(** The layout loops have a result when their stride stays inside the
    array. *)
Lemma layout_loop_total start_pos_x start_pos_y g0 :
  length (cells_ g0) = Z.to_nat MAX_CELL_COUNT ->
  stride_safe (w_ g0) (h_ g0) ->
  exists g',
    for_lt (w_ g0) (fun i t =>
      for_lt (h_ t) (fun j t =>
        cell_upd (i * w_ t + j)
                 (laid_out start_pos_x start_pos_y (side_ t) i j) t) t) g0 = Done g'.
Proof.
  intros Hlen Hsafe.
  destruct (for_grid_total
              (fun i j t =>
                 cell_upd (i * w_ t + j)
                          (laid_out start_pos_x start_pos_y (side_ t) i j) t)
              h_ (same_frame g0) (w_ g0) (h_ g0) g0) as (g' & Hrun & _).
  - apply same_frame_refl.
  - intros t Hf. unfold same_frame in Hf. tauto.
  - intros i j t Hi Hj Hf. pose proof Hf as (_ & Hw & _ & _ & _ & _ & _ & Hl).
    destruct (cell_upd_total (i * w_ t + j)
                (laid_out start_pos_x start_pos_y (side_ t) i j) t) as [t' Ht'].
    + rewrite Hw. destruct Hsafe as [Hs | [Hs | Hs]]; [lia | lia | nia].
    + congruence.
    + exists t'. split; [exact Ht' | ].
      apply cell_upd_frame in Ht' as [Hf' _].
      exact (same_frame_trans _ _ _ Hf Hf').
  - exists g'. exact Hrun.
Qed.

Lemma init_cells_total d g start_pos_x w' start_pos_y h' :
  layout_derives d g start_pos_x w' start_pos_y h' ->
  w' * h' <= MAX_CELL_COUNT -> stride_safe w' h' ->
  length (cells_ g) = Z.to_nat MAX_CELL_COUNT ->
  exists g', init_cells_ d g = Done g'.
Proof.
  intros (ww & wh & Hw & Hh & Hx & Hy) Hcap Hsafe Hlen.
  unfold init_cells_. rewrite Hw, Hh. simpl. rewrite Hx. simpl. rewrite Hy. simpl.
  unfold assert.
  replace (w' * h' <=? MAX_CELL_COUNT) with true by (symmetry; apply Z.leb_le; lia).
  simpl.
  exact (layout_loop_total start_pos_x start_pos_y (with_grid w' h' (w' * h') g)
                           Hlen Hsafe).
Qed.

Lemma init_cells_over_limit d g start_pos_x w' start_pos_y h' :
  layout_derives d g start_pos_x w' start_pos_y h' ->
  MAX_CELL_COUNT < w' * h' ->
  init_cells_ d g = Abort cell_count_over_limit.
Proof.
  intros (ww & wh & Hw & Hh & Hx & Hy) Hcap.
  unfold init_cells_. rewrite Hw, Hh. simpl. rewrite Hx. simpl. rewrite Hy. simpl.
  unfold assert.
  replace (w' * h' <=? MAX_CELL_COUNT) with false by (symmetry; apply Z.leb_gt; lia).
  reflexivity.
Qed.

Lemma init_cells_Abort d g e :
  init_cells_ d g = Abort e ->
  e = cell_count_over_limit /\
  exists start_pos_x w' start_pos_y h',
    layout_derives d g start_pos_x w' start_pos_y h' /\ MAX_CELL_COUNT < w' * h'.
Proof.
  unfold init_cells_. intros H.
  destruct (int_div_float (window_size_w d) (scale_x_ g)) as [ww | e' |] eqn:Hw;
    [ | now apply int_div_float_not_Abort in Hw | discriminate].
  destruct (int_div_float (window_size_h d) (scale_y_ g)) as [wh | e' |] eqn:Hh;
    [ | now apply int_div_float_not_Abort in Hh | discriminate].
  simpl in H.
  destruct (init_axis (side_ g) (w_ g) ww) as [[sx w'] | e' |] eqn:Hx;
    [ | now apply init_axis_not_Abort in Hx | discriminate].
  simpl in H.
  destruct (init_axis (side_ g) (h_ g) wh) as [[sy h'] | e' |] eqn:Hy;
    [ | now apply init_axis_not_Abort in Hy | discriminate].
  simpl in H. unfold assert in H.
  destruct (w' * h' <=? MAX_CELL_COUNT) eqn:Hcap; simpl in H.
  - exfalso. unfold for_lt in H. apply for_from_Abort in H as (i & t & H).
    apply for_from_Abort in H as (j & u & H).
    exact (cell_upd_not_Abort _ _ _ _ H).
  - injection H as <-. split; [reflexivity | ].
    exists sx, w', sy, h'. split; [ | apply Z.leb_gt in Hcap; lia].
    exists ww, wh. tauto.
Qed.

(** The fatal outcomes of the constructor are the two assertions'. *)
Lemma CellGrand_new_Abort d garbage side w h e :
  CellGrand_new d garbage side w h = Abort e ->
  (e = side_too_small /\ side < 3) \/
  (e = cell_count_over_limit /\ 3 <= side /\
   exists start_pos_x w' start_pos_y h',
     layout_derives d (mkCellGrand side w h (fresh_cells garbage) 0
                                   (render_scale_x d) (render_scale_y d) 0 false)
                    start_pos_x w' start_pos_y h'
     /\ MAX_CELL_COUNT < w' * h').
Proof.
  unfold CellGrand_new, check_valid, assert. intros H.
  destruct (3 <=? side) eqn:E; simpl in H.
  - right. apply Z.leb_le in E. apply init_cells_Abort in H as [-> H]. tauto.
  - left. apply Z.leb_gt in E. injection H as <-. tauto.
Qed.

Lemma CellGrand_new_side_too_small d garbage side w h :
  side < 3 -> CellGrand_new d garbage side w h = Abort side_too_small.
Proof.
  intros Hside. unfold CellGrand_new, check_valid, assert.
  replace (3 <=? side) with false by (symmetry; apply Z.leb_gt; lia).
  reflexivity.
Qed.

(** Within both bounds the constructor has a result when the stride of
    the derived grid stays inside the array. *)
Lemma CellGrand_new_total d garbage side w h start_pos_x w' start_pos_y h' :
  3 <= side ->
  layout_derives d (mkCellGrand side w h (fresh_cells garbage) 0
                                (render_scale_x d) (render_scale_y d) 0 false)
                 start_pos_x w' start_pos_y h' ->
  w' * h' <= MAX_CELL_COUNT -> stride_safe w' h' ->
  exists g, CellGrand_new d garbage side w h = Done g.
Proof.
  intros Hside Hd Hcap Hsafe. unfold CellGrand_new, check_valid, assert.
  replace (3 <=? side) with true by (symmetry; apply Z.leb_le; lia).
  simpl. apply (init_cells_total _ _ _ _ _ _ Hd Hcap Hsafe).
  cbn [cells_]. apply fresh_cells_length.
Qed.

(** * Frames that have a result *)

Lemma neighbour_reads_in_array w h i j :
  0 <= i < w -> 0 <= j < h -> w * w + h < MAX_CELL_COUNT ->
  Forall (fun r => fst r = true -> 0 <= snd r < MAX_CELL_COUNT)
         (neighbour_reads w h i j).
Proof.
  intros Hi Hj Hsafe. unfold neighbour_reads.
  repeat (apply Forall_cons; split;
          [cbn [fst snd]; intros Hg;
           try (apply andb_true_iff in Hg as [Hg1 Hg2]);
           repeat match goal with
                  | H : (_ <? _) = true |- _ => apply Z.ltb_lt in H
                  end; nia | ]).
  apply Forall_nil. exact I.
Qed.

Lemma count_reads_total g rs :
  length (cells_ g) = Z.to_nat MAX_CELL_COUNT ->
  Forall (fun r => fst r = true -> 0 <= snd r < MAX_CELL_COUNT) rs ->
  forall n, exists around, count_reads g n rs = Done around.
Proof.
  intros Hlen. induction 1 as [| r rs Hr _ IH]; intros n; simpl; [eauto | ].
  unfold count_read. destruct (fst r) eqn:E.
  - destruct (cell_at_total (snd r) g (Hr eq_refl) Hlen) as (c & -> & _).
    simpl. apply IH.
  - simpl. apply IH.
Qed.

Lemma ai_cell_total mt i j f :
  length (cells_ (this f)) = Z.to_nat MAX_CELL_COUNT ->
  0 <= i < w_ (this f) -> 0 <= j < h_ (this f) ->
  w_ (this f) * w_ (this f) + h_ (this f) < MAX_CELL_COUNT ->
  exists f', ai_cell mt i j f = Done f'.
Proof.
  destruct f as [g around n]. cbn [this]. intros Hlen Hi Hj Hsafe.
  assert (0 <= i * w_ g + j < MAX_CELL_COUNT) as Hk by nia.
  assert (forall s (t : CellGrand),
             same_frame g t ->
             exists t', cell_upd (i * w_ g + j) s t = Done t' /\ same_frame g t') as Hupd.
  { intros s t Hf. destruct (cell_upd_total (i * w_ g + j) s t Hk) as [t' Ht'].
    - destruct Hf as (_ & _ & _ & _ & _ & _ & _ & Hl). congruence.
    - exists t'. split; [exact Ht' | ].
      apply cell_upd_frame in Ht' as [Hf' _].
      exact (same_frame_trans _ _ _ Hf Hf'). }
  unfold ai_cell. cbn [this check_around drawn].
  destruct (cell_at_total _ g Hk Hlen) as (c & -> & _). cbn [run_bind].
  assert (exists g1 n1,
             (if negb (start_ g) && get_active_state c
              then
                let* g0 := cell_upd (i * w_ g + j)
                             (set_shake (mkShake (Random_get (-1) 1 (mt n))
                                                 (Random_get (-1) 1 (mt (Datatypes.S n))))) g in
                Done (g0, Datatypes.S (Datatypes.S n))
              else
                let* g0 := cell_upd (i * w_ g + j) (set_shake (mkShake 0 0)) g in
                Done (g0, n)) = Done (g1, n1) /\ same_frame g g1)
    as (g1 & n1 & -> & Hf1).
  { destruct (negb (start_ g) && get_active_state c);
      match goal with
      | |- context [cell_upd _ ?s g] =>
          destruct (Hupd s g (same_frame_refl g)) as (t' & -> & Hf)
      end; cbn [run_bind]; eauto. }
  cbn [run_bind].
  pose proof Hf1 as (_ & Hw1 & Hh1 & _ & _ & _ & Hs1 & Hl1).
  destruct (start_ g1); [ | eauto].
  rewrite Hw1, Hh1.
  destruct (count_reads_total g1 (neighbour_reads (w_ g) (h_ g) i j)
              ltac:(congruence) (neighbour_reads_in_array _ _ _ _ Hi Hj Hsafe) around)
    as (a & ->).
  cbn [run_bind].
  destruct (cell_at_total (i * w_ g + j) g1 Hk ltac:(congruence)) as (c1 & -> & _).
  cbn [run_bind].
  destruct (negb (get_active_state c1));
    match goal with |- context [if ?b then _ else _] => destruct b end;
    try (destruct (Hupd (set_active_change true) g1 Hf1) as (t' & -> & _));
    cbn [run_bind]; eauto.
Qed.

Lemma ai_evaluate_total mt g :
  length (cells_ g) = Z.to_nat MAX_CELL_COUNT -> scan_safe (w_ g) (h_ g) ->
  exists g', ai_evaluate mt g = Done g'.
Proof.
  intros Hlen Hsafe. unfold ai_evaluate.
  destruct (for_grid_total (ai_cell mt) (fun f => h_ (this f))
              (fun f => same_frame g (this f)) (w_ g) (h_ g) (mkAiFrame g 0 O))
    as (f' & -> & _).
  - apply same_frame_refl.
  - intros t Hf. unfold same_frame in Hf. tauto.
  - intros i j t Hi Hj Hf. pose proof Hf as (_ & Hw & Hh & _ & _ & _ & _ & Hl).
    destruct (ai_cell_total mt i j t) as [t' Ht']; try congruence.
    + rewrite Hw, Hh. destruct Hsafe as [Hs | [Hs | Hs]]; [lia | lia | exact Hs].
    + exists t'. split; [exact Ht' | ].
      apply ai_cell_effect in Ht' as [Hf' _].
      exact (same_frame_trans _ _ _ Hf Hf').
  - simpl. eauto.
Qed.

Lemma ai_commit_total g :
  well_formed g -> exists g', ai_commit g = Done g'.
Proof.
  intros [Hcap Hlen]. unfold ai_commit.
  destruct (for_lt_total ai_commit_cell (fun _ t => same_frame g t) (cell_count_ g) g)
    as (g' & Hrun & _).
  - apply same_frame_refl.
  - intros i t Hi Hf. pose proof Hf as (_ & _ & _ & _ & _ & _ & _ & Hl).
    assert (exists t', ai_commit_cell i t = Done t') as [t' Ht'].
    { unfold ai_commit_cell.
      destruct (cell_at_total i t ltac:(lia) ltac:(congruence)) as (c & -> & _).
      cbn [run_bind]. destruct (get_active_change c); [ | eauto].
      destruct (cell_upd_total i (set_active_state (negb (get_active_state c))) t
                  ltac:(lia) ltac:(congruence)) as [t1 Ht1].
      rewrite Ht1. cbn [run_bind].
      apply cell_upd_total; [lia | ].
      apply cell_upd_frame in Ht1 as [(_ & _ & _ & _ & _ & _ & _ & Hl1) _]. congruence. }
    exists t'. split; [exact Ht' | ].
    apply ai_commit_cell_effect in Ht' as [Hf' _].
    exact (same_frame_trans _ _ _ Hf Hf').
  - eauto.
Qed.

Lemma draw_cells_total g :
  well_formed g -> exists out, draw_cells_ g = Done out.
Proof.
  intros [Hcap Hlen]. unfold draw_cells_.
  destruct (for_lt_total
              (fun i out => let* c := cell_at i g in Done (out ++ [draw_cell c]))
              (fun _ _ => True) (cell_count_ g) [] I) as (out & Hrun & _).
  - intros i out Hi _.
    destruct (cell_at_total i g ltac:(lia) Hlen) as (c & -> & _).
    cbn [run_bind]. eauto.
  - eauto.
Qed.

Lemma well_formed_frame g g' : same_frame g g' -> well_formed g -> well_formed g'.
Proof.
  intros (_ & _ & _ & Hn & _ & _ & _ & Hl) [Hcap Hlen].
  split; congruence.
Qed.

Lemma update_well_formed d g g' :
  well_formed g -> update_ d g = Done g' -> well_formed g'.
Proof.
  intros [Hcap Hlen] H. apply update_Done in H as [-> | H]; [split; assumption | ].
  apply init_cells_effect in H
    as (ww & wh & sx & sy & _ & _ & _ & _ & _ & Hcap' & _ & _ & _ & _ & _ & Hl & _).
  cbn [cells_ with_scale] in Hl. split; [exact Hcap' | congruence].
Qed.

Lemma ai_total mt g :
  well_formed g -> scan_safe (w_ g) (h_ g) -> exists g', ai_ mt g = Done g'.
Proof.
  intros Hwf Hsafe. unfold ai_.
  destruct (ai_evaluate_total mt g (proj2 Hwf) Hsafe) as [g1 H1].
  rewrite H1. cbn [run_bind]. apply ai_commit_total.
  apply ai_evaluate_effect in H1 as (Hf & _).
  exact (well_formed_frame _ _ Hf Hwf).
Qed.

(** A frame has a result on a well-formed object whose grid, after
    [update_], keeps the step inside the array. *)
Lemma play_total d mt g g1 :
  well_formed g -> update_ d g = Done g1 -> scan_safe (w_ g1) (h_ g1) ->
  exists g' out, play d mt g = Done (g', out, start_ g).
Proof.
  intros Hwf Hu Hsafe. unfold play. rewrite Hu. cbn [run_bind].
  pose proof (update_well_formed _ _ _ Hwf Hu) as Hwf1.
  destruct (ai_total mt g1 Hwf1 Hsafe) as [g' Ha]. rewrite Ha. cbn [run_bind].
  pose proof (ai_keeps_mode _ _ _ Ha) as Hf.
  destruct (draw_cells_total g' (well_formed_frame _ _ Hf Hwf1)) as [out Hd].
  rewrite Hd. cbn [run_bind].
  apply update_keeps_mode in Hu as (Hs & _).
  destruct Hf as (_ & _ & _ & _ & _ & _ & Hs' & _).
  exists g', out. do 2 f_equal. congruence.
Qed.

Lemma handle_input_well_formed mouse event g g' :
  well_formed g -> handle_input mouse event g = Done g' -> well_formed g'.
Proof.
  intros Hwf H. destruct (handle_input_total mouse event g Hwf) as (g'' & H' & Hwf').
  congruence.
Qed.

Lemma reachable_well_formed g : reachable g -> well_formed g.
Proof.
  induction 1 as [d garbage side w h g H | mouse event g g' _ IH H
                  | d mt g g' out b _ IH H].
  - now apply CellGrand_new_effect in H as (Hwf & _).
  - exact (handle_input_well_formed _ _ _ _ IH H).
  - apply play_Done in H as (g1 & Hu & Ha & _).
    apply ai_keeps_mode in Ha.
    exact (well_formed_frame _ _ Ha (update_well_formed _ _ _ IH Hu)).
Qed.

Lemma handle_input_pending_all_clear mouse event g g' :
  pending_all_clear g -> handle_input mouse event g = Done g' ->
  pending_all_clear g'.
Proof.
  intros Hclear H. apply handle_input_effect in H as (g1 & _ & _ & Hcs & _).
  intros n c Hc. rewrite Hcs in Hc.
  destruct (decide (Z.of_nat n < cell_count_ g)); [ | exact (Hclear n c Hc)].
  destruct (cells_ g !! n) as [c0 |] eqn:E; [ | discriminate].
  simpl in Hc. injection Hc as <-.
  destruct (cell_after_input_pending (fst mouse / scale_x_ g)%Q
              (snd mouse / scale_y_ g)%Q event g c0) as [-> _].
  exact (Hclear n c0 E).
Qed.

Lemma handle_inputs_pending_all_clear events :
  forall g g',
    pending_all_clear g -> handle_inputs events g = Done g' ->
    pending_all_clear g'.
Proof.
  induction events as [| [mouse event] events IH]; intros g g' Hg H; simpl in H.
  - now injection H as <-.
  - apply run_bind_Done in H as (g1 & H1 & H).
    exact (IH g1 g' (handle_input_pending_all_clear _ _ _ _ Hg H1) H).
Qed.

Lemma CellGrand_new_pending_all_clear d garbage side w h g :
  CellGrand_new d garbage side w h = Done g -> pending_all_clear g.
Proof.
  intros H. apply CellGrand_new_effect in H as (_ & _ & _ & _ & Hcells).
  intros n c Hc. now destruct (Hcells n c Hc) as (_ & Hp & _).
Qed.

(** * The example objects *)

Lemma grid3_reachable : reachable grid3.
Proof.
  apply (reachable_new host_window zeroed 8 3 3).
  apply done_result. vm_compute. reflexivity.
Qed.

Lemma grid3_one_reachable : reachable grid3_one.
Proof.
  apply (reachable_inputs [left_press 387 287] grid3 _ grid3_reachable).
  apply done_result. vm_compute. reflexivity.
Qed.

Lemma grid3_running_reachable : reachable grid3_running.
Proof.
  apply (reachable_inputs [return_press 387 287] grid3_one _ grid3_one_reachable).
  apply done_result. vm_compute. reflexivity.
Qed.

Lemma grid1_running_reachable : reachable grid1_running.
Proof.
  apply (reachable_inputs [left_press 397 297; return_press 397 297]
                          (result_of (CellGrand_new host_window zeroed 8 1 1))).
  - apply (reachable_new host_window zeroed 8 1 1).
    apply done_result. vm_compute. reflexivity.
  - apply done_result. vm_compute. reflexivity.
Qed.

Lemma grid32_running_pending_clear : pending_all_clear grid32_running.
Proof.
  apply (handle_inputs_pending_all_clear
           [left_press 387 292; return_press 387 292]
           (result_of (CellGrand_new host_window zeroed 8 3 2))).
  - apply (CellGrand_new_pending_all_clear host_window zeroed 8 3 2).
    apply done_result. vm_compute. reflexivity.
  - apply done_result. vm_compute. reflexivity.
Qed.

Lemma grid32_running_reachable : reachable grid32_running.
Proof.
  apply (reachable_inputs [left_press 387 292; return_press 387 292]
                          (result_of (CellGrand_new host_window zeroed 8 3 2))).
  - apply (reachable_new host_window zeroed 8 3 2).
    apply done_result. vm_compute. reflexivity.
  - apply done_result. vm_compute. reflexivity.
Qed.

Lemma done_object (r : Run (CellGrand * list Drawn * bool)) :
  is_done r = true -> exists out b, r = Done (object_of r, out, b).
Proof.
  destruct r as [[[g out] b] | |]; simpl; [eauto | discriminate | discriminate].
Qed.

Lemma grid3_jittered_reachable : reachable grid3_jittered.
Proof.
  unfold grid3_jittered.
  destruct (done_object
              (play host_window counting
                    (result_of (handle_inputs [left_press 397 307] grid3))))
    as (out & b & E); [vm_compute; reflexivity | ].
  refine (reachable_play _ _ _ _ _ _ _ E).
  apply (reachable_inputs [left_press 397 307] grid3 _ grid3_reachable).
  apply done_result. vm_compute. reflexivity.
Qed.

Lemma grid23_running_reachable : reachable grid23_running.
Proof.
  unfold grid23_running.
  destruct (done_object (play stretched_window counting grid3_jittered))
    as (out & b & E); [vm_compute; reflexivity | ].
  apply (reachable_inputs [return_press 0 0]
                          (object_of (play stretched_window counting grid3_jittered))).
  - exact (reachable_play _ _ _ _ _ _ grid3_jittered_reachable E).
  - apply done_result. vm_compute. reflexivity.
Qed.

(** * The claims *)

(** ** C1: the neighbour count *)

(** C1 at a failing input.  In the 3 by 3 grid with only cell [(0, 0)]
    active, cell [(1, 1)] is inactive and has one active neighbour; the
    evaluation pass marks it pending and the step makes it active, and
    with it the four cells visited after it: [check_around] is declared
    before the loops and never reset, so each cell is judged on the
    running total of all counts so far. *)
Theorem step_counts_accumulate :
  reachable grid3_running /\ start_ grid3_running = true /\
  moore_count grid3_running 1 1 = 1 /\
  is_active_ <$> cells_ grid3_running !! 4%nat = Some false /\
  is_done (ai_evaluate counting grid3_running) = true /\
  active_change <$> cells_ (result_of (ai_evaluate counting grid3_running)) !! 4%nat
  = Some true /\
  exists g' out b,
    play host_window counting grid3_running = Done (g', out, b) /\
    is_active_ <$> cells_ g' !! 4%nat = Some true /\
    count_active (cells_ g') = 5 /\ ready_ g' = 5.
Proof.
  split; [exact grid3_running_reachable | ].
  do 5 (split; [vm_compute; reflexivity | ]).
  destruct (run_done (play host_window counting grid3_running))
    as [[[g' out] b] E]; [vm_compute; reflexivity | ].
  exists g', out, b. split; [exact E | ].
  replace g' with (object_of (play host_window counting grid3_running))
    by (rewrite E; reflexivity).
  split; [vm_compute; reflexivity | ]. split; vm_compute; reflexivity.
Qed.

(** ** C2: the bounds of the scan *)

(** C2 at a failing input.  In the 3 by 3 grid the scan of the corner
    cell [(2, 2)] skips nothing: it reads eight indices, and four of
    them (10, 11, 12 and 9) are not below [3 * 3].  The scan of the
    edge cell [(0, 2)] reads indices 3 and 6, the cells [(1, 0)] and
    [(2, 0)], in the place of neighbours below the grid. *)
Theorem neighbour_scan_leaves_grid :
  neighbour_indices 3 3 2 2 = [4; 7; 10; 11; 12; 9; 6; 5] /\
  List.filter (fun k => negb ((0 <=? k) && (k <? 3 * 3))) (neighbour_indices 3 3 2 2)
  = [10; 11; 12; 9] /\
  neighbour_indices 3 3 0 2 = [1; 4; 5; 6; 3].
Proof. repeat split; vm_compute; reflexivity. Qed.

(** ** C3: the automatic stop *)

(** C3, as the code has it.  A frame never leaves Running: when the
    step of a Running engine leaves [ready_ <= 0] the engine is still
    Running at the end of [play], which returns [true]; it is the next
    [handle_input], whatever its event, that switches to Editing and
    resets [ready_] to 0. *)
Theorem play_leaves_stop_to_handle_input d mt g g' out b :
  reachable g ->
  start_ g = true ->
  play d mt g = Done (g', out, b) ->
  ready_ g' <= 0 ->
  start_ g' = true /\ b = true /\
  forall mouse event,
    exists g'',
      handle_input mouse event g' = Done g'' /\
      start_ g'' = false /\ ready_ g'' = 0.
Proof.
  intros Hreach Hs H Hr.
  pose proof (reachable_well_formed g' (reachable_play _ _ _ _ _ _ Hreach H)) as Hwf.
  pose proof (play_keeps_mode _ _ _ _ _ _ H) as Hs'.
  apply play_Done in H as (g0 & _ & _ & _ & ->).
  rewrite Hs in Hs'. split; [exact Hs' | ]. split; [exact Hs' | ].
  intros mouse event.
  destruct (handle_input_total mouse event g' Hwf) as (g'' & Hin & _).
  exists g''. split; [exact Hin | ].
  pose proof (handle_input_same_active _ _ _ _ Hin (or_introl Hs')) as Hsame.
  pose proof (count_active_same _ _ Hsame) as Hcount.
  apply handle_input_effect in Hin as (g1 & -> & Hf & _ & Hr1).
  rewrite after_keys_cells in Hcount, Hr1.
  assert (start_ g1 = true) as Hs1
    by (destruct Hf as (_ & _ & _ & _ & _ & _ & -> & _); exact Hs').
  unfold after_keys.
  replace (0 <? ready_ g1) with false by (symmetry; apply Z.ltb_ge; lia).
  simpl. rewrite Hs1.
  replace (ready_ g1 <=? 0) with true by (symmetry; apply Z.leb_le; lia).
  simpl. split; reflexivity.
Qed.

Lemma play_leaves_stop_to_handle_input_witness :
  exists g' out b,
    play host_window counting grid1_running = Done (g', out, b) /\
    start_ g' = true /\ b = true /\
    forall mouse event,
      exists g'',
        handle_input mouse event g' = Done g'' /\
        start_ g'' = false /\ ready_ g'' = 0.
Proof.
  destruct (run_done (play host_window counting grid1_running))
    as [[[g' out] b] E]; [vm_compute; reflexivity | ].
  exists g', out, b. split; [exact E | ].
  apply (play_leaves_stop_to_handle_input host_window counting grid1_running g' out b);
    [exact grid1_running_reachable | vm_compute; reflexivity | exact E | ].
  replace g' with (object_of (play host_window counting grid1_running))
    by (rewrite E; reflexivity).
  vm_compute. discriminate.
Defined.

(** C3, as the spec has it, fails: the one cell of a 1 by 1 grid dies
    in the first frame, which leaves [ready_ = 0], and at the end of
    that frame the engine is still Running. *)
Lemma play_does_not_stop :
  reachable grid1_running /\ start_ grid1_running = true /\
  exists g' out b,
    play host_window counting grid1_running = Done (g', out, b) /\
    ready_ g' <= 0 /\
    ~ (start_ g' = false /\ ready_ g' = 0).
Proof.
  split; [exact grid1_running_reachable | ].
  split; [vm_compute; reflexivity | ].
  destruct (run_done (play host_window counting grid1_running))
    as [[[g' out] b] E]; [vm_compute; reflexivity | ].
  exists g', out, b. split; [exact E | ].
  replace g' with (object_of (play host_window counting grid1_running))
    by (rewrite E; reflexivity).
  split; [vm_compute; discriminate | ].
  intros [H _]. vm_compute in H. discriminate.
Qed.

(** ** C4: what a layout pass resets *)

(** C4 at a failing input.  One cell of the 3 by 3 grid is active and
    [ready_] is 1 when the render scale changes from 1 to 2; the
    re-layout in the next frame's [update_] clears every cell and
    leaves [ready_] at 1: a count of one active cell over a grid with
    none.  And on a grid that is not square the pass does not reach
    every cell below [cell_count_]: of the 6 cells of
    [CellGrand(8, 2, 3)] the last is never written and keeps the
    [shape_] the memory held. *)
Theorem relayout_keeps_ready_count :
  reachable grid3_one /\ ready_ grid3_one = 1 /\
  is_done (update_ host_window_scaled grid3_one) = true /\
  scale_x_ (result_of (update_ host_window_scaled grid3_one)) = 2%Q /\
  count_active (cells_ (result_of (update_ host_window_scaled grid3_one))) = 0 /\
  ready_ (result_of (update_ host_window_scaled grid3_one)) = 1 /\
  is_done (CellGrand_new host_window zeroed 8 2 3) = true /\
  cell_count_ (result_of (CellGrand_new host_window zeroed 8 2 3)) = 6 /\
  shape_ <$> cells_ (result_of (CellGrand_new host_window zeroed 8 2 3)) !! 5%nat
  = Some (zeroed 5%nat).
Proof.
  split; [exact grid3_one_reachable | ].
  repeat split; vm_compute; reflexivity.
Qed.

(** ** C5: the fit of the layout *)

Lemma axis_fit_past_margin side n window start n' :
  3 <= side ->
  axis_fit side n window start n' ->
  window - margin side < footprint side n -> 2 <= window ->
  window - margin side < footprint side n'.
Proof.
  intros Hside [_ Hresize] Hover Hwin.
  destruct (Hresize Hover) as (_ & _ & Hfit).
  destruct (Hfit Hwin) as [_ Hmax].
  destruct (Z.lt_ge_cases (window - margin side) (footprint side n'))
    as [Hlt | Hge]; [exact Hlt | exfalso].
  specialize (Hmax (n' + 1)).
  unfold footprint, margin, kGap in *.
  assert (n' + 1 <= n') by (apply Hmax; lia). lia.
Qed.

(** C5, as the code has it.  The layout pass derives a start position
    and a count on each axis and places the cells from them: the cell
    of column [i] and row [j] is [side_ + kGap] apart from its
    neighbours, at [(start_x + i * (side_ + kGap),
    start_y + j * (side_ + kGap))], the first cell [cells_[0]] at the
    start itself.  On each axis: a requested count whose footprint fits
    the logical window less the margin is kept, the grid is centred
    (the start is half of what the footprint leaves of the window), and
    the footprint stays within that bound; otherwise the grid starts
    two gaps in and the count becomes [(window - 2) / (2 + side)],
    which for a window of at least 2 pixels is the largest count whose
    footprint fits the window less two gaps, and whose footprint
    exceeds the window less the margin. *)
Theorem init_cells_fit d g g' :
  3 <= side_ g ->
  init_cells_ d g = Done g' ->
  exists window_w window_h start_pos_x start_pos_y,
    int_div_float (window_size_w d) (scale_x_ g) = Done window_w /\
    int_div_float (window_size_h d) (scale_y_ g) = Done window_h /\
    init_axis (side_ g) (w_ g) window_w = Done (start_pos_x, w_ g') /\
    init_axis (side_ g) (h_ g) window_h = Done (start_pos_y, h_ g') /\
    axis_fit (side_ g) (w_ g) window_w start_pos_x (w_ g') /\
    axis_fit (side_ g) (h_ g) window_h start_pos_y (h_ g') /\
    (window_w - margin (side_ g) < footprint (side_ g) (w_ g) -> 2 <= window_w ->
     window_w - margin (side_ g) < footprint (side_ g) (w_ g')) /\
    (window_h - margin (side_ g) < footprint (side_ g) (h_ g) -> 2 <= window_h ->
     window_h - margin (side_ g) < footprint (side_ g) (h_ g')) /\
    side_ g' = side_ g /\
    (forall i j,
        0 <= i < w_ g' -> 0 <= j < h_ g' ->
        exists c,
          cells_ g' !! Z.to_nat (i * w_ g' + j) = Some c /\
          (exists i' j',
              0 <= i' < w_ g' /\ 0 <= j' < h_ g' /\
              i' * w_ g' + j' = i * w_ g' + j /\
              shape_ c = position_of start_pos_x start_pos_y g' i' j') /\
          (h_ g' <= w_ g' ->
           shape_ c = position_of start_pos_x start_pos_y g' i j)) /\
    (0 < w_ g' -> 0 < h_ g' ->
     exists c,
       cells_ g' !! 0%nat = Some c /\
       shape_ c = mkShape start_pos_x start_pos_y (side_ g) (side_ g)).
Proof.
  intros Hside H.
  apply init_cells_effect in H
    as (ww & wh & sx & sy & Hw & Hh & Hx & Hy & _ & _ & Hsd & _ & _ & _ & _ & _
        & _ & Hlaid).
  pose proof (init_axis_fit _ _ _ _ _ Hside Hx) as Hfx.
  pose proof (init_axis_fit _ _ _ _ _ Hside Hy) as Hfy.
  exists ww, wh, sx, sy.
  do 6 (split; [assumption | ]).
  split; [exact (axis_fit_past_margin _ _ _ _ _ Hside Hfx) | ].
  split; [exact (axis_fit_past_margin _ _ _ _ _ Hside Hfy) | ].
  split; [exact Hsd | ]. split.
  - intros i j Hi Hj.
    destruct (Hlaid i j Hi Hj)
      as (c & Hc & _ & _ & _ & i' & j' & Hi' & Hj' & E & Hsh); [lia | lia | ].
    exists c. split; [exact Hc | ]. split.
    + exists i', j'. auto.
    + intros Hhw. apply index_injective in E as [-> ->]; [exact Hsh | lia | lia].
  - intros Hw0 Hh0.
    destruct (Hlaid 0 0)
      as (c & Hc & _ & _ & _ & i' & j' & Hi' & Hj' & E & Hsh); [lia .. | ].
    replace (0 * w_ g' + 0) with 0 in Hc, E by lia.
    change (Z.to_nat 0) with 0%nat in Hc.
    exists c. split; [exact Hc | ].
    assert (i' = 0 /\ j' = 0) as [-> ->] by nia.
    rewrite Hsh. unfold position_of. rewrite Hsd. f_equal; lia.
Qed.

Lemma init_cells_fit_witness :
  exists g' window_w window_h start_pos_x start_pos_y c,
    CellGrand_new narrow_window zeroed 8 25 25 = Done g' /\
    int_div_float 200 1 = Done window_w /\
    int_div_float 600 1 = Done window_h /\
    init_axis 8 25 window_w = Done (start_pos_x, w_ g') /\
    init_axis 8 25 window_h = Done (start_pos_y, h_ g') /\
    axis_fit 8 25 window_w start_pos_x (w_ g') /\
    axis_fit 8 25 window_h start_pos_y (h_ g') /\
    cells_ g' !! 0%nat = Some c /\
    shape_ c = mkShape start_pos_x start_pos_y 8 8.
Proof.
  destruct (run_done (CellGrand_new narrow_window zeroed 8 25 25)) as [g' E];
    [vm_compute; reflexivity | ].
  assert (Hg : g' = result_of (CellGrand_new narrow_window zeroed 8 25 25))
    by (rewrite E; reflexivity).
  assert (Hw0 : 0 < w_ g') by (rewrite Hg; vm_compute; reflexivity).
  assert (Hh0 : 0 < h_ g') by (rewrite Hg; vm_compute; reflexivity).
  destruct (CellGrand_new_Done _ _ _ _ _ _ E) as [Hside H].
  destruct (init_cells_fit narrow_window _ g' (Hside : 3 <= side_ (mkCellGrand 8 _ _ _ _ _ _ _ _)) H)
    as (ww & wh & sx & sy & Hw & Hh & Hax & Hay & Hx & Hy & _ & _ & _ & _ & H0).
  destruct (H0 Hw0 Hh0) as (c & Hc & Hsh).
  exists g', ww, wh, sx, sy, c. repeat (split; [assumption | ]). assumption.
Defined.

(** C5, as the spec has it, fails: 25 requested columns of side 8 in a
    window 200 wide become 19 columns, 188 pixels with their gaps, more
    than the 176 the window less the margin leaves. *)
Lemma resized_grid_exceeds_margin :
  exists g',
    CellGrand_new narrow_window zeroed 8 25 25 = Done g' /\
    int_div_float (window_size_w narrow_window) (render_scale_x narrow_window) = Done 200 /\
    w_ g' = 19 /\
    ~ (footprint (side_ g') (w_ g') <= 200 - margin (side_ g')).
Proof.
  exists (result_of (CellGrand_new narrow_window zeroed 8 25 25)).
  split; [apply done_result; vm_compute; reflexivity | ].
  split; [vm_compute; reflexivity | ].
  split; [vm_compute; reflexivity | ].
  vm_compute. intros H. apply H. reflexivity.
Qed.

(** ** C6: the pending flags *)

(** C6 at a failing input.  In the grid of 3 columns and 2 rows
    [cell_count_] is 6 and the cells of column 2 are [cells_[6]] and
    [cells_[7]]; no pending flag is set when the frame starts, the
    step started from cell [(0, 0)] sets theirs, and the commit pass,
    which stops at [cell_count_], leaves them set at the end of
    [play].  (Where [w_ <= h_] every flag is consumed:
    [ai_consumes_pending].) *)
Theorem pending_left_after_step :
  reachable grid32_running /\ pending_all_clear grid32_running /\
  exists g' out b,
    play host_window counting grid32_running = Done (g', out, b) /\
    w_ g' = 3 /\ h_ g' = 2 /\ cell_count_ g' = 6 /\
    active_change <$> cells_ g' !! Z.to_nat (2 * w_ g' + 0) = Some true.
Proof.
  split; [exact grid32_running_reachable | ].
  split; [exact grid32_running_pending_clear | ].
  destruct (run_done (play host_window counting grid32_running))
    as [[[g' out] b] E]; [vm_compute; reflexivity | ].
  exists g', out, b. split; [exact E | ].
  replace g' with (object_of (play host_window counting grid32_running))
    by (rewrite E; reflexivity).
  repeat split; vm_compute; reflexivity.
Qed.

(** ** C7: toggling and the ready count *)

(** C7.  While Editing, a press of the left pointer button flips the
    active flag of exactly the hovered cells below [cell_count_] (the
    hover flag is recomputed by the same call) and moves [ready_] by
    the number of cells switched on minus the number switched off; so
    after any sequence of such presses on a constructed object the
    handler has a result, the engine is still Editing and [ready_] is
    the number of active cells of the array.  While Running a press of
    any pointer button changes no active flag.  The Return key with
    [ready_ = 0] leaves the mode Editing, [ready_] zero and every
    active flag as it was.  The handler has a result on every
    well-formed object. *)
Theorem handle_input_toggle_accounting :
  (forall mouse g g',
      start_ g = false ->
      handle_input mouse (SDL_EVENT_MOUSE_BUTTON_DOWN SDL_BUTTON_LEFT) g = Done g' ->
      start_ g' = false /\
      (forall n c,
          Z.of_nat n < cell_count_ g -> cells_ g !! n = Some c ->
          exists c',
            cells_ g' !! n = Some c' /\
            wait_for_select_ c'
            = pointer_over (fst mouse / scale_x_ g)%Q (snd mouse / scale_y_ g)%Q
                           (side_ g) c /\
            is_active_ c' = xorb (is_active_ c) (wait_for_select_ c')) /\
      ready_ g' - ready_ g = count_active (cells_ g') - count_active (cells_ g))
  /\
  (forall d garbage side w h g0 events,
      CellGrand_new d garbage side w h = Done g0 ->
      left_presses events ->
      exists g, handle_inputs events g0 = Done g /\
                start_ g = false /\ ready_ g = count_active (cells_ g))
  /\
  (forall mouse button g g',
      start_ g = true ->
      handle_input mouse (SDL_EVENT_MOUSE_BUTTON_DOWN button) g = Done g' ->
      same_active g g')
  /\
  (forall mouse g g',
      ready_ g = 0 ->
      handle_input mouse (SDL_EVENT_KEY_DOWN SDL_SCANCODE_RETURN) g = Done g' ->
      start_ g' = false /\ ready_ g' = 0 /\ same_active g g')
  /\
  (forall mouse event g,
      well_formed g -> exists g', handle_input mouse event g = Done g').
Proof.
  split; [ | split; [ | split; [ | split]]].
  - intros mouse g g' Hs H.
    destruct (handle_input_left_press
                mouse (SDL_EVENT_MOUSE_BUTTON_DOWN SDL_BUTTON_LEFT) g g' Hs eq_refl H)
      as [Hs' Hr].
    split; [exact Hs' | ]. split; [ | lia].
    intros n c Hn Hc.
    apply handle_input_effect in H as (g1 & _ & _ & Hcs & _).
    specialize (Hcs n). rewrite Hc in Hcs.
    destruct (decide (Z.of_nat n < cell_count_ g)); [ | lia].
    eexists. split; [exact Hcs | ].
    unfold cell_after_input, cell_toggles. rewrite Hs. simpl.
    rewrite andb_true_r.
    destruct (pointer_over _ _ (side_ g) c); simpl;
      [split; [reflexivity | now destruct (is_active_ c)]
      | split; [reflexivity | now destruct (is_active_ c)]].
  - intros d garbage side w h g0 events Hnew Hall.
    apply CellGrand_new_effect in Hnew as (Hwf & _ & Hs & Hr & Hcells).
    destruct (handle_inputs_left_presses events g0 Hwf Hs) as (g & Hrun & _ & Hg); auto.
    { rewrite Hr. symmetry. apply count_active_zero.
      intros n c Hn. now destruct (Hcells n c Hn). }
    exists g. tauto.
  - intros mouse button g g' Hs H.
    apply (handle_input_same_active _ _ _ _ H). now left.
  - intros mouse g g' Hr H.
    pose proof (handle_input_same_active _ _ _ _ H (or_intror eq_refl)) as Hsame.
    pose proof (count_active_same _ _ Hsame) as Hcount.
    apply handle_input_effect in H as (g1 & -> & _ & _ & Hr1).
    rewrite after_keys_cells in Hcount, Hr1.
    assert (ready_ g1 = 0) as Hr0 by lia.
    destruct (after_keys_ready_zero (SDL_EVENT_KEY_DOWN SDL_SCANCODE_RETURN) g1 Hr0).
    tauto.
  - intros mouse event g Hwf.
    destruct (handle_input_total mouse event g Hwf) as (g' & H & _). eauto.
Qed.

Lemma handle_input_toggle_accounting_witness :
  start_ (result_of (handle_input (387, 287)%Q
                        (SDL_EVENT_MOUSE_BUTTON_DOWN SDL_BUTTON_LEFT) grid3)) = false
  /\ (exists g, handle_inputs [left_press 387 287; left_press 397 297] grid3 = Done g /\
                start_ g = false /\ ready_ g = count_active (cells_ g))
  /\ same_active grid3_running
                 (result_of (handle_input (387, 287)%Q
                               (SDL_EVENT_MOUSE_BUTTON_DOWN SDL_BUTTON_LEFT) grid3_running))
  /\ start_ (result_of (handle_input (387, 287)%Q
                          (SDL_EVENT_KEY_DOWN SDL_SCANCODE_RETURN) grid3)) = false.
Proof.
  destruct handle_input_toggle_accounting as (H1 & H2 & H3 & H4 & _).
  split; [ | split; [ | split]].
  - apply (H1 (387, 287)%Q grid3 _); [vm_compute; reflexivity | ].
    apply done_result. vm_compute. reflexivity.
  - apply (H2 host_window zeroed 8 3 3 grid3).
    + apply done_result. vm_compute. reflexivity.
    + repeat constructor.
  - apply (H3 (387, 287)%Q SDL_BUTTON_LEFT grid3_running _); [vm_compute; reflexivity | ].
    apply done_result. vm_compute. reflexivity.
  - apply (H4 (387, 287)%Q grid3 _); [vm_compute; reflexivity | ].
    apply done_result. vm_compute. reflexivity.
Defined.

(** ** C8: the fatal configuration errors *)

(** C8 at a failing input.  [CellGrand(3, 200, 1)] in the host's window
    derives 159 columns and 1 row: the side is 3 and 159 cells are
    within [MAX_CELL_COUNT], so both assertions pass; the layout loop
    then writes [cells_[i * 159]] and leaves the array at [i = 104]. *)
Theorem capacity_check_misses_layout_writes :
  check_valid 3 = Done tt /\
  init_axis 3 200 800 = Done (4, 159) /\
  init_axis 3 1 600 = Done (298, 1) /\
  assert (159 * 1 <=? MAX_CELL_COUNT) cell_count_over_limit = Done tt /\
  (104 * 159 + 0 <? MAX_CELL_COUNT) = false /\
  CellGrand_new host_window zeroed 3 200 1 = Undefined.
Proof. repeat split; vm_compute; reflexivity. Qed.

(** ** C9: jitter containment *)

(** What does hold of the jitter.  After every [play] on an object the
    host can hold, on every cell the step addresses ([cells_[i * w_ + j]]
    for [(i, j)] of the grid): while Running the jitter is [(0, 0)];
    while Editing the jitter of an inactive cell is [(0, 0)]; so a
    jitter other than [(0, 0)] is on an active cell while Editing; and
    each component is -1, 0 or 1.  On a square grid these are all the
    cells below [cell_count_]. *)
Lemma play_jitter_contained d mt g g' out b :
  reachable g ->
  play d mt g = Done (g', out, b) ->
  jitter_contained g' /\ (0 <= w_ g' /\ w_ g' = h_ g' -> jitter_contained_linear g').
Proof.
  intros Hreach H.
  pose proof (reachable_cell_count g' (reachable_play _ _ _ _ _ _ Hreach H)) as Hn.
  apply reachable_pending_clear in Hreach.
  apply play_Done in H as (g1 & Hu & Ha & _).
  assert (jitter_contained g') as Hcont.
  { apply (ai_jitter_contained mt g1 g'); [ | exact Ha].
    exact (update_pending_clear _ _ _ Hreach Hu). }
  split; [exact Hcont | ].
  intros Hsq. exact (jitter_contained_square g' Hn Hsq Hcont).
Qed.

Lemma play_jitter_contained_witness :
  exists g' out b,
    play host_window counting grid3_one = Done (g', out, b) /\
    jitter_contained g' /\ (0 <= w_ g' /\ w_ g' = h_ g' -> jitter_contained_linear g').
Proof.
  destruct (run_done (play host_window counting grid3_one))
    as [[[g' out] b] E]; [vm_compute; reflexivity | ].
  exists g', out, b. split; [exact E | ].
  exact (play_jitter_contained host_window counting grid3_one g' out b
           grid3_one_reachable E).
Defined.

(** C9 at a failing input.  The 3 by 3 grid with cell [(1, 2)],
    [cells_[5]], active and displaced by the jitter [(-1, 0)] is
    re-laid out at render scale 30 by 1 as 2 columns of 3 rows; the
    layout pass and the step address the six cells as
    [cells_[i * 2 + j]], indices 0, 1, 2, 2, 3, 4, and never visit
    [cells_[5]], which is below [cell_count_ = 6].  After the Return
    key and a Running frame that cell is still active with its jitter
    [(-1, 0)], the frame draws it one pixel off its rectangle, and
    [play] returns [true]. *)
Theorem jitter_outside_stride :
  reachable grid23_running /\
  w_ grid23_running = 2 /\ h_ grid23_running = 3 /\
  cell_count_ grid23_running = 6 /\ start_ grid23_running = true /\
  is_done (play stretched_window counting grid23_running) = true /\
  returned_of (play stretched_window counting grid23_running) = true /\
  start_ (object_of (play stretched_window counting grid23_running)) = true /\
  cell_count_ (object_of (play stretched_window counting grid23_running)) = 6 /\
  cells_ (object_of (play stretched_window counting grid23_running)) !! 5%nat
  = Some (mkCell true false false (mkShape 396 306 8 8) (mkShake (-1) 0)) /\
  drawn_of (play stretched_window counting grid23_running) !! 5%nat
  = Some (mkDrawn kActiveColor 395 306 (8, 8)).
Proof.
  split; [exact grid23_running_reachable | ].
  repeat split; vm_compute; reflexivity.
Qed.

(** ** C10: the value [play] returns *)

(** C10.  [play] returns the running flag of the object as the frame
    leaves it, [true] when it is Running and [false] when it is
    Editing, and the frame itself never changes that flag; and [play]
    does return on every well-formed object whose grid, after
    [update_], keeps the step inside the array. *)
Theorem play_returns_running_flag d mt g :
  (forall g' out b,
      play d mt g = Done (g', out, b) ->
      b = start_ g' /\ start_ g' = start_ g)
  /\
  (forall g1,
      well_formed g -> update_ d g = Done g1 -> scan_safe (w_ g1) (h_ g1) ->
      exists g' out, play d mt g = Done (g', out, start_ g)).
Proof.
  split.
  - intros g' out b H. split.
    + now apply play_Done in H as (g1 & _ & _ & _ & ->).
    + exact (play_keeps_mode _ _ _ _ _ _ H).
  - intros g1. apply play_total.
Qed.

Lemma play_returns_running_flag_witness :
  exists g' out,
    play host_window counting grid3_running = Done (g', out, start_ grid3_running) /\
    start_ g' = start_ grid3_running.
Proof.
  destruct (play_returns_running_flag host_window counting grid3_running) as [H1 H2].
  destruct (H2 (result_of (update_ host_window grid3_running))) as (g' & out & E).
  - split; [vm_compute; discriminate | vm_compute; reflexivity].
  - apply done_result. vm_compute. reflexivity.
  - right. right. vm_compute. reflexivity.
  - exists g', out. split; [exact E | ]. exact (proj2 (H1 g' out _ E)).
Defined.

(** * Further properties of the engine *)

(** ** The input handler *)

Lemma after_keys_frame event g :
  side_ (after_keys event g) = side_ g /\
  scale_x_ (after_keys event g) = scale_x_ g /\
  scale_y_ (after_keys event g) = scale_y_ g.
Proof.
  unfold after_keys.
  destruct ((0 <? ready_ g) && return_key_down event); simpl;
    match goal with |- context [if ?b then _ else _] => destruct b end;
    simpl; tauto.
Qed.

(** X1.  Hover tracking does not depend on the mode or on the event:
    on an object whose stored scale is not zero, every call of
    [handle_input] sets the hover flag of every cell below
    [cell_count_] to the result of the pointer test on that cell's own
    rectangle, and leaves the cells from [cell_count_] on as they
    were. *)
Theorem handle_input_tracks_hover mouse event g g' :
  ~ (scale_x_ g == 0)%Q -> ~ (scale_y_ g == 0)%Q ->
  handle_input mouse event g = Done g' ->
  (forall n c,
      Z.of_nat n < cell_count_ g -> cells_ g !! n = Some c ->
      exists c',
        cells_ g' !! n = Some c' /\
        wait_for_select_ c'
        = pointer_over (fst mouse / scale_x_ g)%Q (snd mouse / scale_y_ g)%Q
                       (side_ g) c) /\
  (forall n, cell_count_ g <= Z.of_nat n -> cells_ g' !! n = cells_ g !! n).
Proof.
  intros _ _ H. apply handle_input_effect in H as (g1 & _ & _ & Hcs & _). split.
  - intros n c Hn Hc. specialize (Hcs n). rewrite Hc in Hcs.
    destruct (decide (Z.of_nat n < cell_count_ g)); [ | lia].
    eexists. split; [exact Hcs | ].
    unfold cell_after_input.
    destruct (cell_toggles _ _ event g c); reflexivity.
  - intros n Hn. rewrite Hcs.
    destruct (decide (Z.of_nat n < cell_count_ g)); [lia | reflexivity].
Qed.

Lemma handle_input_tracks_hover_witness :
  exists g',
    handle_input (387, 287)%Q SDL_EVENT_MOUSE_MOTION grid3_running = Done g' /\
    (forall n c,
        Z.of_nat n < cell_count_ grid3_running ->
        cells_ grid3_running !! n = Some c ->
        exists c',
          cells_ g' !! n = Some c' /\
          wait_for_select_ c'
          = pointer_over (fst (387, 287)%Q / scale_x_ grid3_running)%Q
                         (snd (387, 287)%Q / scale_y_ grid3_running)%Q
                         (side_ grid3_running) c).
Proof.
  destruct (run_done (handle_input (387, 287)%Q SDL_EVENT_MOUSE_MOTION grid3_running))
    as [g' E]; [vm_compute; reflexivity | ].
  exists g'. split; [exact E | ].
  refine (proj1 (handle_input_tracks_hover _ _ _ _ _ _ E)).
  - intros H. vm_compute in H. discriminate H.
  - intros H. vm_compute in H. discriminate H.
Defined.

(** X2.  [handle_input] never moves a cell, never writes a jitter or a
    pending flag, and never changes the grid's shape, the side or the
    stored scale: it writes hover flags, active flags, [ready_] and
    [start_] only. *)
Theorem handle_input_keeps_geometry mouse event g g' :
  handle_input mouse event g = Done g' ->
  side_ g' = side_ g /\ w_ g' = w_ g /\ h_ g' = h_ g /\
  cell_count_ g' = cell_count_ g /\
  scale_x_ g' = scale_x_ g /\ scale_y_ g' = scale_y_ g /\
  length (cells_ g') = length (cells_ g) /\
  forall n c',
    cells_ g' !! n = Some c' ->
    exists c, cells_ g !! n = Some c /\
              shape_ c' = shape_ c /\ shake_ c' = shake_ c /\
              active_change c' = active_change c.
Proof.
  intros H. apply handle_input_effect in H as (g1 & -> & Hf & Hcs & _).
  destruct (after_keys_grid event g1) as (-> & -> & ->).
  destruct (after_keys_frame event g1) as (-> & -> & ->).
  rewrite after_keys_cells in *.
  destruct Hf as (Hsd & Hw & Hh & Hn & Hsx & Hsy & _ & Hl).
  do 6 (split; [assumption | ]).
  split; [exact Hl | ].
  intros n c' Hc'. rewrite Hcs in Hc'.
  destruct (decide (Z.of_nat n < cell_count_ g)).
  - destruct (cells_ g !! n) as [c |]; [ | discriminate].
    simpl in Hc'. injection Hc' as <-. exists c. split; [reflexivity | ].
    unfold cell_after_input.
    destruct (cell_toggles _ _ event g c); simpl; tauto.
  - exists c'. tauto.
Qed.

Lemma handle_input_keeps_geometry_witness :
  exists g',
    handle_input (387, 287)%Q (SDL_EVENT_MOUSE_BUTTON_DOWN SDL_BUTTON_LEFT) grid3
    = Done g' /\
    w_ g' = w_ grid3 /\ h_ g' = h_ grid3 /\ cell_count_ g' = cell_count_ grid3.
Proof.
  destruct (run_done (handle_input (387, 287)%Q
                        (SDL_EVENT_MOUSE_BUTTON_DOWN SDL_BUTTON_LEFT) grid3))
    as [g' E]; [vm_compute; reflexivity | ].
  exists g'. split; [exact E | ].
  destruct (handle_input_keeps_geometry _ _ _ _ E) as (_ & Hw & Hh & Hn & _).
  auto.
Defined.

Lemma handle_input_not_left mouse event g g' :
  handle_input mouse event g = Done g' ->
  start_ g = true \/ left_button_down event = false ->
  exists g1,
    g' = after_keys event g1 /\ start_ g1 = start_ g /\ ready_ g1 = ready_ g /\
    same_active g g'.
Proof.
  intros H Hno.
  pose proof (handle_input_same_active _ _ _ _ H Hno) as Hsame.
  apply handle_input_effect in H as (g1 & -> & Hf & _ & Hr).
  exists g1. rewrite (count_active_same _ _ Hsame) in Hr.
  destruct Hf as (_ & _ & _ & _ & _ & _ & Hs & _).
  repeat split; [exact Hs | lia | exact Hsame].
Qed.

(** X3.  The Return key pauses and resumes: with a positive [ready_]
    count, one call of [handle_input] on a Return key press flips the
    mode, whichever mode the object is in, and leaves [ready_] and
    every active flag as they were. *)
Theorem return_key_flips_mode mouse g g' :
  0 < ready_ g ->
  handle_input mouse (SDL_EVENT_KEY_DOWN SDL_SCANCODE_RETURN) g = Done g' ->
  start_ g' = negb (start_ g) /\ ready_ g' = ready_ g /\ same_active g g'.
Proof.
  intros Hpos H.
  apply handle_input_not_left in H as (g1 & -> & Hs & Hr & Hsame);
    [ | right; reflexivity].
  split; [ | split; [ | exact Hsame]].
  - unfold after_keys. rewrite Hr, Hs.
    replace (0 <? ready_ g) with true by (symmetry; apply Z.ltb_lt; exact Hpos).
    cbn [andb return_key_down start_ with_start ready_].
    replace (ready_ g1 <=? 0) with false
      by (symmetry; apply Z.leb_gt; lia).
    rewrite andb_false_r. reflexivity.
  - unfold after_keys. rewrite Hr.
    replace (0 <? ready_ g) with true by (symmetry; apply Z.ltb_lt; exact Hpos).
    cbn [andb return_key_down start_ with_start ready_].
    replace (ready_ g1 <=? 0) with false
      by (symmetry; apply Z.leb_gt; lia).
    rewrite andb_false_r. exact Hr.
Qed.

Lemma return_key_flips_mode_witness :
  exists g',
    handle_input (387, 287)%Q (SDL_EVENT_KEY_DOWN SDL_SCANCODE_RETURN)
                 grid3_running = Done g' /\
    start_ grid3_running = true /\ start_ g' = false /\
    ready_ g' = ready_ grid3_running.
Proof.
  destruct (run_done (handle_input (387, 287)%Q
                        (SDL_EVENT_KEY_DOWN SDL_SCANCODE_RETURN) grid3_running))
    as [g' E]; [vm_compute; reflexivity | ].
  exists g'. split; [exact E | ].
  assert (Hpos : 0 < ready_ grid3_running) by (vm_compute; reflexivity).
  assert (Hs : start_ grid3_running = true) by (vm_compute; reflexivity).
  destruct (return_key_flips_mode _ _ _ Hpos E) as (Hs' & Hr & _).
  rewrite Hs in Hs'. auto.
Defined.

(** X4.  The mode changes in two ways only: a call of [handle_input]
    that ends in another mode than it started in either handled a
    Return key press with a positive [ready_] count, or found the
    object Running with a [ready_] count that is not positive. *)
Theorem handle_input_mode_change mouse event g g' :
  handle_input mouse event g = Done g' ->
  start_ g' <> start_ g ->
  (return_key_down event = true /\ 0 < ready_ g) \/
  (start_ g = true /\ ready_ g <= 0).
Proof.
  intros H Hne.
  destruct (start_ g) eqn:Hstart.
  - apply handle_input_not_left in H as (g1 & -> & Hs & Hr & _);
      [ | left; exact Hstart].
    rewrite Hstart in Hs.
    unfold after_keys in Hne. rewrite Hr, Hs in Hne.
    destruct (0 <? ready_ g) eqn:Hpos.
    + apply Z.ltb_lt in Hpos.
      destruct (return_key_down event); [left; auto | ].
      cbn [andb] in Hne. rewrite Hs, Hr in Hne.
      replace (ready_ g <=? 0) with false in Hne
        by (symmetry; apply Z.leb_gt; lia).
      cbn [andb] in Hne. congruence.
    + apply Z.ltb_ge in Hpos. right. auto.
  - destruct (return_key_down event) eqn:Hret.
    + assert (Hleft : left_button_down event = false)
        by (destruct event as [[] | [] | ]; simpl in *; congruence).
      apply handle_input_not_left in H as (g1 & -> & Hs & Hr & _);
        [ | right; exact Hleft].
      rewrite Hstart in Hs.
      destruct (Z.lt_ge_cases 0 (ready_ g)) as [Hpos | Hle]; [left; auto | ].
      exfalso. apply Hne.
      unfold after_keys. rewrite Hr.
      replace (0 <? ready_ g) with false by (symmetry; apply Z.ltb_ge; lia).
      cbn [andb]. rewrite Hs. cbn [andb]. exact Hs.
    + apply handle_input_effect in H as (g1 & -> & Hf & _).
      destruct Hf as (_ & _ & _ & _ & _ & _ & Hs & _).
      rewrite Hstart in Hs.
      exfalso. apply Hne.
      unfold after_keys. rewrite Hret, andb_false_r, Hs. cbn [andb]. exact Hs.
Qed.

Lemma handle_input_mode_change_witness :
  exists g',
    handle_input (387, 287)%Q (SDL_EVENT_KEY_DOWN SDL_SCANCODE_RETURN) grid3_one
    = Done g' /\
    start_ g' <> start_ grid3_one /\
    ((return_key_down (SDL_EVENT_KEY_DOWN SDL_SCANCODE_RETURN) = true /\
      0 < ready_ grid3_one) \/
     (start_ grid3_one = true /\ ready_ grid3_one <= 0)).
Proof.
  destruct (run_done (handle_input (387, 287)%Q
                        (SDL_EVENT_KEY_DOWN SDL_SCANCODE_RETURN) grid3_one))
    as [g' E]; [vm_compute; reflexivity | ].
  exists g'. split; [exact E | ].
  assert (Hne : start_ g' <> start_ grid3_one).
  { replace g' with (result_of (handle_input (387, 287)%Q
                        (SDL_EVENT_KEY_DOWN SDL_SCANCODE_RETURN) grid3_one))
      by (rewrite E; reflexivity).
    vm_compute. discriminate. }
  split; [exact Hne | ].
  exact (handle_input_mode_change _ _ _ _ E Hne).
Defined.

Lemma handle_input_keeps_scale mouse event g g' :
  handle_input mouse event g = Done g' ->
  side_ g' = side_ g /\ cell_count_ g' = cell_count_ g /\
  scale_x_ g' = scale_x_ g /\ scale_y_ g' = scale_y_ g.
Proof.
  intros H. apply handle_input_effect in H as (g1 & -> & Hf & _).
  destruct (after_keys_grid event g1) as (_ & _ & ->).
  destruct (after_keys_frame event g1) as (-> & -> & ->).
  unfold same_frame in Hf. tauto.
Qed.

Lemma cell_after_input_twice mouse_x mouse_y event g g1 c :
  start_ g1 = start_ g -> side_ g1 = side_ g ->
  is_active_ (cell_after_input mouse_x mouse_y event g1
                (cell_after_input mouse_x mouse_y event g c))
  = is_active_ c.
Proof.
  intros Hs Hsd.
  assert (Hp : forall c1 : Cell,
             shape_ c1 = shape_ c ->
             pointer_over mouse_x mouse_y (side_ g1) c1
             = pointer_over mouse_x mouse_y (side_ g) c).
  { intros c1 Hc1. unfold pointer_over, get_shape. rewrite Hc1, Hsd. reflexivity. }
  unfold cell_after_input at 1. unfold cell_toggles at 1.
  rewrite Hs, Hp.
  2:{ unfold cell_after_input. destruct (cell_toggles _ _ event g c); reflexivity. }
  unfold cell_after_input, cell_toggles.
  destruct (negb (start_ g) && pointer_over mouse_x mouse_y (side_ g) c
            && left_button_down event); simpl.
  - apply negb_involutive.
  - reflexivity.
Qed.

(** X5.  A click is undone by a second click: while Editing, two left
    presses with the pointer at the same place leave every active flag
    and [ready_] as they were before the first, and the object
    Editing. *)
Theorem left_press_twice_restores mouse g g'' :
  start_ g = false ->
  handle_inputs [(mouse, SDL_EVENT_MOUSE_BUTTON_DOWN SDL_BUTTON_LEFT);
                 (mouse, SDL_EVENT_MOUSE_BUTTON_DOWN SDL_BUTTON_LEFT)] g
  = Done g'' ->
  same_active g g'' /\ ready_ g'' = ready_ g /\ start_ g'' = false.
Proof.
  intros Hs H. cbn [handle_inputs] in H.
  apply run_bind_Done in H as (g1 & H1 & H).
  apply run_bind_Done in H as (g2 & H2 & H). injection H as <-.
  destruct (handle_input_left_press
              mouse (SDL_EVENT_MOUSE_BUTTON_DOWN SDL_BUTTON_LEFT) g g1
              Hs eq_refl H1) as (Hs1 & Hr1).
  destruct (handle_input_left_press
              mouse (SDL_EVENT_MOUSE_BUTTON_DOWN SDL_BUTTON_LEFT) g1 g2
              Hs1 eq_refl H2) as (Hs2 & Hr2).
  assert (Hsame : same_active g g2).
  { intros n.
    destruct (handle_input_keeps_scale _ _ _ _ H1) as (Hsd & Hn & Hsx & Hsy).
    apply handle_input_effect in H1 as (_ & _ & _ & Hc1 & _).
    apply handle_input_effect in H2 as (_ & _ & _ & Hc2 & _).
    rewrite Hc2, Hc1, Hn, Hsx, Hsy.
    destruct (decide (Z.of_nat n < cell_count_ g)); [ | reflexivity].
    destruct (cells_ g !! n) as [c |]; [ | reflexivity].
    simpl. f_equal. apply cell_after_input_twice; congruence. }
  split; [exact Hsame | ].
  rewrite (count_active_same _ _ Hsame) in Hr2. split; [lia | exact Hs2].
Qed.

Lemma left_press_twice_restores_witness :
  exists g'',
    handle_inputs [left_press 387 287; left_press 387 287] grid3_one = Done g'' /\
    same_active grid3_one g'' /\ ready_ g'' = ready_ grid3_one.
Proof.
  destruct (run_done (handle_inputs [left_press 387 287; left_press 387 287]
                        grid3_one))
    as [g'' E]; [vm_compute; reflexivity | ].
  exists g''. split; [exact E | ].
  assert (Hs : start_ grid3_one = false) by (vm_compute; reflexivity).
  destruct (left_press_twice_restores _ _ _ Hs E) as (Hsame & Hr & _).
  auto.
Defined.

(** ** The step *)

Lemma committed_keeps c :
  shape_ (committed c) = shape_ c /\
  wait_for_select_ (committed c) = wait_for_select_ c.
Proof. unfold committed. destruct (get_active_change c); simpl; tauto. Qed.

(** X6.  The step never moves a cell and never touches a hover flag:
    in either mode [ai_] leaves the side, the grid's shape, the scale
    and the mode as they were, and every cell of the array keeps its
    rectangle and its hover flag. *)
Theorem ai_keeps_shapes mt g g' :
  ai_ mt g = Done g' ->
  same_frame g g' /\
  forall n c',
    cells_ g' !! n = Some c' ->
    exists c, cells_ g !! n = Some c /\
              shape_ c' = shape_ c /\
              wait_for_select_ c' = wait_for_select_ c.
Proof.
  intros H. pose proof (ai_keeps_mode _ _ _ H) as Hf. split; [exact Hf | ].
  apply ai_Done in H as (g1 & Hev & Hcm).
  apply ai_evaluate_effect in Hev as (_ & _ & Hrel & _).
  apply ai_commit_effect in Hcm as (_ & _ & Hcs).
  intros n c' Hc'. rewrite Hcs in Hc'.
  assert (exists c1, cells_ g1 !! n = Some c1 /\ shape_ c' = shape_ c1 /\
                     wait_for_select_ c' = wait_for_select_ c1)
    as (c1 & Hc1 & Hsh & Hwt).
  { destruct (decide (Z.of_nat n < cell_count_ g1)).
    - destruct (cells_ g1 !! n) as [c1 |]; [ | discriminate].
      simpl in Hc'. injection Hc' as <-. exists c1.
      destruct (committed_keeps c1). auto.
    - exists c'. auto. }
  destruct (Hrel n c1 Hc1) as (c & Hc & _ & Hwt1 & Hsh1 & _).
  exists c. split; [exact Hc | ]. split; congruence.
Qed.

Lemma ai_keeps_shapes_witness :
  exists g', ai_ counting grid3_running = Done g' /\ same_frame grid3_running g'.
Proof.
  destruct (run_done (ai_ counting grid3_running)) as [g' E];
    [vm_compute; reflexivity | ].
  exists g'. split; [exact E | ].
  exact (proj1 (ai_keeps_shapes _ _ _ E)).
Defined.

(** X7.  While Editing a step is cosmetic: if no cell below
    [cell_count_] has a pending change, [ai_] leaves [ready_] as it was
    and every cell of the array as it was up to its jitter. *)
Theorem editing_step_changes_jitter_only mt g g' :
  start_ g = false ->
  (forall n c, Z.of_nat n < cell_count_ g -> cells_ g !! n = Some c ->
               active_change c = false) ->
  ai_ mt g = Done g' ->
  ready_ g' = ready_ g /\
  forall n c',
    cells_ g' !! n = Some c' ->
    exists c, cells_ g !! n = Some c /\ c' = set_shake (shake_ c') c.
Proof.
  intros Hs Hclear H.
  apply ai_Done in H as (g1 & Hev & Hcm).
  apply ai_evaluate_effect in Hev as (Hf & Hr & Hrel & _).
  apply ai_commit_effect in Hcm as (_ & Hr' & Hcs).
  split; [rewrite Hr', (Hr Hs); reflexivity | ].
  destruct Hf as (_ & _ & _ & Hn & _).
  intros n c' Hc'. rewrite Hcs, Hn in Hc'.
  assert (exists c1, cells_ g1 !! n = Some c1 /\
                     (c' = c1 \/ (Z.of_nat n < cell_count_ g /\ c' = committed c1)))
    as (c1 & Hc1 & Hc1').
  { destruct (decide (Z.of_nat n < cell_count_ g)).
    - destruct (cells_ g1 !! n) as [c1 |]; [ | discriminate].
      simpl in Hc'. injection Hc' as <-. exists c1. auto.
    - exists c'. auto. }
  destruct (Hrel n c1 Hc1) as (c & Hc & Ha & Hwt & Hsh & Hp).
  specialize (Hp Hs).
  assert (c' = c1) as ->.
  { destruct Hc1' as [-> | [Hlt ->]]; [reflexivity | ].
    apply committed_settled. rewrite Hp. exact (Hclear n c Hlt Hc). }
  exists c. split; [exact Hc | ].
  destruct c, c1. simpl in *. subst. reflexivity.
Qed.

Lemma grid3_pending_clear : pending_all_clear grid3.
Proof.
  apply (CellGrand_new_pending_all_clear host_window zeroed 8 3 3).
  apply done_result. vm_compute. reflexivity.
Qed.

Lemma grid3_one_pending_clear : pending_all_clear grid3_one.
Proof.
  apply (handle_inputs_pending_all_clear [left_press 387 287] grid3);
    [exact grid3_pending_clear | ].
  apply done_result. vm_compute. reflexivity.
Qed.

Lemma grid3_running_pending_clear : pending_all_clear grid3_running.
Proof.
  apply (handle_inputs_pending_all_clear [return_press 387 287] grid3_one);
    [exact grid3_one_pending_clear | ].
  apply done_result. vm_compute. reflexivity.
Qed.

Lemma editing_step_changes_jitter_only_witness :
  exists g', ai_ counting grid3_one = Done g' /\ ready_ g' = ready_ grid3_one.
Proof.
  destruct (run_done (ai_ counting grid3_one)) as [g' E];
    [vm_compute; reflexivity | ].
  exists g'. split; [exact E | ].
  assert (Hs : start_ grid3_one = false) by (vm_compute; reflexivity).
  refine (proj1 (editing_step_changes_jitter_only _ _ _ Hs _ E)).
  intros n c _ Hc. exact (grid3_one_pending_clear n c Hc).
Defined.

(** What lines 172-201 make of the cell they visit while Running: the
    jitter is zeroed, the guarded reads add to [check_around], and the
    rule that applies sets the pending flag and counts in [ready_]. *)
Lemma ai_cell_running mt i j f f' :
  start_ (this f) = true ->
  ai_cell mt i j f = Done f' ->
  exists c around,
    cells_ (this f) !! Z.to_nat (i * w_ (this f) + j) = Some c /\
    count_reads
      (with_cells (<[Z.to_nat (i * w_ (this f) + j) := set_shake (mkShake 0 0) c]>
                     (cells_ (this f))) (this f))
      (check_around f) (neighbour_reads (w_ (this f)) (h_ (this f)) i j)
    = Done around /\
    check_around f' = around /\
    cells_ (this f')
    = <[Z.to_nat (i * w_ (this f) + j) :=
          if (if is_active_ c then (around <? 2) || (3 <? around) else around =? 3)
          then set_active_change true (set_shake (mkShake 0 0) c)
          else set_shake (mkShake 0 0) c]> (cells_ (this f)) /\
    ready_ (this f')
    = ready_ (this f)
      + (if (if is_active_ c then (around <? 2) || (3 <? around) else around =? 3)
         then (if is_active_ c then -1 else 1) else 0).
Proof.
  unfold ai_cell. destruct f as [g around0 n0]. cbn [this check_around drawn].
  intros Hs H.
  apply run_bind_Done in H as (c & Hat & H). apply cell_at_Done in Hat as [Hk Hc].
  rewrite Hs in H. cbn [negb andb] in H.
  apply run_bind_Done in H as ([g1 n1] & Hshake & H).
  apply run_bind_Done in Hshake as (g2 & Hup & Hshake).
  apply cell_upd_Done in Hup as (c0 & _ & Hc0 & ->).
  assert (c0 = c) as -> by congruence.
  injection Hshake as <- _.
  assert (Hlen : (Z.to_nat (i * w_ g + j) < length (cells_ g))%nat)
    by (now apply lookup_lt_Some in Hc).
  cbn [start_ with_cells w_ h_] in H. rewrite Hs in H.
  apply run_bind_Done in H as (around & Hcount & H).
  apply run_bind_Done in H as (c1 & Hat1 & H).
  apply cell_at_Done in Hat1 as [_ Hc1]. cbn [cells_ with_cells] in Hc1.
  rewrite list_lookup_insert_eq in Hc1 by exact Hlen. injection Hc1 as <-.
  exists c, around. split; [exact Hc | ]. split; [exact Hcount | ].
  unfold get_active_state in H. cbn [is_active_ set_shake] in H.
  destruct (is_active_ c); cbn [negb] in H;
    match type of H with (if ?b then _ else _) = _ => destruct b end;
    try (injection H as <-; cbn [this check_around cells_ with_cells ready_];
         split; [reflexivity | ]; split; [reflexivity | lia]);
    apply run_bind_Done in H as (g2 & Hup & H);
    apply cell_upd_Done in Hup as (c2 & _ & Hc2 & ->);
    cbn [cells_ with_cells] in Hc2;
    rewrite list_lookup_insert_eq in Hc2 by exact Hlen;
    injection Hc2 as <-; injection H as <-;
    cbn [this check_around cells_ with_cells with_ready ready_];
    rewrite list_insert_insert_eq; (split; [reflexivity | ]);
    (split; [reflexivity | lia]).
Qed.

Lemma count_reads_dead g rs :
  (forall n c, cells_ g !! n = Some c -> is_active_ c = false) ->
  forall around around',
    count_reads g around rs = Done around' -> around' = around.
Proof.
  intros Hdead. induction rs as [| r rs IH]; intros a a' H; simpl in H.
  - now injection H as <-.
  - apply run_bind_Done in H as (m & Hm & H). apply IH in H. subst a'.
    unfold count_read in Hm. destruct (fst r).
    + apply run_bind_Done in Hm as (c & Hc & Hm). injection Hm as <-.
      apply cell_at_Done in Hc as [_ Hc]. unfold get_active_state.
      now rewrite (Hdead _ _ Hc).
    + now injection Hm as <-.
Qed.

(** X8.  Nothing is born on an empty grid: while Running, if no cell of
    the array is active and no cell below [cell_count_] has a pending
    change, [ai_] leaves every cell inactive, sets no pending flag and
    leaves [ready_] as it was. *)
Theorem dead_grid_stays_dead mt g g' :
  start_ g = true ->
  (forall n c, cells_ g !! n = Some c -> is_active_ c = false) ->
  (forall n c, Z.of_nat n < cell_count_ g -> cells_ g !! n = Some c ->
               active_change c = false) ->
  ai_ mt g = Done g' ->
  ready_ g' = ready_ g /\
  forall n c',
    cells_ g' !! n = Some c' ->
    is_active_ c' = false /\
    exists c, cells_ g !! n = Some c /\ active_change c' = active_change c.
Proof.
  intros Hs Hdead Hclear H.
  apply ai_Done in H as (g1 & Hev & Hcm).
  assert (ready_ g1 = ready_ g /\ cell_count_ g1 = cell_count_ g /\
          forall n c', cells_ g1 !! n = Some c' ->
                       is_active_ c' = false /\
                       exists c, cells_ g !! n = Some c /\
                                 active_change c' = active_change c)
    as (Hr1 & Hn1 & Hcs1).
  { unfold ai_evaluate in Hev.
    apply run_bind_Done in Hev as (f & Hloop & Hev). injection Hev as <-.
    pose (B := fun f : AiFrame =>
      same_frame g (this f) /\ check_around f = 0 /\ ready_ (this f) = ready_ g /\
      forall n c', cells_ (this f) !! n = Some c' ->
                   is_active_ c' = false /\
                   exists c, cells_ g !! n = Some c /\
                             active_change c' = active_change c).
    assert (B f /\ forall i j : Z, 0 <= i < w_ g -> 0 <= j < h_ g -> True)
      as [(Hf & _ & Hr & Hcs) _].
    { eapply for_grid_inv
        with (body := ai_cell mt) (B := B) (P := fun _ _ _ => True) (h := h_ g);
        [ | | | exact Hloop].
      - split; [apply same_frame_refl | ]. split; [reflexivity | ].
        split; [reflexivity | ].
        intros n c' Hc'. split; [exact (Hdead n c' Hc') | eauto].
      - intros t (Hf & _). unfold same_frame in Hf. tauto.
      - intros i j t t' _ _ (Hf & Ha & Hr & Hcs) Hb.
        pose proof (ai_cell_effect _ _ _ _ _ Hb) as (Hf' & _).
        assert (Hst : start_ (this t) = true)
          by (unfold same_frame in Hf; destruct Hf as (_ & _ & _ & _ & _ & _ & -> & _);
              exact Hs).
        apply (ai_cell_running _ _ _ _ _ Hst) in Hb
          as (c & around & Hc & Hcount & Ha' & Hcs' & Hr').
        destruct (Hcs _ _ Hc) as (Hc_dead & c0 & Hc0 & Hc_pend).
        apply count_reads_dead in Hcount.
        2:{ intros n c1 Hc1. cbn [cells_ with_cells] in Hc1.
            apply list_lookup_insert_Some in Hc1
              as [(_ & <- & _) | (_ & Hc1)]; [exact Hc_dead | ].
            exact (proj1 (Hcs _ _ Hc1)). }
        rewrite Ha in Hcount. subst around.
        rewrite Hc_dead in Hcs', Hr'. cbn [Z.eqb] in Hcs', Hr'.
        split; [ | split; [exact I | auto]].
        split; [exact (same_frame_trans _ _ _ Hf Hf') | ].
        split; [exact Ha' | ]. split; [lia | ].
        intros n c' Hc'. rewrite Hcs' in Hc'.
        apply list_lookup_insert_Some in Hc'
          as [(<- & <- & _) | (_ & Hc')]; [ | exact (Hcs _ _ Hc')].
        split; [exact Hc_dead | ]. exists c0. split; [exact Hc0 | exact Hc_pend]. }
    split; [exact Hr | ]. split; [ | exact Hcs].
    unfold same_frame in Hf. tauto. }
  apply ai_commit_effect in Hcm as (_ & Hr' & Hcs).
  split; [lia | ].
  intros n c' Hc'. rewrite Hcs, Hn1 in Hc'.
  destruct (decide (Z.of_nat n < cell_count_ g)) as [Hlt | Hge].
  - destruct (cells_ g1 !! n) as [c1 |] eqn:Hc1; [ | discriminate].
    simpl in Hc'. injection Hc' as <-.
    destruct (Hcs1 n c1 Hc1) as (Ha & c & Hc & Hp).
    rewrite committed_settled by (rewrite Hp; exact (Hclear n c Hlt Hc)).
    split; [exact Ha | eauto].
  - exact (Hcs1 n c' Hc').
Qed.

Lemma cells_check (p : Cell -> bool) (cs : list Cell) :
  forallb p cs = true -> forall n c, cs !! n = Some c -> p c = true.
Proof.
  induction cs as [| c0 cs IH]; intros H n c Hc; [discriminate | ].
  simpl in H. apply andb_true_iff in H as [H0 H].
  destruct n as [| n]; simpl in Hc.
  - now injection Hc as <-.
  - exact (IH H n c Hc).
Qed.

Lemma dead_grid_stays_dead_witness :
  exists g',
    ai_ counting grid3_rescaled = Done g' /\
    start_ grid3_rescaled = true /\ ready_ g' = ready_ grid3_rescaled.
Proof.
  destruct (run_done (ai_ counting grid3_rescaled)) as [g' E];
    [vm_compute; reflexivity | ].
  exists g'. split; [exact E | ].
  assert (Hs : start_ grid3_rescaled = true) by (vm_compute; reflexivity).
  split; [exact Hs | ].
  refine (proj1 (dead_grid_stays_dead _ _ _ Hs _ _ E)).
  - intros n c Hc. apply negb_true_iff.
    refine (cells_check (fun c => negb (is_active_ c)) _ _ n c Hc).
    vm_compute. reflexivity.
  - intros n c _ Hc. apply negb_true_iff.
    refine (cells_check (fun c => negb (active_change c)) _ _ n c Hc).
    vm_compute. reflexivity.
Defined.

(** ** The frame *)

Lemma Qltb_self (s : Q) : Qltb (Qabs (s - s)) float_epsilon = true.
Proof.
  unfold Qltb. apply negb_true_iff.
  destruct (Qle_bool float_epsilon (Qabs (s - s))) eqn:E; [ | reflexivity].
  apply Qle_bool_iff in E.
  assert (H0 : (Qabs (s - s) == 0)%Q).
  { assert (Hz : (s - s == 0)%Q) by (unfold Qminus; apply Qplus_opp_r).
    rewrite Hz. reflexivity. }
  rewrite H0 in E. unfold Qle, float_epsilon in E. simpl in E. lia.
Qed.

(** X9.  A re-layout happens once per change of scale: the object
    [update_] returns is one [update_] leaves alone at the same
    display, so the frames that follow a re-layout do not reset the
    cells again. *)
Theorem update_settles d g g1 :
  update_ d g = Done g1 -> update_ d g1 = Done g1.
Proof.
  unfold update_ at 1.
  destruct (Qltb (Qabs (scale_x_ g - render_scale_x d)) float_epsilon
            && Qltb (Qabs (scale_y_ g - render_scale_y d)) float_epsilon) eqn:E;
    intros H.
  - injection H as <-. unfold update_. rewrite E. reflexivity.
  - apply init_cells_effect in H
      as (ww & wh & sx & sy & _ & _ & _ & _ & _ & _ & _ & Hsx & Hsy & _).
    cbn [scale_x_ scale_y_ with_scale] in Hsx, Hsy.
    unfold update_. rewrite Hsx, Hsy, !Qltb_self. reflexivity.
Qed.

Lemma update_settles_witness :
  exists g1,
    update_ host_window_scaled grid3_one = Done g1 /\
    update_ host_window_scaled g1 = Done g1.
Proof.
  destruct (run_done (update_ host_window_scaled grid3_one)) as [g1 E];
    [vm_compute; reflexivity | ].
  exists g1. split; [exact E | exact (update_settles _ _ _ E)].
Defined.

(** X10.  A frame at the stored scale keeps the layout: when the
    display's render scale is the one the object stores, [play] leaves
    the side, the grid's shape and the count as they were and every
    cell of the array at its rectangle. *)
Theorem play_keeps_layout d mt g g' out b :
  scale_x_ g = render_scale_x d -> scale_y_ g = render_scale_y d ->
  play d mt g = Done (g', out, b) ->
  same_frame g g' /\
  forall n c',
    cells_ g' !! n = Some c' ->
    exists c, cells_ g !! n = Some c /\ shape_ c' = shape_ c.
Proof.
  intros Hx Hy H.
  apply play_Done in H as (g1 & Hup & Hai & _).
  unfold update_ in Hup. rewrite Hx, Hy, !Qltb_self in Hup.
  cbn [andb] in Hup. injection Hup as <-.
  pose proof (ai_keeps_mode _ _ _ Hai) as Hf. split; [exact Hf | ].
  apply ai_Done in Hai as (g1 & Hev & Hcm).
  apply ai_evaluate_effect in Hev as (_ & _ & Hrel & _).
  apply ai_commit_effect in Hcm as (_ & _ & Hcs).
  intros n c' Hc'. rewrite Hcs in Hc'.
  assert (exists c1, cells_ g1 !! n = Some c1 /\ shape_ c' = shape_ c1)
    as (c1 & Hc1 & Hsh).
  { destruct (decide (Z.of_nat n < cell_count_ g1)).
    - destruct (cells_ g1 !! n) as [c1 |]; [ | discriminate].
      simpl in Hc'. injection Hc' as <-. exists c1.
      destruct (committed_keeps c1). auto.
    - exists c'. auto. }
  destruct (Hrel n c1 Hc1) as (c & Hc & _ & _ & Hsh1 & _).
  exists c. split; [exact Hc | congruence].
Qed.

Lemma play_keeps_layout_witness :
  exists g' out b,
    play host_window counting grid3_running = Done (g', out, b) /\
    same_frame grid3_running g'.
Proof.
  destruct (run_done (play host_window counting grid3_running))
    as [[[g' out] b] E]; [vm_compute; reflexivity | ].
  exists g', out, b. split; [exact E | ].
  refine (proj1 (play_keeps_layout _ _ _ _ _ _ _ _ E)).
  - vm_compute. reflexivity.
  - vm_compute. reflexivity.
Defined.

(** ** Drawing *)

Lemma draw_cells_Done g out :
  draw_cells_ g = Done out ->
  out = draw_cell <$> take (Z.to_nat (cell_count_ g)) (cells_ g) /\
  (Z.to_nat (cell_count_ g) <= length (cells_ g))%nat.
Proof.
  unfold draw_cells_. intros H.
  pose (Inv := fun (i : Z) (out : list Drawn) =>
    out = draw_cell <$> take (Z.to_nat i) (cells_ g) /\
    (Z.to_nat i <= length (cells_ g))%nat).
  assert (Inv (Z.max 0 (cell_count_ g)) out) as [Hout Hlen].
  { eapply for_lt_inv with (Inv := Inv); [ | | exact H].
    - split; [reflexivity | simpl; lia].
    - intros j t t' Hj [Ht Hl] Hb. cbv beta in Hb.
      apply run_bind_Done in Hb as (c & Hc & Hb). injection Hb as <-.
      apply cell_at_Done in Hc as [_ Hc]. unfold Inv.
      replace (Z.to_nat (j + 1)) with (Datatypes.S (Z.to_nat j)) by lia.
      split.
      + rewrite (take_S_r _ _ _ Hc), fmap_app, Ht. reflexivity.
      + apply lookup_lt_Some in Hc. lia. }
  replace (Z.to_nat (Z.max 0 (cell_count_ g))) with (Z.to_nat (cell_count_ g))
    in Hout, Hlen by lia.
  split; [exact Hout | exact Hlen].
Qed.

(** X11.  [draw_cells_] draws the cells below [cell_count_], each once
    and in index order, and nothing else: its output has [cell_count_]
    items, the [n]-th being [draw_cell] of [cells_[n]]; it is
    [draw_cell] of the first [cell_count_] cells of the array. *)
Theorem draw_cells_output g out :
  draw_cells_ g = Done out ->
  out = draw_cell <$> take (Z.to_nat (cell_count_ g)) (cells_ g) /\
  length out = Z.to_nat (cell_count_ g) /\
  forall n : nat,
    Z.of_nat n < cell_count_ g ->
    exists c, cells_ g !! n = Some c /\ out !! n = Some (draw_cell c).
Proof.
  intros H. apply draw_cells_Done in H as [Hout Hlen].
  split; [exact Hout | ]. split.
  - rewrite Hout, length_fmap, length_take. lia.
  - intros n Hn.
    destruct (lookup_lt_is_Some_2 (cells_ g) n) as [c Hc]; [lia | ].
    exists c. split; [exact Hc | ].
    rewrite Hout, list_lookup_fmap, lookup_take_lt by lia.
    rewrite Hc. reflexivity.
Qed.

Lemma draw_cells_output_witness :
  exists out,
    draw_cells_ grid3_one = Done out /\
    length out = Z.to_nat (cell_count_ grid3_one).
Proof.
  destruct (run_done (draw_cells_ grid3_one)) as [out E];
    [vm_compute; reflexivity | ].
  exists out. split; [exact E | exact (proj1 (proj2 (draw_cells_output _ _ E)))].
Defined.

(** ** Layout *)

Lemma init_axis_inside side n window start n' i :
  3 <= side ->
  init_axis side n window = Done (start, n') ->
  0 <= i < n' ->
  0 <= start + i * (side + kGap) /\ start + i * (side + kGap) + side <= window.
Proof.
  intros Hside H Hi. unfold init_axis, kGap in *.
  destruct (side * n + 2 * (n - 1) >? window - (4 * 2 + 2 * side)) eqn:E.
  - apply run_bind_Done in H as (m & Hm & H). injection H as <- <-.
    unfold int_div in Hm. destruct (2 + side =? 0); [discriminate | ].
    injection Hm as <-.
    destruct (Z.lt_ge_cases (window - 2) 0) as [Hneg | Hpos].
    + exfalso.
      assert ((window - 2) ÷ (2 + side) <= 0).
      { replace (window - 2) with (- (2 - window)) by lia.
        rewrite Z.quot_opp_l by lia.
        pose proof (Z.quot_pos (2 - window) (2 + side)). lia. }
      lia.
    + rewrite Z.quot_div_nonneg in Hi by lia.
      pose proof (Z.mul_div_le (window - 2) (2 + side)). nia.
  - apply run_bind_Done in H as (m & Hm & H). injection H as <- <-.
    unfold int_div in Hm. destruct (side + 2 =? 0); [discriminate | ].
    injection Hm as <-.
    replace (side * n + 2 * (n - 1) + 2) with (n * (side + 2)) in Hi by lia.
    rewrite Z.quot_mul in Hi by lia.
    rewrite Z.gtb_ltb in E. apply Z.ltb_ge in E.
    rewrite Z.quot_div_nonneg by lia.
    pose proof (Z.mul_div_le (window - (side * n + 2 * (n - 1))) 2).
    assert (0 <= (window - (side * n + 2 * (n - 1))) / 2)
      by (apply Z.div_pos; lia).
    nia.
Qed.

(** X12.  The layout stays inside the window: after a layout pass on an
    object of side at least 3, every cell of the grid has a rectangle
    of side [side_] that lies, on both axes, between 0 and the logical
    size of the window (the window size over the stored scale). *)
Theorem init_cells_inside_window d g g' :
  3 <= side_ g ->
  init_cells_ d g = Done g' ->
  exists window_w window_h,
    int_div_float (window_size_w d) (scale_x_ g) = Done window_w /\
    int_div_float (window_size_h d) (scale_y_ g) = Done window_h /\
    forall i j,
      0 <= i < w_ g' -> 0 <= j < h_ g' ->
      exists c,
        cells_ g' !! Z.to_nat (i * w_ g' + j) = Some c /\
        rect_w (shape_ c) = side_ g /\ rect_h (shape_ c) = side_ g /\
        0 <= rect_x (shape_ c) /\ rect_x (shape_ c) + side_ g <= window_w /\
        0 <= rect_y (shape_ c) /\ rect_y (shape_ c) + side_ g <= window_h.
Proof.
  intros Hside H.
  apply init_cells_effect in H
    as (ww & wh & sx & sy & Hww & Hwh & Hax & Hay & _ & _ & Hsd & _ & _ & _ & _ & _
        & _ & Hlaid).
  exists ww, wh. split; [exact Hww | ]. split; [exact Hwh | ].
  intros i j Hi Hj.
  destruct (Hlaid i j Hi Hj) as (c & Hc & _ & _ & _ & i' & j' & Hi' & Hj' & _ & Hsh);
    [lia | lia | ].
  exists c. split; [exact Hc | ].
  rewrite Hsh. unfold position_of. cbn [rect_x rect_y rect_w rect_h].
  rewrite Hsd.
  destruct (init_axis_inside _ _ _ _ _ i' Hside Hax Hi').
  destruct (init_axis_inside _ _ _ _ _ j' Hside Hay Hj').
  tauto.
Qed.

Lemma init_cells_inside_window_witness :
  exists g' window_w window_h,
    init_cells_ narrow_window grid3_one = Done g' /\
    int_div_float (window_size_w narrow_window) (scale_x_ grid3_one) = Done window_w /\
    int_div_float (window_size_h narrow_window) (scale_y_ grid3_one) = Done window_h.
Proof.
  destruct (run_done (init_cells_ narrow_window grid3_one)) as [g' E];
    [vm_compute; reflexivity | ].
  assert (Hside : 3 <= side_ grid3_one) by (vm_compute; discriminate).
  destruct (init_cells_inside_window _ _ _ Hside E) as (ww & wh & Hww & Hwh & _).
  exists g', ww, wh. auto.
Defined.




(** ** Construction *)

(** X14.  The constructor aborts in two cases only, and in each of them
    always: with [side_too_small] when the side is below 3, and with
    [cell_count_over_limit] when the side is at least 3 and the grid
    the layout derives has more than [MAX_CELL_COUNT] cells. *)
Theorem CellGrand_new_aborts_exactly d garbage side w h e :
  CellGrand_new d garbage side w h = Abort e <->
  (e = side_too_small /\ side < 3) \/
  (e = cell_count_over_limit /\ 3 <= side /\
   exists start_pos_x w' start_pos_y h',
     layout_derives d (mkCellGrand side w h (fresh_cells garbage) 0
                                   (render_scale_x d) (render_scale_y d) 0 false)
                    start_pos_x w' start_pos_y h'
     /\ MAX_CELL_COUNT < w' * h').
Proof.
  split; [apply CellGrand_new_Abort | ].
  intros [[-> Hs] | (-> & Hs & sx & w' & sy & h' & Hd & Hover)].
  - apply CellGrand_new_side_too_small. exact Hs.
  - unfold CellGrand_new, check_valid, assert.
    replace (3 <=? side) with true by (symmetry; apply Z.leb_le; exact Hs).
    cbn [run_bind]. exact (init_cells_over_limit _ _ _ _ _ _ Hd Hover).
Qed.

Lemma CellGrand_new_aborts_exactly_witness :
  CellGrand_new host_window zeroed 2 25 25 = Abort side_too_small.
Proof.
  apply (proj2 (CellGrand_new_aborts_exactly host_window zeroed 2 25 25
                                             side_too_small)).
  left. split; [reflexivity | lia].
Defined.

(** X15.  A constructed object is an empty board in Editing mode: the
    side is the one asked for and at least 3, the scale is the
    display's, [cell_count_] is [w_ * h_] and at most
    [MAX_CELL_COUNT], [ready_] is 0, and no cell of the array is
    active, hovered, pending or displaced. *)
Theorem CellGrand_new_initial_state d garbage side w h g :
  CellGrand_new d garbage side w h = Done g ->
  side_ g = side /\ 3 <= side /\
  scale_x_ g = render_scale_x d /\ scale_y_ g = render_scale_y d /\
  cell_count_ g = w_ g * h_ g /\ cell_count_ g <= MAX_CELL_COUNT /\
  length (cells_ g) = Z.to_nat MAX_CELL_COUNT /\
  start_ g = false /\ ready_ g = 0 /\
  forall n c, cells_ g !! n = Some c ->
              is_active_ c = false /\ wait_for_select_ c = false /\
              active_change c = false /\ shake_ c = mkShake 0 0.
Proof.
  intros H.
  pose proof (CellGrand_new_effect _ _ _ _ _ _ H)
    as ((Hcap & Hlen) & _ & Hst & Hr & Hcells).
  apply CellGrand_new_Done in H as [Hside H].
  revert H. generalize (fresh_cells garbage). intros cs H.
  apply init_cells_effect in H
    as (ww & wh & sx & sy & _ & _ & _ & _ & Hn & _ & Hsd & Hsx & Hsy & _).
  cbn [side_ scale_x_ scale_y_] in Hsd, Hsx, Hsy.
  do 9 (split; [assumption | ]).
  intros n c Hc. destruct (Hcells n c Hc) as (? & ? & ? & ?). auto.
Qed.

Lemma CellGrand_new_initial_state_witness :
  exists g,
    CellGrand_new host_window zeroed 8 25 25 = Done g /\
    start_ g = false /\ ready_ g = 0 /\ cell_count_ g = w_ g * h_ g.
Proof.
  destruct (run_done (CellGrand_new host_window zeroed 8 25 25)) as [g E];
    [vm_compute; reflexivity | ].
  exists g. split; [exact E | ].
  destruct (CellGrand_new_initial_state _ _ _ _ _ _ E)
    as (_ & _ & _ & _ & Hn & _ & _ & Hs & Hr & _).
  auto.
Defined.

(** X16.  The loops over [cell_count_] stay inside the array: on every
    object the host can hold, [handle_input] has a result for every
    pointer position and event, and [draw_cells_] has one. *)
Theorem reachable_input_and_drawing_defined mouse event g :
  reachable g ->
  (exists g', handle_input mouse event g = Done g') /\
  (exists out, draw_cells_ g = Done out).
Proof.
  intros Hr. apply reachable_well_formed in Hr. split.
  - destruct (handle_input_total mouse event g Hr) as (g' & H & _). eauto.
  - exact (draw_cells_total g Hr).
Qed.

Lemma reachable_input_and_drawing_defined_witness :
  (exists g', handle_input (387, 287)%Q SDL_EVENT_MOUSE_MOTION grid32_running
              = Done g') /\
  (exists out, draw_cells_ grid32_running = Done out).
Proof.
  exact (reachable_input_and_drawing_defined
           (387, 287)%Q SDL_EVENT_MOUSE_MOTION grid32_running
           grid32_running_reachable).
Defined.

(** ** The step on a square grid *)

(** Two nested loops with an invariant indexed by the number of steps
    taken: the step at [(i, j)] is step number [i * h + j]. *)
Lemma for_grid_inv_count {S : Type} (body : Z -> Z -> S -> Run S) (hb : S -> Z)
      (Inv : Z -> S -> Prop) (w h : Z) (s s' : S) :
  Inv 0 s ->
  (forall n t, Inv n t -> hb t = h) ->
  (forall i j t t', 0 <= i < w -> 0 <= j < h ->
                    Inv (i * h + j) t -> body i j t = Done t' ->
                    Inv (i * h + j + 1) t') ->
  for_lt w (fun i t => for_lt (hb t) (fun j t => body i j t) t) s = Done s' ->
  Inv (Z.max 0 w * Z.max 0 h) s'.
Proof.
  intros H0 Hhb Hstep Hrun.
  eapply for_lt_inv with (Inv := fun i t => Inv (i * Z.max 0 h) t);
    [ | | exact Hrun].
  - exact H0.
  - intros i t t' Hi Ht Hin. cbv beta in Hin. rewrite (Hhb _ _ Ht) in Hin.
    replace ((i + 1) * Z.max 0 h) with (i * Z.max 0 h + Z.max 0 h) by lia.
    eapply for_lt_inv with (Inv := fun j u => Inv (i * Z.max 0 h + j) u);
      [ | | exact Hin].
    + replace (i * Z.max 0 h + 0) with (i * Z.max 0 h) by lia. exact Ht.
    + intros j u u' Hj Hu Hb.
      replace (Z.max 0 h) with h in * by lia.
      replace (i * h + (j + 1)) with (i * h + j + 1) by lia.
      exact (Hstep i j u u' Hi Hj Hu Hb).
Qed.

Lemma committed_flags_clear (cs : list Cell) :
  (forall n c, cs !! n = Some c -> active_change c = false) ->
  count_active (committed <$> cs) = count_active cs.
Proof.
  intros H. apply count_active_flags. apply list_eq. intros n.
  rewrite !list_lookup_fmap.
  destruct (cs !! n) as [c |] eqn:Hc; [ | reflexivity].
  simpl. rewrite committed_settled by exact (H n c Hc). reflexivity.
Qed.

Lemma committed_flips c :
  active_change c = true -> is_active_ (committed c) = negb (is_active_ c).
Proof. unfold committed, get_active_change. now intros ->. Qed.

(** The evaluation pass on a square grid counts in [ready_] what the
    commit pass will do to the active flags. *)
Lemma evaluation_accounts mt g f :
  w_ g = h_ g -> pending_all_clear g ->
  for_lt (w_ g) (fun i f => for_lt (h_ (this f)) (fun j f => ai_cell mt i j f) f)
         (mkAiFrame g 0 O) = Done f ->
  same_frame g (this f) /\
  ready_ (this f) - count_active (committed <$> cells_ (this f))
  = ready_ g - count_active (cells_ g) /\
  forall m c, Z.max 0 (w_ g) * Z.max 0 (h_ g) <= Z.of_nat m ->
              cells_ (this f) !! m = Some c -> active_change c = false.
Proof.
  intros Hsq Hclear Hrun.
  pose (Inv := fun (n : Z) (t : AiFrame) =>
    same_frame g (this t) /\
    ready_ (this t) - count_active (committed <$> cells_ (this t))
    = ready_ g - count_active (cells_ g) /\
    forall m c, n <= Z.of_nat m -> cells_ (this t) !! m = Some c ->
                active_change c = false).
  change (Inv (Z.max 0 (w_ g) * Z.max 0 (h_ g)) f).
  eapply for_grid_inv_count with (body := ai_cell mt) (Inv := Inv);
    [ | | | exact Hrun].
  - split; [apply same_frame_refl | ]. split.
    + cbn [this]. rewrite (committed_flags_clear _ Hclear). reflexivity.
    + intros m c _ Hc. exact (Hclear m c Hc).
  - intros n t (Hf & _). unfold same_frame in Hf. tauto.
  - intros i j t t' Hi Hj (Hf & Hacc & Hrest) Hb.
    pose proof Hf as (_ & Hw & _ & _ & _ & _ & Hst & _).
    pose proof (ai_cell_effect _ _ _ _ _ Hb)
      as (Hf' & c & c' & Hk & Hc & Hcs & Ha & _ & _ & _ & _ & Hed & _).
    rewrite Hw in Hk, Hc, Hcs.
    replace (i * w_ g + j) with (i * h_ g + j) in Hk, Hc, Hcs by (rewrite Hsq; reflexivity).
    assert (Hp : active_change c = false)
      by (apply (Hrest _ c) in Hc; [exact Hc | lia]).
    assert (Hcc : (committed <$> cells_ (this t)) !! Z.to_nat (i * h_ g + j)
                  = Some c)
      by (rewrite list_lookup_fmap, Hc; simpl;
          rewrite committed_settled by exact Hp; reflexivity).
    split; [exact (same_frame_trans _ _ _ Hf Hf') | ]. split.
    + rewrite Hcs, list_fmap_insert, (count_active_insert _ _ _ _ Hcc).
      destruct (start_ (this t)) eqn:Hrun_t.
      * apply (ai_cell_running _ _ _ _ _ Hrun_t) in Hb
          as (c0 & around & Hc0 & _ & _ & Hcs0 & Hr0).
        rewrite Hw in Hc0, Hcs0.
        replace (i * w_ g + j) with (i * h_ g + j) in Hc0, Hcs0
          by (rewrite Hsq; reflexivity).
        assert (c0 = c) as -> by congruence.
        assert (Hc' : cells_ (this t') !! Z.to_nat (i * h_ g + j) = Some c')
          by (rewrite Hcs; apply list_lookup_insert_eq;
              apply lookup_lt_Some in Hc; exact Hc).
        rewrite Hcs0 in Hc'.
        rewrite list_lookup_insert_eq in Hc'
          by (apply lookup_lt_Some in Hc; exact Hc).
        injection Hc' as <-. rewrite Hr0.
        destruct (if is_active_ c then (around <? 2) || (3 <? around)
                  else around =? 3).
        -- rewrite committed_flips by reflexivity.
           cbn [is_active_ set_active_change set_shake].
           destruct (is_active_ c); cbn [negb]; lia.
        -- rewrite committed_settled by exact Hp.
           cbn [is_active_ set_shake]. lia.
      * destruct (Hed eq_refl) as [Hp' ->].
        rewrite committed_settled by (rewrite Hp'; exact Hp).
        rewrite Ha. lia.
    + intros m c1 Hm Hc1. rewrite Hcs in Hc1.
      rewrite list_lookup_insert_ne in Hc1 by lia.
      apply (Hrest m c1); [lia | exact Hc1].
Qed.

Lemma ai_square_accounting mt g g' :
  w_ g = h_ g -> cell_count_ g = w_ g * h_ g -> pending_all_clear g ->
  ai_ mt g = Done g' ->
  ready_ g' - count_active (cells_ g') = ready_ g - count_active (cells_ g).
Proof.
  intros Hsq Hn Hclear H.
  apply ai_Done in H as (g1 & Hev & Hcm).
  unfold ai_evaluate in Hev.
  apply run_bind_Done in Hev as (f & Hloop & Hev). injection Hev as <-.
  apply (evaluation_accounts mt g f Hsq Hclear) in Hloop as (Hf & Hacc & Hrest).
  apply ai_commit_effect in Hcm as (_ & Hr & Hcs).
  destruct Hf as (_ & _ & _ & Hn1 & _).
  rewrite Hr, <- Hacc. f_equal.
  apply count_active_flags. apply list_eq. intros n.
  rewrite !list_lookup_fmap, Hcs, Hn1.
  destruct (decide (Z.of_nat n < cell_count_ g)) as [Hlt | Hge]; [reflexivity | ].
  destruct (cells_ (this f) !! n) as [c |] eqn:Hc; [ | reflexivity].
  simpl. rewrite committed_settled; [reflexivity | ].
  apply (Hrest n c); [ | exact Hc]. nia.
Qed.

(** X17.  On a square grid a step keeps [ready_] in step with the
    active flags: if [w_ = h_], [cell_count_ = w_ * h_] and no pending
    flag is set, [ai_] changes [ready_] by exactly the change in the
    number of active cells, in either mode and whatever the neighbour
    counts were, and leaves no pending flag set. *)
Theorem ai_accounts_on_square_grid mt g g' :
  w_ g = h_ g -> cell_count_ g = w_ g * h_ g -> pending_all_clear g ->
  ai_ mt g = Done g' ->
  ready_ g' - count_active (cells_ g') = ready_ g - count_active (cells_ g) /\
  pending_all_clear g'.
Proof.
  intros Hsq Hn Hclear H. split.
  - exact (ai_square_accounting mt g g' Hsq Hn Hclear H).
  - apply (ai_consumes_pending mt g g'); [lia | assumption ..].
Qed.

Lemma ai_accounts_on_square_grid_witness :
  exists g',
    ai_ counting grid3_running = Done g' /\
    ready_ g' - count_active (cells_ g')
    = ready_ grid3_running - count_active (cells_ grid3_running).
Proof.
  destruct (run_done (ai_ counting grid3_running)) as [g' E];
    [vm_compute; reflexivity | ].
  exists g'. split; [exact E | ].
  refine (proj1 (ai_accounts_on_square_grid _ _ _ _ _ grid3_running_pending_clear E)).
  - vm_compute. reflexivity.
  - vm_compute. reflexivity.
Defined.

(** ** A session at one scale *)

Lemma update_same_scale d g :
  scale_x_ g = render_scale_x d -> scale_y_ g = render_scale_y d ->
  update_ d g = Done g.
Proof.
  intros Hx Hy. unfold update_. rewrite Hx, Hy, !Qltb_self. reflexivity.
Qed.

Lemma count_active_nonneg (cs : list Cell) : 0 <= count_active cs.
Proof.
  induction cs as [| c cs IH]; simpl; [lia | ].
  destruct (is_active_ c); lia.
Qed.

Lemma after_keys_ready event g :
  0 <= ready_ g -> ready_ (after_keys event g) = ready_ g.
Proof.
  intros Hr. unfold after_keys.
  destruct ((0 <? ready_ g) && return_key_down event);
    cbn [start_ ready_ with_start];
    match goal with |- context [if ?b then _ else _] => destruct b eqn:E end;
    try reflexivity;
    apply andb_true_iff in E as [_ E]; apply Z.leb_le in E;
    cbn [ready_ with_ready with_start]; lia.
Qed.

Lemma session_reachable d g : session d g -> reachable g.
Proof.
  induction 1 as [garbage side w h g H _ | mouse event g g' _ IH H
                  | mt g g' out b _ IH H].
  - exact (reachable_new _ _ _ _ _ _ H).
  - exact (reachable_input _ _ _ _ IH H).
  - exact (reachable_play _ _ _ _ _ _ IH H).
Qed.

Lemma session_scale d g :
  session d g ->
  scale_x_ g = render_scale_x d /\ scale_y_ g = render_scale_y d.
Proof.
  induction 1 as [garbage side w h g H _ | mouse event g g' _ IH H
                  | mt g g' out b _ IH H].
  - apply CellGrand_new_Done in H as [_ H].
    revert H. generalize (fresh_cells garbage). intros cs H.
    apply init_cells_effect in H
      as (ww & wh & sx & sy & _ & _ & _ & _ & _ & _ & _ & Hsx & Hsy & _).
    cbn [scale_x_ scale_y_] in Hsx, Hsy. auto.
  - destruct IH as [Hsx Hsy].
    apply handle_input_keeps_scale in H as (_ & _ & -> & ->). auto.
  - destruct IH as [Hsx Hsy].
    apply play_Done in H as (g1 & Hup & Hai & _).
    rewrite (update_same_scale d g Hsx Hsy) in Hup. injection Hup as <-.
    apply ai_keeps_mode in Hai as (_ & _ & _ & _ & -> & -> & _). auto.
Qed.

(** X18.  The count the step logs is the number of live cells: in a
    session at one display (an object constructed there with a square
    grid, then any inputs and any frames at that display) [ready_] is
    the number of active cells of the array; the session keeps the
    display's scale, the square grid with [cell_count_ = w_ * h_], and
    no pending flag. *)
Theorem session_ready_counts_active d g :
  session d g ->
  scale_x_ g = render_scale_x d /\ scale_y_ g = render_scale_y d /\
  w_ g = h_ g /\ cell_count_ g = w_ g * h_ g /\
  pending_all_clear g /\ ready_ g = count_active (cells_ g).
Proof.
  induction 1 as [garbage side w h g H Hsq | mouse event g g' _ IH H
                  | mt g g' out b _ IH H].
  - pose proof (CellGrand_new_pending_all_clear _ _ _ _ _ _ H) as Hclear.
    pose proof (CellGrand_new_effect _ _ _ _ _ _ H) as (_ & _ & _ & Hr & Hcells).
    apply CellGrand_new_Done in H as [_ H].
    revert H. generalize (fresh_cells garbage). intros cs H.
    apply init_cells_effect in H
      as (ww & wh & sx & sy & _ & _ & _ & _ & Hn & _ & _ & Hsx & Hsy & _).
    cbn [scale_x_ scale_y_] in Hsx, Hsy.
    do 5 (split; [assumption | ]).
    rewrite Hr. symmetry. apply count_active_zero.
    intros n c Hc. exact (proj1 (Hcells n c Hc)).
  - destruct IH as (Hsx & Hsy & Hsq & Hn & Hclear & Hr).
    pose proof (handle_input_pending_all_clear _ _ _ _ Hclear H) as Hclear'.
    apply handle_input_effect in H as (g1 & -> & Hf & _ & Hacc).
    destruct (after_keys_grid event g1) as (Hw' & Hh' & Hn').
    destruct (after_keys_frame event g1) as (_ & Hsx' & Hsy').
    rewrite after_keys_cells in *.
    destruct Hf as (_ & Hw1 & Hh1 & Hn1 & Hsx1 & Hsy1 & _).
    split; [congruence | ]. split; [congruence | ]. split; [congruence | ].
    split; [congruence | ]. split; [exact Hclear' | ].
    rewrite after_keys_ready; [lia | ].
    pose proof (count_active_nonneg (cells_ g1)). lia.
  - destruct IH as (Hsx & Hsy & Hsq & Hn & Hclear & Hr).
    apply play_Done in H as (g1 & Hup & Hai & _).
    rewrite (update_same_scale d g Hsx Hsy) in Hup. injection Hup as <-.
    pose proof (ai_keeps_mode _ _ _ Hai) as (_ & Hw1 & Hh1 & Hn1 & Hsx1 & Hsy1 & _).
    pose proof (ai_square_accounting _ _ _ Hsq Hn Hclear Hai) as Hacc.
    assert (Hclear' : pending_all_clear g')
      by (apply (ai_consumes_pending mt g g'); [lia | assumption ..]).
    split; [congruence | ]. split; [congruence | ]. split; [congruence | ].
    split; [congruence | ]. split; [exact Hclear' | lia].
Qed.

Lemma session_inputs d events :
  forall g g', session d g -> handle_inputs events g = Done g' -> session d g'.
Proof.
  induction events as [| [mouse event] events IH]; intros g g' Hs H; simpl in H.
  - now injection H as <-.
  - apply run_bind_Done in H as (g1 & H1 & H).
    exact (IH g1 g' (session_input d _ _ _ _ Hs H1) H).
Qed.

Lemma grid3_running_session : session host_window grid3_running.
Proof.
  assert (H3 : session host_window grid3).
  { apply (session_new host_window zeroed 8 3 3).
    - apply done_result. vm_compute. reflexivity.
    - vm_compute. reflexivity. }
  assert (H1 : session host_window grid3_one).
  { apply (session_inputs host_window [left_press 387 287] grid3 _ H3).
    apply done_result. vm_compute. reflexivity. }
  apply (session_inputs host_window [return_press 387 287] grid3_one _ H1).
  apply done_result. vm_compute. reflexivity.
Qed.

Lemma session_ready_counts_active_witness :
  ready_ grid3_running = count_active (cells_ grid3_running).
Proof.
  destruct (session_ready_counts_active host_window grid3_running
                                        grid3_running_session)
    as (_ & _ & _ & _ & _ & Hr).
  exact Hr.
Defined.

(** X19.  Frames of a session have a result where the scan fits the
    array: in a session at display [d], on a grid with
    [w_ * w_ + h_ < MAX_CELL_COUNT], [play] at [d] has a result and
    returns the mode the object is in. *)
Theorem session_play_defined d mt g :
  session d g -> scan_safe (w_ g) (h_ g) ->
  exists g' out, play d mt g = Done (g', out, start_ g).
Proof.
  intros Hs Hscan.
  destruct (session_scale d g Hs) as [Hsx Hsy].
  apply (play_total d mt g g).
  - apply reachable_well_formed. exact (session_reachable d g Hs).
  - exact (update_same_scale d g Hsx Hsy).
  - exact Hscan.
Qed.

Lemma session_play_defined_witness :
  exists g' out,
    play host_window counting grid3_running = Done (g', out, start_ grid3_running).
Proof.
  apply (session_play_defined host_window counting grid3_running
                              grid3_running_session).
  right. right. vm_compute. reflexivity.
Defined.

(** ** What a frame draws *)

(** X20.  A frame draws every cell in place: on an object the host can
    hold whose grid is square after the frame, [play] draws one
    rectangle per cell below [cell_count_], of the cell's size and at
    most one pixel from the cell's position on either axis, and exactly
    at it when the frame returns [true] (Running). *)
Theorem play_draws_cells_in_place d mt g g' out b :
  reachable g ->
  play d mt g = Done (g', out, b) ->
  0 <= w_ g' /\ w_ g' = h_ g' ->
  length out = Z.to_nat (cell_count_ g') /\
  forall n dr,
    out !! n = Some dr ->
    exists c,
      cells_ g' !! n = Some c /\
      frect_side dr = (rect_w (shape_ c), rect_h (shape_ c)) /\
      -1 <= frect_x dr - rect_x (shape_ c) <= 1 /\
      -1 <= frect_y dr - rect_y (shape_ c) <= 1 /\
      (b = true ->
       frect_x dr = rect_x (shape_ c) /\ frect_y dr = rect_y (shape_ c)).
Proof.
  intros Hreach H Hsq.
  pose proof (reachable_play _ _ _ _ _ _ Hreach H) as Hreach'.
  apply play_Done in H as (g1 & Hup & Hai & Hdraw & ->).
  apply draw_cells_Done in Hdraw as [Hout Hlen].
  split; [rewrite Hout, length_fmap, length_take; lia | ].
  assert (Hjit : jitter_contained_linear g').
  { apply jitter_contained_square;
      [exact (reachable_cell_count g' Hreach') | exact Hsq | ].
    apply (ai_jitter_contained mt g1 g'); [ | exact Hai].
    apply (update_pending_clear d g g1); [ | exact Hup].
    exact (reachable_pending_clear g Hreach). }
  intros n dr Hdr.
  assert (Hn : (n < Z.to_nat (cell_count_ g'))%nat).
  { apply lookup_lt_Some in Hdr.
    rewrite Hout, length_fmap, length_take in Hdr. lia. }
  rewrite Hout, list_lookup_fmap, lookup_take_lt in Hdr by exact Hn.
  destruct (Hjit n) as (c & Hc & Hrun & _ & _ & Hok); [lia | ].
  rewrite Hc in Hdr. simpl in Hdr. injection Hdr as <-.
  exists c. split; [exact Hc | ].
  destruct Hok as [Hx Hy].
  unfold draw_cell, get_shape, get_shake, get_active_state, get_wait_state.
  destruct (is_active_ c); [ | destruct (wait_for_select_ c)];
    cbn [frect_side frect_x frect_y];
    (split; [reflexivity | ]); (split; [lia | ]); (split; [lia | ]);
    intros Hb; try (split; lia).
  rewrite (Hrun Hb). cbn [shake_x shake_y]. split; lia.
Qed.

Lemma play_draws_cells_in_place_witness :
  exists g' out b,
    play host_window counting grid3_one = Done (g', out, b) /\
    length out = Z.to_nat (cell_count_ g').
Proof.
  destruct (run_done (play host_window counting grid3_one))
    as [[[g' out] b] E]; [vm_compute; reflexivity | ].
  exists g', out, b. split; [exact E | ].
  refine (proj1 (play_draws_cells_in_place _ _ _ _ _ _ grid3_one_reachable E _)).
  replace g' with (object_of (play host_window counting grid3_one))
    by (rewrite E; reflexivity).
  vm_compute. split; [discriminate | reflexivity].
Defined.
